(** * Zycore-C vector container ([src/Vector.c]): shallow embedding and properties

    The C file implements a type-erased growable array.  This development
    embeds every function of [Vector.c] as a Rocq function over an explicit
    vector state and proves (or refutes) the properties stated for it.

    Modelling conventions

    - [ZyanUSize] is an unsigned 64-bit integer: a [Z] in [0, 2^64) with every
      arithmetic operation of the source followed by its wrap-around.
    - [float] is IEEE-754 binary32, taken from the standard library's
      [SpecFloat] at precision 24 and maximal exponent 128, evaluated in single
      precision with round-to-nearest-even (as SSE2 or AArch64 code does).
    - The storage is a block of bytes with a length; [memmove] and [memcpy]
      check every range against that length, and an access outside of it is
      the outcome [Undefined OutOfBounds].
    - A pointer argument that may be null is an [option]; reading through a
      null pointer is the outcome [Undefined NullDereference].
    - [ZYAN_ASSERT] is compiled out (release build), so assertions do not
      appear in the embedding.
    - The allocator is the record of callbacks the vector holds; its functions
      return a status and the new value of the storage pointer. *)

From Stdlib Require Import ZArith Lia List Bool SpecFloat QArith Qround.
From Stdlib.Strings Require Import Byte.
Import ListNotations.
Local Open Scope Z_scope.

(* ================================================================== *)
(** * Machine integers: [ZyanUSize]                                   *)
(* ================================================================== *)

(** [ZyanUSize] is declared in [Zycore/Types.h], outside the sources: the
    unsigned integer as wide as a pointer, here that of a 64-bit target. *)
Definition ZYAN_USIZE_BITS : Z := 64.
Definition ZYAN_USIZE_MODULUS : Z := 2 ^ ZYAN_USIZE_BITS.

(** Reduction of a mathematical integer to its [ZyanUSize] representative. *)
Definition usize (z : Z) : Z := z mod ZYAN_USIZE_MODULUS.

Definition usize_add (a b : Z) : Z := usize (a + b).
Definition usize_sub (a b : Z) : Z := usize (a - b).
Definition usize_mul (a b : Z) : Z := usize (a * b).

Definition in_usize (z : Z) : Prop := 0 <= z < ZYAN_USIZE_MODULUS.

(** Modelled from the spec: [ZYAN_MAX] is a macro of [Zycore/Defines.h],
    outside the sources; the spec reads [ZYAN_MAX(1, x)] as max(1, x).  The
    larger of two unsigned operands, [a] when [a > b]. *)
Definition ZYAN_MAX (a b : Z) : Z := if b <? a then a else b.

(* ================================================================== *)
(** * Outcomes of running C code                                      *)
(* ================================================================== *)

Inductive fault : Type :=
| NullDereference
| OutOfBounds
| InvalidConversion.

Inductive result (A : Type) : Type :=
| Ok (a : A)
| Undefined (f : fault).

Arguments Ok {A} a.
Arguments Undefined {A} f.

Definition bind {A B : Type} (r : result A) (k : A -> result B) : result B :=
  match r with
  | Ok a => k a
  | Undefined f => Undefined f
  end.

Notation "x <- c ;; k" := (bind c (fun x => k))
  (at level 61, c at next level, right associativity).

(* ================================================================== *)
(** * Status codes                                                    *)
(* ================================================================== *)

(** Modelled from the spec: [Zycore/Status.h] is not part of the sources.  The
    spec names four statuses of the container and a failure that an allocator
    reports, which the container hands on verbatim; the allocator's code is
    kept as a number.  [ZYAN_SUCCESS] tells success from failure. *)
Inductive ZyanStatus : Type :=
| ZYAN_STATUS_SUCCESS
| ZYAN_STATUS_INVALID_ARGUMENT
| ZYAN_STATUS_OUT_OF_RANGE
| ZYAN_STATUS_INSUFFICIENT_BUFFER_SIZE
| ZYAN_STATUS_ALLOCATOR_FAILURE (code : Z).

Definition ZYAN_SUCCESS (status : ZyanStatus) : bool :=
  match status with
  | ZYAN_STATUS_SUCCESS => true
  | _ => false
  end.

(* ================================================================== *)
(** * Memory blocks                                                   *)
(* ================================================================== *)

(** A block of [buf_len] bytes; [buf_at] is only meaningful below
    [buf_len]. *)
Record buffer : Type := mkBuffer {
  buf_len : Z;
  buf_at : Z -> byte
}.

(** The bytes of a block from offset [off], [n] of them. *)
Definition buf_bytes (b : buffer) (off : Z) (n : nat) : list byte :=
  map (fun i => buf_at b (off + Z.of_nat i)) (seq 0 n).

Definition buffer_of_list (l : list byte) : buffer :=
  mkBuffer (Z.of_nat (length l)) (fun i => nth (Z.to_nat i) l x00).

(** Modelled from the spec: [ZYAN_MEMMOVE] and [ZYAN_MEMCPY] are macros of
    [Zycore/LibC.h], outside the sources; the spec calls them an overlap-safe
    move and a raw byte copy ([memmove], [memcpy]).

    [ZYAN_MEMMOVE(data + dst, data + src, n)] inside one block: every byte of
    the destination range receives the byte the source range held before the
    call. *)
Definition ZYAN_MEMMOVE (data : option buffer) (dst src n : Z) : result (option buffer) :=
  match data with
  | None => Undefined NullDereference
  | Some b =>
    if (dst + n <=? buf_len b) && (src + n <=? buf_len b) then
      Ok (Some (mkBuffer (buf_len b)
                  (fun i => if (dst <=? i) && (i <? dst + n)
                            then buf_at b (i - dst + src)
                            else buf_at b i)))
    else Undefined OutOfBounds
  end.

(** [ZYAN_MEMCPY(data + dst, source, n)] from a block of the caller. *)
Definition ZYAN_MEMCPY (data : option buffer) (dst : Z) (source : buffer) (n : Z)
  : result (option buffer) :=
  match data with
  | None => Undefined NullDereference
  | Some b =>
    if (dst + n <=? buf_len b) && (n <=? buf_len source) then
      Ok (Some (mkBuffer (buf_len b)
                  (fun i => if (dst <=? i) && (i <? dst + n)
                            then buf_at source (i - dst)
                            else buf_at b i)))
    else Undefined OutOfBounds
  end.

(* ================================================================== *)
(** * Single-precision arithmetic                                     *)
(* ================================================================== *)

Definition float : Type := spec_float.

Definition FLOAT_PREC : Z := 24.
Definition FLOAT_EMAX : Z := 128.

(** Conversion [ZyanUSize -> float] (round to nearest, ties to even). *)
Definition float_of_usize (n : Z) : float :=
  binary_normalize FLOAT_PREC FLOAT_EMAX n 0 false.

Definition float_mul (x y : float) : float := SFmul FLOAT_PREC FLOAT_EMAX x y.

Definition float_lt (x y : float) : bool := SFltb x y.

(** The float literals of the source. *)
Definition float_0_0 : float := S754_zero false.
Definition float_1_0 : float := Eval cbv in float_of_usize 1.
Definition float_2_0 : float := Eval cbv in float_of_usize 2.
Definition float_0_25 : float := S754_finite false 8388608 (-25).

(** Integral part of a float, towards zero. *)
Definition float_trunc (x : float) : option Z :=
  match x with
  | S754_zero _ => Some 0
  | S754_finite s m e =>
      let t := Z.shiftl (Zpos m) e in
      Some (if s then - t else t)
  | S754_infinity _ | S754_nan => None
  end.

(** The cast [(ZyanUSize)x]: defined only when the integral part of [x] is a
    [ZyanUSize]. *)
Definition usize_of_float (x : float) : result Z :=
  match float_trunc x with
  | Some t =>
      if (0 <=? t) && (t <? ZYAN_USIZE_MODULUS) then Ok t
      else Undefined InvalidConversion
  | None => Undefined InvalidConversion
  end.


(* ================================================================== *)
(** * The allocator and the vector                                    *)
(* ================================================================== *)

(** Modelled from the spec: [Zycore/Allocator.h] is not part of the sources.
    The spec gives the three callbacks, each taking the record size and a
    number of records and returning a status; [allocate] and [reallocate]
    write the storage pointer they are handed, so here they return its new
    value next to the status. *)
Record ZyanAllocator : Type := mkAllocator {
  allocate : Z -> Z -> ZyanStatus * option buffer;
  reallocate : option buffer -> Z -> Z -> ZyanStatus * option buffer;
  deallocate : option buffer -> Z -> Z -> ZyanStatus
}.

(** [struct ZyanVector_]. *)
Record ZyanVector : Type := mkVector {
  allocator : option ZyanAllocator;
  growth_factor : float;
  shrink_threshold : float;
  size : Z;
  capacity : Z;
  element_size : Z;
  data : option buffer
}.

Definition set_size (vector : ZyanVector) (n : Z) : ZyanVector :=
  mkVector vector.(allocator) vector.(growth_factor) vector.(shrink_threshold)
           n vector.(capacity) vector.(element_size) vector.(data).

Definition set_capacity (vector : ZyanVector) (n : Z) : ZyanVector :=
  mkVector vector.(allocator) vector.(growth_factor) vector.(shrink_threshold)
           vector.(size) n vector.(element_size) vector.(data).

Definition set_data (vector : ZyanVector) (d : option buffer) : ZyanVector :=
  mkVector vector.(allocator) vector.(growth_factor) vector.(shrink_threshold)
           vector.(size) vector.(capacity) vector.(element_size) d.

(* ------------------------------------------------------------------ *)
(** ** Internal constants and macros                                    *)
(* ------------------------------------------------------------------ *)

Definition ZYAN_VECTOR_MIN_CAPACITY : Z := 1.
Definition ZYAN_VECTOR_GROWTH_FACTOR : float := float_2_0.
Definition ZYAN_VECTOR_SHRINK_THRESHOLD : float := float_0_25.

Definition ZYAN_VECTOR_SHOULD_GROW (size' capacity' : Z) : bool :=
  capacity' <? size'.

Definition ZYAN_VECTOR_SHOULD_SHRINK (size' capacity' : Z) (threshold : float) : bool :=
  float_lt (float_of_usize size') (float_mul (float_of_usize capacity') threshold).

(** Byte offset of the element at [index] from the start of the storage. *)
Definition ZYAN_VECTOR_OFFSET (vector : ZyanVector) (index : Z) : Z :=
  usize_mul index vector.(element_size).

(** The expression [(ZyanUSize)(n * vector->growth_factor)]. *)
Definition scaled_size (vector : ZyanVector) (n : Z) : result Z :=
  usize_of_float (float_mul (float_of_usize n) vector.(growth_factor)).

(** Modelled from the spec: [ZYAN_CHECK] is a macro of [Zycore/Status.h],
    outside the sources; the spec has failures handed on verbatim.
    [ZYAN_CHECK(call); rest]: a failing status of [call] is returned at once,
    with the state [call] left behind. *)
Definition ZYAN_CHECK (call : result (ZyanStatus * ZyanVector))
    (rest : ZyanVector -> result (ZyanStatus * ZyanVector))
  : result (ZyanStatus * ZyanVector) :=
  r <- call ;;
  if ZYAN_SUCCESS (fst r) then rest (snd r) else Ok r.

(** The state behind a non-null [ZyanVector*] after a call. *)
Definition through_pointer (r : result (ZyanStatus * ZyanVector))
  : result (ZyanStatus * option ZyanVector) :=
  x <- r ;; Ok (fst x, Some (snd x)).

(* ------------------------------------------------------------------ *)
(** ** Helper functions                                                 *)
(* ------------------------------------------------------------------ *)

Definition ZyanVectorReallocate (vector : ZyanVector) (capacity' : Z)
  : result (ZyanStatus * ZyanVector) :=
  match vector.(allocator) with
  | None =>
      if vector.(capacity) <? capacity'
      then Ok (ZYAN_STATUS_INSUFFICIENT_BUFFER_SIZE, vector)
      else Ok (ZYAN_STATUS_SUCCESS, vector)
  | Some a =>
      let call (capacity' : Z) :=
        let vector := set_capacity vector capacity' in
        let '(status, p) :=
          a.(reallocate) vector.(data) vector.(element_size) vector.(capacity) in
        let vector := set_data vector p in
        if ZYAN_SUCCESS status then Ok (ZYAN_STATUS_SUCCESS, vector)
        else Ok (status, vector) in
      if capacity' <? ZYAN_VECTOR_MIN_CAPACITY then
        if ZYAN_VECTOR_MIN_CAPACITY <? vector.(capacity)
        then call ZYAN_VECTOR_MIN_CAPACITY
        else Ok (ZYAN_STATUS_SUCCESS, vector)
      else call capacity'
  end.

Definition ZyanVectorShiftLeft (vector : ZyanVector) (index count : Z)
  : result (ZyanStatus * ZyanVector) :=
  let source := ZYAN_VECTOR_OFFSET vector (usize_add index count) in
  let dest := ZYAN_VECTOR_OFFSET vector index in
  let size' := usize_mul (usize_sub vector.(size) index) vector.(element_size) in
  d <- ZYAN_MEMMOVE vector.(data) dest source size' ;;
  Ok (ZYAN_STATUS_SUCCESS, set_data vector d).

Definition ZyanVectorShiftRight (vector : ZyanVector) (index count : Z)
  : result (ZyanStatus * ZyanVector) :=
  let source := ZYAN_VECTOR_OFFSET vector index in
  let dest := ZYAN_VECTOR_OFFSET vector (usize_add index count) in
  let size' := usize_mul (usize_sub vector.(size) index) vector.(element_size) in
  d <- ZYAN_MEMMOVE vector.(data) dest source size' ;;
  Ok (ZYAN_STATUS_SUCCESS, set_data vector d).

(* ------------------------------------------------------------------ *)
(** ** Constructor and destructor                                       *)
(* ------------------------------------------------------------------ *)

Definition ZyanVectorInitEx (vector : option ZyanVector) (element_size' capacity' : Z)
    (allocator' : option ZyanAllocator) (growth_factor' shrink_threshold' : float)
  : result (ZyanStatus * option ZyanVector) :=
  match vector, allocator' with
  | Some _, Some a =>
      if (element_size' =? 0) || float_lt growth_factor' float_1_0
         || float_lt shrink_threshold' float_0_0
         || float_lt float_1_0 shrink_threshold'
      then Ok (ZYAN_STATUS_INVALID_ARGUMENT, vector)
      else
        let vector :=
          mkVector (Some a) growth_factor' shrink_threshold' 0
                   (ZYAN_MAX ZYAN_VECTOR_MIN_CAPACITY capacity') element_size' None in
        let '(status, p) :=
          a.(allocate) vector.(element_size) vector.(capacity) in
        Ok (status, Some (set_data vector p))
  | _, _ => Ok (ZYAN_STATUS_INVALID_ARGUMENT, vector)
  end.

Section DefaultAllocator.
(** [ZyanAllocatorDefault()] lives in [Allocator.c], outside the sources. *)
Variable ZyanAllocatorDefault : ZyanAllocator.

Definition ZyanVectorInit (vector : option ZyanVector) (element_size' capacity' : Z)
  : result (ZyanStatus * option ZyanVector) :=
  ZyanVectorInitEx vector element_size' capacity' (Some ZyanAllocatorDefault)
    ZYAN_VECTOR_GROWTH_FACTOR ZYAN_VECTOR_SHRINK_THRESHOLD.
End DefaultAllocator.

Definition ZyanVectorInitBuffer (vector : option ZyanVector) (element_size' : Z)
    (buffer' : option buffer) (capacity' : Z)
  : result (ZyanStatus * option ZyanVector) :=
  match vector, buffer' with
  | Some _, Some b =>
      if (element_size' =? 0) || (capacity' =? 0)
      then Ok (ZYAN_STATUS_INVALID_ARGUMENT, vector)
      else Ok (ZYAN_STATUS_SUCCESS,
               Some (mkVector None float_1_0 float_0_0 0 capacity' element_size' (Some b)))
  | _, _ => Ok (ZYAN_STATUS_INVALID_ARGUMENT, vector)
  end.

(** After a successful [deallocate] the block is gone; the model drops it. *)
Definition ZyanVectorDestroy (vector : option ZyanVector)
  : result (ZyanStatus * option ZyanVector) :=
  match vector with
  | None => Ok (ZYAN_STATUS_INVALID_ARGUMENT, vector)
  | Some v =>
      match v.(allocator) with
      | Some a =>
          if negb (v.(capacity) =? 0) then
            let status := a.(deallocate) v.(data) v.(element_size) v.(capacity) in
            if ZYAN_SUCCESS status
            then Ok (ZYAN_STATUS_SUCCESS, Some (set_data v None))
            else Ok (status, vector)
          else Ok (ZYAN_STATUS_SUCCESS, vector)
      | None => Ok (ZYAN_STATUS_SUCCESS, vector)
      end
  end.

(* ------------------------------------------------------------------ *)
(** ** Lookup                                                           *)
(* ------------------------------------------------------------------ *)

(** [element] is the variable that receives the element's address; the
    address is kept as the byte offset from the start of the storage. *)
Definition ZyanVectorGet (vector : option ZyanVector) (index : Z) (element : option Z)
  : result (ZyanStatus * option Z) :=
  match vector, element with
  | Some v, Some _ =>
      if v.(size) <=? index then Ok (ZYAN_STATUS_OUT_OF_RANGE, element)
      else Ok (ZYAN_STATUS_SUCCESS, Some (ZYAN_VECTOR_OFFSET v index))
  | _, _ => Ok (ZYAN_STATUS_INVALID_ARGUMENT, element)
  end.

Definition ZyanVectorGetConst (vector : option ZyanVector) (index : Z) (element : option Z)
  : result (ZyanStatus * option Z) :=
  match vector, element with
  | Some v, Some _ =>
      if v.(size) <=? index then Ok (ZYAN_STATUS_OUT_OF_RANGE, element)
      else Ok (ZYAN_STATUS_SUCCESS, Some (ZYAN_VECTOR_OFFSET v index))
  | _, _ => Ok (ZYAN_STATUS_INVALID_ARGUMENT, element)
  end.

(* ------------------------------------------------------------------ *)
(** ** Assignment                                                       *)
(* ------------------------------------------------------------------ *)

Definition ZyanVectorAssign (vector : option ZyanVector) (index : Z)
    (element : option buffer) : result (ZyanStatus * option ZyanVector) :=
  match vector, element with
  | Some v, Some e =>
      if v.(size) <=? index then Ok (ZYAN_STATUS_OUT_OF_RANGE, vector)
      else
        let offset := ZYAN_VECTOR_OFFSET v index in
        d <- ZYAN_MEMCPY v.(data) offset e v.(element_size) ;;
        Ok (ZYAN_STATUS_SUCCESS, Some (set_data v d))
  | _, _ => Ok (ZYAN_STATUS_INVALID_ARGUMENT, vector)
  end.

(* ------------------------------------------------------------------ *)
(** ** Insertion                                                        *)
(* ------------------------------------------------------------------ *)

Definition ZyanVectorPush (vector : option ZyanVector) (element : option buffer)
  : result (ZyanStatus * option ZyanVector) :=
  match vector, element with
  | Some v, Some e =>
      through_pointer
        (ZYAN_CHECK
           (if ZYAN_VECTOR_SHOULD_GROW (usize_add v.(size) 1) v.(capacity) then
              n <- scaled_size v (usize_add v.(size) 1) ;;
              ZyanVectorReallocate v (ZYAN_MAX 1 n)
            else Ok (ZYAN_STATUS_SUCCESS, v))
           (fun v =>
              let offset := ZYAN_VECTOR_OFFSET v v.(size) in
              d <- ZYAN_MEMCPY v.(data) offset e v.(element_size) ;;
              let v := set_data v d in
              Ok (ZYAN_STATUS_SUCCESS, set_size v (usize_add v.(size) 1))))
  | _, _ => Ok (ZYAN_STATUS_INVALID_ARGUMENT, vector)
  end.

Definition ZyanVectorInsertElements (vector : option ZyanVector) (index : Z)
    (elements : option buffer) (count : Z)
  : result (ZyanStatus * option ZyanVector) :=
  match vector, elements with
  | Some v, Some e =>
      if count =? 0 then Ok (ZYAN_STATUS_INVALID_ARGUMENT, vector)
      else if v.(size) <? index then Ok (ZYAN_STATUS_OUT_OF_RANGE, vector)
      else
        through_pointer
          (ZYAN_CHECK
             (if ZYAN_VECTOR_SHOULD_GROW (usize_add v.(size) count) v.(capacity) then
                n <- scaled_size v (usize_add v.(size) count) ;;
                ZyanVectorReallocate v (ZYAN_MAX 1 n)
              else Ok (ZYAN_STATUS_SUCCESS, v))
             (fun v =>
                ZYAN_CHECK
                  (if index <? v.(size) then ZyanVectorShiftRight v index count
                   else Ok (ZYAN_STATUS_SUCCESS, v))
                  (fun v =>
                     let offset := ZYAN_VECTOR_OFFSET v index in
                     d <- ZYAN_MEMCPY v.(data) offset e
                            (usize_mul count v.(element_size)) ;;
                     let v := set_data v d in
                     Ok (ZYAN_STATUS_SUCCESS, set_size v (usize_add v.(size) count)))))
  | _, _ => Ok (ZYAN_STATUS_INVALID_ARGUMENT, vector)
  end.

Definition ZyanVectorInsert (vector : option ZyanVector) (index : Z)
    (element : option buffer) : result (ZyanStatus * option ZyanVector) :=
  ZyanVectorInsertElements vector index element 1.

(* ------------------------------------------------------------------ *)
(** ** Deletion                                                         *)
(* ------------------------------------------------------------------ *)

Definition ZyanVectorDeleteElements (vector : option ZyanVector) (index count : Z)
  : result (ZyanStatus * option ZyanVector) :=
  match vector with
  | Some v =>
      if count =? 0 then Ok (ZYAN_STATUS_INVALID_ARGUMENT, vector)
      else if v.(size) <=? index then Ok (ZYAN_STATUS_OUT_OF_RANGE, vector)
      else
        through_pointer
          (ZYAN_CHECK
             (if index <? usize_sub v.(size) 1 then ZyanVectorShiftLeft v index count
              else Ok (ZYAN_STATUS_SUCCESS, v))
             (fun v =>
                let v := set_size v (usize_sub v.(size) count) in
                if ZYAN_VECTOR_SHOULD_SHRINK v.(size) v.(capacity) v.(shrink_threshold)
                then
                  n <- scaled_size v v.(size) ;;
                  ZyanVectorReallocate v (ZYAN_MAX 1 n)
                else Ok (ZYAN_STATUS_SUCCESS, v)))
  | None => Ok (ZYAN_STATUS_INVALID_ARGUMENT, vector)
  end.

Definition ZyanVectorDelete (vector : option ZyanVector) (index : Z)
  : result (ZyanStatus * option ZyanVector) :=
  ZyanVectorDeleteElements vector index 1.

Definition ZyanVectorPop (vector : option ZyanVector)
  : result (ZyanStatus * option ZyanVector) :=
  match vector with
  | Some v =>
      if v.(size) =? 0 then Ok (ZYAN_STATUS_OUT_OF_RANGE, vector)
      else
        through_pointer
          (let v := set_size v (usize_sub v.(size) 1) in
           if ZYAN_VECTOR_SHOULD_SHRINK v.(size) v.(capacity) v.(shrink_threshold)
           then
             n <- scaled_size v v.(size) ;;
             ZyanVectorReallocate v (ZYAN_MAX 1 n)
           else Ok (ZYAN_STATUS_SUCCESS, v))
  | None => Ok (ZYAN_STATUS_INVALID_ARGUMENT, vector)
  end.

(* ------------------------------------------------------------------ *)
(** ** Memory management                                                *)
(* ------------------------------------------------------------------ *)

Definition ZyanVectorResize (vector : option ZyanVector) (size' : Z)
  : result (ZyanStatus * option ZyanVector) :=
  match vector with
  | Some v =>
      through_pointer
        (ZYAN_CHECK
           (if ZYAN_VECTOR_SHOULD_GROW size' v.(capacity)
               || ZYAN_VECTOR_SHOULD_SHRINK size' v.(capacity) v.(shrink_threshold)
            then
              n <- scaled_size v size' ;;
              ZyanVectorReallocate v n
            else Ok (ZYAN_STATUS_SUCCESS, v))
           (fun v => Ok (ZYAN_STATUS_SUCCESS, set_size v size')))
  | None => Ok (ZYAN_STATUS_INVALID_ARGUMENT, vector)
  end.

Definition ZyanVectorClear (vector : option ZyanVector)
  : result (ZyanStatus * option ZyanVector) :=
  ZyanVectorResize vector 0.

Definition ZyanVectorReserve (vector : option ZyanVector) (capacity' : Z)
  : result (ZyanStatus * option ZyanVector) :=
  match vector with
  | Some v =>
      through_pointer
        (ZYAN_CHECK
           (if v.(capacity) <? capacity' then ZyanVectorReallocate v capacity'
            else Ok (ZYAN_STATUS_SUCCESS, v))
           (fun v => Ok (ZYAN_STATUS_SUCCESS, v)))
  | None => Ok (ZYAN_STATUS_INVALID_ARGUMENT, vector)
  end.

(** No null check: [vector->size] is read to build the argument. *)
Definition ZyanVectorShrinkToFit (vector : option ZyanVector)
  : result (ZyanStatus * option ZyanVector) :=
  match vector with
  | Some v => through_pointer (ZyanVectorReallocate v v.(size))
  | None => Undefined NullDereference
  end.

(* ------------------------------------------------------------------ *)
(** ** Information                                                      *)
(* ------------------------------------------------------------------ *)

(** [size'] is the variable written through the second argument, which the
    source does not test. *)
Definition ZyanVectorSize (vector : option ZyanVector) (size' : option Z)
  : result (ZyanStatus * option Z) :=
  match vector with
  | None => Ok (ZYAN_STATUS_INVALID_ARGUMENT, size')
  | Some v =>
      match size' with
      | None => Undefined NullDereference
      | Some _ => Ok (ZYAN_STATUS_SUCCESS, Some v.(size))
      end
  end.

Definition ZyanVectorCapacity (vector : option ZyanVector) (capacity' : option Z)
  : result (ZyanStatus * option Z) :=
  match vector with
  | None => Ok (ZYAN_STATUS_INVALID_ARGUMENT, capacity')
  | Some v =>
      match capacity' with
      | None => Undefined NullDereference
      | Some _ => Ok (ZYAN_STATUS_SUCCESS, Some v.(capacity))
      end
  end.

(* ================================================================== *)
(** * The public interface as a set of calls                          *)
(* ================================================================== *)

(** One call of a mutating function together with its other arguments. *)
Inductive operation : Type :=
| OpPush (element : option buffer)
| OpInsert (index : Z) (element : option buffer)
| OpInsertElements (index : Z) (elements : option buffer) (count : Z)
| OpDelete (index : Z)
| OpDeleteElements (index count : Z)
| OpPop
| OpClear
| OpResize (size' : Z)
| OpReserve (capacity' : Z)
| OpShrinkToFit
| OpAssign (index : Z) (element : option buffer).

Definition perform (op : operation) (vector : option ZyanVector)
  : result (ZyanStatus * option ZyanVector) :=
  match op with
  | OpPush element => ZyanVectorPush vector element
  | OpInsert index element => ZyanVectorInsert vector index element
  | OpInsertElements index elements count =>
      ZyanVectorInsertElements vector index elements count
  | OpDelete index => ZyanVectorDelete vector index
  | OpDeleteElements index count => ZyanVectorDeleteElements vector index count
  | OpPop => ZyanVectorPop vector
  | OpClear => ZyanVectorClear vector
  | OpResize size' => ZyanVectorResize vector size'
  | OpReserve capacity' => ZyanVectorReserve vector capacity'
  | OpShrinkToFit => ZyanVectorShrinkToFit vector
  | OpAssign index element => ZyanVectorAssign vector index element
  end.

(** A client that issues the calls one after the other, whatever their
    status, and keeps the statuses. *)
Fixpoint perform_all (ops : list operation) (vector : option ZyanVector)
  : result (list ZyanStatus * option ZyanVector) :=
  match ops with
  | [] => Ok ([], vector)
  | op :: ops =>
      r <- perform op vector ;;
      rs <- perform_all ops (snd r) ;;
      Ok (fst r :: fst rs, snd rs)
  end.

(* ================================================================== *)
(** * Reading a vector                                                *)
(* ================================================================== *)

(** What a client reads at [index]: the address from [ZyanVectorGetConst],
    then [element_size] bytes from it. *)
Definition read_element (vector : ZyanVector) (index : Z) : result (list byte) :=
  r <- ZyanVectorGetConst (Some vector) index (Some 0) ;;
  match r with
  | (ZYAN_STATUS_SUCCESS, Some offset) =>
      match vector.(data) with
      | None => Undefined NullDereference
      | Some b =>
          if offset + vector.(element_size) <=? buf_len b
          then Ok (buf_bytes b offset (Z.to_nat vector.(element_size)))
          else Undefined OutOfBounds
      end
  | _ => Undefined OutOfBounds
  end.

(** The elements below [size], in order. *)
Definition elements_of (vector : ZyanVector) : list (result (list byte)) :=
  map (fun i => read_element vector (Z.of_nat i)) (seq 0 (Z.to_nat vector.(size))).

(** The relation "same count, same bytes at every position below count". *)
Definition same_sequence (v w : ZyanVector) : Prop :=
  w.(size) = v.(size) /\
  forall index, 0 <= index < v.(size) ->
    exists bytes, read_element v index = Ok bytes /\ read_element w index = Ok bytes.

(** The invariant of the data model. *)
Definition vector_invariant (vector : ZyanVector) : Prop :=
  vector.(size) <= vector.(capacity) /\
  (vector.(data) <> None -> 1 <= vector.(capacity)).

(* ================================================================== *)
(** * Allocators used to run the code                                 *)
(* ================================================================== *)

(** An allocator that always succeeds: a fresh block is zero-filled, a
    resized block keeps the bytes the old and the new block share. *)
Definition heap_allocator : ZyanAllocator :=
  mkAllocator
    (fun element_size' n =>
       (ZYAN_STATUS_SUCCESS, Some (mkBuffer (n * element_size') (fun _ => x00))))
    (fun p element_size' n =>
       (ZYAN_STATUS_SUCCESS,
        Some (mkBuffer (n * element_size')
                (fun i => match p with
                          | Some b => if i <? buf_len b then buf_at b i else x00
                          | None => x00
                          end))))
    (fun _ _ _ => ZYAN_STATUS_SUCCESS).


(** What [reallocate] owes on success: a block of the requested size that
    keeps the bytes it shares with the old one. *)
Definition reallocate_keeps (a : ZyanAllocator) : Prop :=
  forall p element_size' n p',
    a.(reallocate) p element_size' n = (ZYAN_STATUS_SUCCESS, p') ->
    exists b', p' = Some b' /\ buf_len b' = n * element_size' /\
      forall b, p = Some b ->
        forall i, 0 <= i -> i < buf_len b -> i < buf_len b' ->
          buf_at b' i = buf_at b i.


(* ================================================================== *)
(** * Relations between vector states                                 *)
(* ================================================================== *)

(** Two vector states that differ at most in capacity and storage. *)
Definition same_header (v w : ZyanVector) : Prop :=
  w.(allocator) = v.(allocator) /\
  w.(growth_factor) = v.(growth_factor) /\
  w.(shrink_threshold) = v.(shrink_threshold) /\
  w.(size) = v.(size) /\
  w.(element_size) = v.(element_size).

(* ================================================================== *)
(** * The capacity chosen on growth and on shrink                     *)
(* ================================================================== *)





(** Floats that are not below zero. *)
Definition float_nonneg (x : float) : Prop :=
  match x with
  | S754_zero s | S754_infinity s | S754_finite s _ _ => s = false
  | S754_nan => True
  end.

(** A vector over a caller's buffer, as [ZyanVectorInitBuffer] sets it up. *)
Definition borrowing (v : ZyanVector) : Prop :=
  v.(allocator) = None /\
  v.(growth_factor) = float_1_0 /\
  v.(shrink_threshold) = float_0_0.

(** Two vector states that differ at most in size and stored bytes. *)
Definition same_mode (v w : ZyanVector) : Prop :=
  w.(allocator) = v.(allocator) /\
  w.(growth_factor) = v.(growth_factor) /\
  w.(shrink_threshold) = v.(shrink_threshold) /\
  w.(capacity) = v.(capacity) /\
  w.(element_size) = v.(element_size).

(** What every call keeps: the allocator, the two policy parameters and the
    element size; a capacity of at least one; and, without an allocator, the
    capacity itself. *)
Definition same_policy (v w : ZyanVector) : Prop :=
  w.(allocator) = v.(allocator) /\
  w.(growth_factor) = v.(growth_factor) /\
  w.(shrink_threshold) = v.(shrink_threshold) /\
  w.(element_size) = v.(element_size) /\
  (1 <= v.(capacity) -> 1 <= w.(capacity)) /\
  (v.(allocator) = None -> w.(capacity) = v.(capacity)).

(* ================================================================== *)
(** * Vectors in a consistent state                                   *)
(* ================================================================== *)

(** A growth factor that scales every size below [limit] without loss: the
    cast of the product is defined and is not below the size. *)
Definition scales_up (growth_factor' : float) (limit : Z) : Prop :=
  forall n, 0 <= n < limit ->
    exists m, usize_of_float (float_mul (float_of_usize n) growth_factor') = Ok m /\ n <= m.

(** A vector whose header agrees with its storage [b]: a positive element
    size, a size within the capacity, a capacity of one or more, and a
    storage that holds the capacity. *)
Definition consistent (v : ZyanVector) (b : buffer) : Prop :=
  v.(data) = Some b /\
  0 < v.(element_size) /\
  0 <= v.(size) <= v.(capacity) /\
  1 <= v.(capacity) /\
  v.(capacity) * v.(element_size) <= buf_len b.

(** The [k]-th record of [element_size'] bytes in a caller's block. *)
Definition source_element (element_size' : Z) (e : buffer) (k : Z) : list byte :=
  buf_bytes e (k * element_size') (Z.to_nat element_size').

(** What [allocate] owes on success: a block of the requested size. *)
Definition allocate_gives (a : ZyanAllocator) : Prop :=
  forall element_size' n p,
    a.(allocate) element_size' n = (ZYAN_STATUS_SUCCESS, p) ->
    exists b, p = Some b /\ buf_len b = n * element_size'.

(** A vector whose allocator never refuses a reallocation. *)
Definition grows_freely (v : ZyanVector) : Prop :=
  exists a, v.(allocator) = Some a /\
    forall p element_size' n, fst (a.(reallocate) p element_size' n) = ZYAN_STATUS_SUCCESS.



(* ================================================================== *)
(** * The vector used as a stack                                      *)
(* ================================================================== *)

(** The two calls of a client that uses the vector as a stack. *)
Inductive stack_call : Type :=
| StackPush (element : buffer)
| StackPop.

Definition operation_of_stack_call (c : stack_call) : operation :=
  match c with
  | StackPush element => OpPush (Some element)
  | StackPop => OpPop
  end.

(** A stack of elements as a list, the top last: what the calls are expected
    to answer and to leave.  A pop of the empty stack is refused. *)
Fixpoint stack_model (element_size' : Z) (calls : list stack_call)
    (stack : list (list byte)) : list ZyanStatus * list (list byte) :=
  match calls with
  | [] => ([], stack)
  | StackPush element :: calls =>
      let r := stack_model element_size' calls
                 (stack ++ [source_element element_size' element 0]) in
      (ZYAN_STATUS_SUCCESS :: fst r, snd r)
  | StackPop :: calls =>
      match stack with
      | [] =>
          let r := stack_model element_size' calls stack in
          (ZYAN_STATUS_OUT_OF_RANGE :: fst r, snd r)
      | _ :: _ =>
          let r := stack_model element_size' calls (removelast stack) in
          (ZYAN_STATUS_SUCCESS :: fst r, snd r)
      end
  end.

(** The blocks a sequence of stack calls pushes all hold [n] bytes. *)
Definition pushes_hold (n : Z) (calls : list stack_call) : Prop :=
  Forall (fun c => match c with
                   | StackPush element => n <= buf_len element
                   | StackPop => True
                   end) calls.

(* ================================================================== *)
(** * States used to run the code                                     *)
(* ================================================================== *)

(** A storage of four one-byte slots and a caller's block of two bytes. *)
Definition sample_storage : buffer := buffer_of_list ["A"; "B"; "C"; "D"]%byte.
Definition sample_block : buffer := buffer_of_list ["x"; "y"]%byte.

(** Three elements in four slots: with the allocator and the defaults of
    [ZyanVectorInit], and over a caller's buffer as [ZyanVectorInitBuffer]
    sets it up. *)
Definition sample_owned : ZyanVector :=
  mkVector (Some heap_allocator) ZYAN_VECTOR_GROWTH_FACTOR ZYAN_VECTOR_SHRINK_THRESHOLD
           3 4 1 (Some sample_storage).

Definition sample_borrowed : ZyanVector :=
  mkVector None float_1_0 float_0_0 3 4 1 (Some sample_storage).

(* ================================================================== *)
(** * Basic facts                                                     *)
(* ================================================================== *)

(** The wrap-around and the float operations are left folded by [simpl]. *)
Arguments usize : simpl never.
Arguments usize_add : simpl never.
Arguments usize_sub : simpl never.
Arguments usize_mul : simpl never.
Arguments ZYAN_USIZE_MODULUS : simpl never.
Arguments float_of_usize : simpl never.
Arguments float_mul : simpl never.
Arguments float_lt : simpl never.
Arguments scaled_size : simpl never.
Arguments ZYAN_VECTOR_SHOULD_SHRINK : simpl never.
Arguments ZYAN_VECTOR_OFFSET : simpl never.
Arguments ZYAN_MEMMOVE : simpl never.
Arguments ZYAN_MEMCPY : simpl never.
Arguments ZyanVectorReallocate : simpl never.

Lemma ZYAN_USIZE_MODULUS_value : ZYAN_USIZE_MODULUS = 18446744073709551616.
Proof. reflexivity. Qed.

Lemma usize_small (z : Z) : in_usize z -> usize z = z.
Proof. intros H. unfold usize. apply Z.mod_small. exact H. Qed.


Lemma ZYAN_MAX_is_max (a b : Z) : ZYAN_MAX a b = Z.max a b.
Proof. unfold ZYAN_MAX. destruct (Z.ltb_spec b a); lia. Qed.


Lemma through_pointer_inv (c : result (ZyanStatus * ZyanVector))
    (status : ZyanStatus) (after : option ZyanVector) :
  through_pointer c = Ok (status, after) ->
  exists v', c = Ok (status, v') /\ after = Some v'.
Proof.
  unfold through_pointer. destruct c as [[st w] | f]; [| discriminate].
  cbn [bind fst snd]. intros [= <- <-]. eauto.
Qed.


(* ================================================================== *)
(** * Memory moves                                                    *)
(* ================================================================== *)

Lemma ZYAN_MEMMOVE_out_of_bounds (b : buffer) (dst src n : Z) :
  buf_len b < src + n ->
  ZYAN_MEMMOVE (Some b) dst src n = Undefined OutOfBounds.
Proof.
  intros H. unfold ZYAN_MEMMOVE.
  replace (src + n <=? buf_len b) with false by (symmetry; apply Z.leb_gt; exact H).
  rewrite andb_false_r. reflexivity.
Qed.

Lemma ZYAN_MEMMOVE_in_bounds (b : buffer) (dst src n : Z) :
  dst + n <= buf_len b -> src + n <= buf_len b ->
  ZYAN_MEMMOVE (Some b) dst src n
  = Ok (Some (mkBuffer (buf_len b)
                (fun i => if (dst <=? i) && (i <? dst + n)
                          then buf_at b (i - dst + src)
                          else buf_at b i))).
Proof.
  intros H1 H2. unfold ZYAN_MEMMOVE.
  replace (dst + n <=? buf_len b) with true by (symmetry; apply Z.leb_le; exact H1).
  replace (src + n <=? buf_len b) with true by (symmetry; apply Z.leb_le; exact H2).
  reflexivity.
Qed.

Lemma ZYAN_MEMMOVE_inv (p d : option buffer) (dst src n : Z) :
  ZYAN_MEMMOVE p dst src n = Ok d ->
  exists b, p = Some b /\ dst + n <= buf_len b /\ src + n <= buf_len b /\
    d = Some (mkBuffer (buf_len b)
                (fun i => if (dst <=? i) && (i <? dst + n)
                          then buf_at b (i - dst + src) else buf_at b i)).
Proof.
  unfold ZYAN_MEMMOVE. destruct p as [b |]; [| discriminate].
  destruct (Z.leb_spec (dst + n) (buf_len b)); [| discriminate].
  destruct (Z.leb_spec (src + n) (buf_len b)); [| discriminate].
  cbn [andb]. intros [= <-]. eauto.
Qed.

Lemma ZYAN_MEMCPY_in_bounds (b : buffer) (dst : Z) (source : buffer) (n : Z) :
  dst + n <= buf_len b -> n <= buf_len source ->
  ZYAN_MEMCPY (Some b) dst source n
  = Ok (Some (mkBuffer (buf_len b)
                (fun i => if (dst <=? i) && (i <? dst + n)
                          then buf_at source (i - dst)
                          else buf_at b i))).
Proof.
  intros H1 H2. unfold ZYAN_MEMCPY.
  replace (dst + n <=? buf_len b) with true by (symmetry; apply Z.leb_le; exact H1).
  replace (n <=? buf_len source) with true by (symmetry; apply Z.leb_le; exact H2).
  reflexivity.
Qed.

Lemma ZYAN_MEMCPY_inv (p d : option buffer) (dst : Z) (source : buffer) (n : Z) :
  ZYAN_MEMCPY p dst source n = Ok d ->
  exists b, p = Some b /\ dst + n <= buf_len b /\ n <= buf_len source /\
    d = Some (mkBuffer (buf_len b)
                (fun i => if (dst <=? i) && (i <? dst + n)
                          then buf_at source (i - dst) else buf_at b i)).
Proof.
  unfold ZYAN_MEMCPY. destruct p as [b |]; [| discriminate].
  destruct (Z.leb_spec (dst + n) (buf_len b)); [| discriminate].
  destruct (Z.leb_spec n (buf_len source)); [| discriminate].
  cbn [andb]. intros [= <-]. eauto.
Qed.

Lemma buf_bytes_ext (b b' : buffer) (off : Z) (n : nat) :
  (forall i, off <= i < off + Z.of_nat n -> buf_at b' i = buf_at b i) ->
  buf_bytes b' off n = buf_bytes b off n.
Proof.
  intros H. unfold buf_bytes. apply map_ext_in. intros i Hi.
  apply in_seq in Hi. apply H. lia.
Qed.

(** The three quantities of [ZyanVectorShiftLeft] and [ZyanVectorShiftRight]
    when nothing wraps. *)
Lemma shift_quantities (v : ZyanVector) (index count : Z) :
  0 < v.(element_size) -> 0 <= index <= v.(size) -> 0 <= count ->
  (v.(size) + count) * v.(element_size) < ZYAN_USIZE_MODULUS ->
  ZYAN_VECTOR_OFFSET v (usize_add index count) = (index + count) * v.(element_size) /\
  ZYAN_VECTOR_OFFSET v index = index * v.(element_size) /\
  usize_mul (usize_sub v.(size) index) v.(element_size)
  = (v.(size) - index) * v.(element_size).
Proof.
  intros Hes Hidx Hcount Hfit.
  unfold ZYAN_VECTOR_OFFSET, usize_add, usize_sub, usize_mul.
  assert (Hsc : v.(size) + count < ZYAN_USIZE_MODULUS) by nia.
  rewrite (usize_small (index + count)) by (unfold in_usize; lia).
  rewrite (usize_small (v.(size) - index)) by (unfold in_usize; lia).
  rewrite !usize_small; [auto | unfold in_usize; nia ..].
Qed.

Lemma read_element_in_storage (v : ZyanVector) (b : buffer) (index : Z) :
  v.(data) = Some b -> 0 < v.(element_size) ->
  0 <= index < v.(size) ->
  v.(size) * v.(element_size) <= buf_len b ->
  v.(size) * v.(element_size) < ZYAN_USIZE_MODULUS ->
  read_element v index
  = Ok (buf_bytes b (index * v.(element_size)) (Z.to_nat v.(element_size))).
Proof.
  intros Hdata Hes Hindex Hfits Hwrap.
  unfold read_element, ZyanVectorGetConst.
  replace (size v <=? index) with false by (symmetry; apply Z.leb_gt; lia).
  cbn [bind]. cbv beta iota. rewrite Hdata.
  unfold ZYAN_VECTOR_OFFSET, usize_mul.
  rewrite usize_small by (unfold in_usize; nia).
  replace (index * element_size v + element_size v <=? buf_len b) with true
    by (symmetry; apply Z.leb_le; nia).
  reflexivity.
Qed.

(** The same bytes below [size * element_size] read as the same elements. *)
Lemma same_sequence_of_bytes (v w : ZyanVector) (b b' : buffer) :
  v.(data) = Some b -> w.(data) = Some b' ->
  w.(size) = v.(size) -> w.(element_size) = v.(element_size) ->
  0 < v.(element_size) ->
  v.(size) * v.(element_size) <= buf_len b ->
  v.(size) * v.(element_size) <= buf_len b' ->
  v.(size) * v.(element_size) < ZYAN_USIZE_MODULUS ->
  (forall i, 0 <= i < v.(size) * v.(element_size) -> buf_at b' i = buf_at b i) ->
  same_sequence v w.
Proof.
  intros Hdv Hdw Hsize Hes Hpos Hb Hb' Hwrap Hbytes.
  split; [exact Hsize |]. intros index Hindex.
  exists (buf_bytes b (index * v.(element_size)) (Z.to_nat v.(element_size))).
  split; [apply read_element_in_storage; assumption |].
  rewrite (read_element_in_storage w b' index) by (rewrite ?Hsize, ?Hes; assumption).
  rewrite Hes. f_equal. apply buf_bytes_ext.
  intros i Hi. rewrite Z2Nat.id in Hi by lia. apply Hbytes. nia.
Qed.

(* ================================================================== *)
(** * Single precision                                                *)
(* ================================================================== *)

Lemma binary_round_aux_nonneg (mx ex : Z) (lx : location) :
  float_nonneg (binary_round_aux FLOAT_PREC FLOAT_EMAX false mx ex lx).
Proof.
  unfold binary_round_aux.
  destruct (shr_fexp _ _ _ _ _) as [mrs' e'].
  destruct (shr_fexp _ _ _ _ _) as [mrs'' e''].
  destruct (shr_m mrs''); [reflexivity | | exact I].
  destruct (Z.leb _ _); reflexivity.
Qed.

Lemma float_of_usize_nonneg (n : Z) : 0 <= n -> float_nonneg (float_of_usize n).
Proof.
  intros Hn. unfold float_of_usize, binary_normalize.
  destruct n as [| p | p]; [reflexivity | | lia].
  unfold binary_round. destruct (shl_align _ _ _) as [mz ez].
  apply binary_round_aux_nonneg.
Qed.

(** A shrink threshold of 0.0 disables shrinking. *)
Lemma should_shrink_disabled (n c : Z) :
  0 <= n -> ZYAN_VECTOR_SHOULD_SHRINK n c float_0_0 = false.
Proof.
  intros Hn. unfold ZYAN_VECTOR_SHOULD_SHRINK, float_lt, float_mul, float_0_0.
  pose proof (float_of_usize_nonneg n Hn) as Hs.
  destruct (float_of_usize n) as [s | s | | s m e]; cbn [float_nonneg] in Hs;
    try subst s; destruct (float_of_usize c) as [s' | s' | | s' m' e'];
    reflexivity.
Qed.



Lemma digits2_pos_shifted (p k : positive) :
  digits2_pos (Pos.iter xO p k) = (digits2_pos p + k)%positive.
Proof.
  induction k as [| k IH] using Pos.peano_ind.
  - cbn. rewrite Pos.add_1_r. reflexivity.
  - rewrite Pos.iter_succ. cbn [digits2_pos]. rewrite IH.
    rewrite Pos.add_succ_r. reflexivity.
Qed.

Lemma Zpos_shifted (p k : positive) :
  Z.pos (Pos.iter xO p k) = Z.pos p * 2 ^ Z.pos k.
Proof.
  induction k as [| k IH] using Pos.peano_ind.
  - cbn [Pos.iter]. rewrite (Pos2Z.inj_xO p). change (2 ^ 1) with 2. lia.
  - rewrite Pos.iter_succ, (Pos2Z.inj_xO (Pos.iter xO p k)), IH, Pos2Z.inj_succ,
      Z.pow_succ_r by lia. lia.
Qed.

(** A mantissa of 24 digits with an exponent in range is its own rounding. *)
Lemma binary_round_aux_canonical (s : bool) (m : positive) (e : Z) :
  Z.pos (digits2_pos m) = 24 -> -149 <= e <= 104 ->
  binary_round_aux FLOAT_PREC FLOAT_EMAX s (Z.pos m) e loc_Exact = S754_finite s m e.
Proof.
  intros Hd He. unfold binary_round_aux, shr_fexp.
  cbn [Zdigits2 shr_record_of_loc]. rewrite Hd.
  replace (fexp FLOAT_PREC FLOAT_EMAX (24 + e) - e) with 0
    by (unfold fexp, emin, FLOAT_PREC, FLOAT_EMAX; lia).
  cbn [shr shr_m loc_of_shr_record round_nearest_even Zdigits2 shr_record_of_loc].
  rewrite Hd.
  replace (fexp FLOAT_PREC FLOAT_EMAX (24 + e) - e) with 0
    by (unfold fexp, emin, FLOAT_PREC, FLOAT_EMAX; lia).
  cbn [shr shr_m].
  replace (e <=? FLOAT_EMAX - FLOAT_PREC) with true
    by (symmetry; apply Z.leb_le; unfold FLOAT_PREC, FLOAT_EMAX; lia).
  reflexivity.
Qed.

(** The float of an integer below 2^24: the integer shifted up to 24 digits,
    with the matching negative exponent. *)
Lemma float_of_usize_small (n : Z) :
  0 < n < 2 ^ 24 ->
  exists m e,
    float_of_usize n = S754_finite false m e /\
    Z.pos (digits2_pos m) = 24 /\ -23 <= e <= 0 /\
    Z.pos m = n * 2 ^ (- e).
Proof.
  intros Hn. destruct n as [| p | p]; try lia.
  assert (Hd : Z.pos (digits2_pos p) <= 24).
  { destruct (Z.le_gt_cases (Z.pos (digits2_pos p)) 24) as [H | H]; [exact H |].
    exfalso.
    assert (Hlow : 2 ^ (Z.pos (digits2_pos p) - 1) <= Z.pos p).
    { clear. induction p as [p IH | p IH |].
      - cbn [digits2_pos]. rewrite Pos2Z.inj_succ, (Pos2Z.inj_xI p).
        replace (Z.succ (Z.pos (digits2_pos p)) - 1)
          with (Z.succ (Z.pos (digits2_pos p) - 1)) by lia.
        rewrite Z.pow_succ_r by lia. lia.
      - cbn [digits2_pos]. rewrite Pos2Z.inj_succ, (Pos2Z.inj_xO p).
        replace (Z.succ (Z.pos (digits2_pos p)) - 1)
          with (Z.succ (Z.pos (digits2_pos p) - 1)) by lia.
        rewrite Z.pow_succ_r by lia. lia.
      - reflexivity. }
    assert (2 ^ 24 <= 2 ^ (Z.pos (digits2_pos p) - 1))
      by (apply Z.pow_le_mono_r; lia).
    lia. }
  unfold float_of_usize, binary_normalize, binary_round, shl_align.
  replace (fexp FLOAT_PREC FLOAT_EMAX (Z.pos (digits2_pos p) + 0))
    with (Z.pos (digits2_pos p) - 24)
    by (unfold fexp, emin, FLOAT_PREC, FLOAT_EMAX; lia).
  destruct (Z.pos (digits2_pos p) - 24 - 0) as [| k | k] eqn:Hk; try lia.
  - exists p, 0. split; [apply binary_round_aux_canonical; lia |].
    split; [lia |]. split; [lia |]. change (2 ^ (- 0)) with 1. lia.
  - exists (Pos.iter xO p k), (Z.pos (digits2_pos p) - 24).
    assert (Hdk : Z.pos (digits2_pos (Pos.iter xO p k)) = 24).
    { rewrite digits2_pos_shifted, Pos2Z.inj_add. lia. }
    split; [apply binary_round_aux_canonical; [exact Hdk | lia] |].
    split; [exact Hdk |]. split; [lia |].
    rewrite Zpos_shifted. f_equal. f_equal. lia.
Qed.

(** Multiplying such a float by 1.0 gives it back. *)
Lemma float_mul_1_0 (m : positive) (e : Z) :
  Z.pos (digits2_pos m) = 24 -> -23 <= e <= 0 ->
  float_mul (S754_finite false m e) float_1_0 = S754_finite false m e.
Proof.
  intros Hd He. unfold float_mul, float_1_0, SFmul. cbn [xorb].
  rewrite Pos.mul_comm.
  unfold binary_round_aux, shr_fexp.
  cbn [Pos.mul Zdigits2 digits2_pos shr_record_of_loc].
  replace (Z.pos (Pos.succ (Pos.succ (Pos.succ (Pos.succ (Pos.succ (Pos.succ (Pos.succ
            (Pos.succ (Pos.succ (Pos.succ (Pos.succ (Pos.succ (Pos.succ (Pos.succ (Pos.succ
            (Pos.succ (Pos.succ (Pos.succ (Pos.succ (Pos.succ (Pos.succ (Pos.succ (Pos.succ
            (digits2_pos m)))))))))))))))))))))))))
    with 47 by (rewrite !Pos2Z.inj_succ; lia).
  replace (fexp FLOAT_PREC FLOAT_EMAX (47 + (e + -23)) - (e + -23)) with 23
    by (unfold fexp, emin, FLOAT_PREC, FLOAT_EMAX; lia).
  cbn [shr SpecFloat.iter_pos shr_1 orb shr_m loc_of_shr_record round_nearest_even
       Zdigits2 shr_record_of_loc].
  rewrite Hd.
  replace (fexp FLOAT_PREC FLOAT_EMAX (24 + (e + -23 + 23)) - (e + -23 + 23)) with 0
    by (unfold fexp, emin, FLOAT_PREC, FLOAT_EMAX; lia).
  cbn [shr shr_m].
  replace (e + -23 + 23) with e by lia.
  replace (e <=? FLOAT_EMAX - FLOAT_PREC) with true
    by (symmetry; apply Z.leb_le; unfold FLOAT_PREC, FLOAT_EMAX; lia).
  reflexivity.
Qed.

(** With growth factor 1.0 a size below 2^24 is scaled to itself. *)
Lemma scaled_size_1_0 (v : ZyanVector) (n : Z) :
  v.(growth_factor) = float_1_0 -> 0 <= n < 2 ^ 24 -> scaled_size v n = Ok n.
Proof.
  intros Hgf Hn. unfold scaled_size. rewrite Hgf.
  destruct (Z.eq_dec n 0) as [-> | Hn0]; [reflexivity |].
  destruct (float_of_usize_small n) as (m & e & -> & Hd & He & Hm); [lia |].
  rewrite float_mul_1_0 by assumption.
  unfold usize_of_float, float_trunc.
  assert (Hshift : Z.shiftl (Z.pos m) e = n).
  { rewrite Z.shiftl_div_pow2 by lia. rewrite Hm.
    apply Z.div_mul. apply Z.pow_nonzero; lia. }
  rewrite Hshift.
  replace (0 <=? n) with true by (symmetry; apply Z.leb_le; lia).
  replace (n <? ZYAN_USIZE_MODULUS) with true
    by (symmetry; apply Z.ltb_lt; rewrite ZYAN_USIZE_MODULUS_value; lia).
  reflexivity.
Qed.

(* ================================================================== *)
(** * Reallocation                                                    *)
(* ================================================================== *)

Lemma ZyanVectorReallocate_returns (v : ZyanVector) (capacity' : Z) :
  exists status v',
    ZyanVectorReallocate v capacity' = Ok (status, v') /\ same_header v v'.
Proof.
  unfold ZyanVectorReallocate, same_header.
  destruct (allocator v) as [a |] eqn:Ha.
  - assert (Hcall : forall c,
      exists status v',
        (let vector := set_capacity v c in
         let '(status, p) :=
           a.(reallocate) vector.(data) vector.(element_size) vector.(capacity) in
         let vector := set_data vector p in
         if ZYAN_SUCCESS status then Ok (ZYAN_STATUS_SUCCESS, vector)
         else Ok (status, vector)) = Ok (status, v') /\
        allocator v' = Some a /\ growth_factor v' = growth_factor v /\
        shrink_threshold v' = shrink_threshold v /\ size v' = size v /\
        element_size v' = element_size v).
    { intros c. cbv zeta.
      destruct (reallocate a _ _ _) as [status p].
      destruct (ZYAN_SUCCESS status); eexists; eexists; (split; [reflexivity |]);
        simpl; rewrite Ha; auto. }
    destruct (capacity' <? ZYAN_VECTOR_MIN_CAPACITY).
    + destruct (ZYAN_VECTOR_MIN_CAPACITY <? capacity v).
      * apply Hcall.
      * eexists; eexists; split; [reflexivity |]. auto.
    + apply Hcall.
  - destruct (capacity v <? capacity'); eexists; eexists; (split; [reflexivity |]); auto.
Qed.

Lemma ZyanVectorReallocate_size (v v' : ZyanVector) (capacity' : Z) (status : ZyanStatus) :
  ZyanVectorReallocate v capacity' = Ok (status, v') -> v'.(size) = v.(size).
Proof.
  intros H. destruct (ZyanVectorReallocate_returns v capacity') as (st & w & Hw & Hh).
  rewrite Hw in H. injection H as _ <-. apply Hh.
Qed.

(** A successful [reallocate] of an owning vector, seen from
    [ZyanVectorReallocate]. *)
Lemma ZyanVectorReallocate_owning_success
    (v : ZyanVector) (a : ZyanAllocator) (capacity' : Z) (p : option buffer) :
  v.(allocator) = Some a ->
  1 <= capacity' ->
  a.(reallocate) v.(data) v.(element_size) capacity' = (ZYAN_STATUS_SUCCESS, p) ->
  ZyanVectorReallocate v capacity'
  = Ok (ZYAN_STATUS_SUCCESS, set_data (set_capacity v capacity') p).
Proof.
  intros Ha Hcap Hre. unfold ZyanVectorReallocate. rewrite Ha.
  replace (capacity' <? ZYAN_VECTOR_MIN_CAPACITY) with false
    by (symmetry; apply Z.ltb_ge; unfold ZYAN_VECTOR_MIN_CAPACITY; lia).
  cbn [set_capacity data element_size capacity]. rewrite Hre. reflexivity.
Qed.


Lemma ZyanVectorReallocate_borrowing (v : ZyanVector) (capacity' : Z) :
  v.(allocator) = None ->
  ZyanVectorReallocate v capacity'
  = Ok (if v.(capacity) <? capacity' then ZYAN_STATUS_INSUFFICIENT_BUFFER_SIZE
        else ZYAN_STATUS_SUCCESS, v).
Proof.
  intros Ha. unfold ZyanVectorReallocate. rewrite Ha.
  destruct (capacity v <? capacity'); reflexivity.
Qed.


(** What a successful [ZyanVectorReallocate] does to a storage that holds
    the capacity: the header stays, the new storage holds the new capacity and
    keeps the bytes it shares with the old one. *)
Lemma ZyanVectorReallocate_success_storage
    (v w : ZyanVector) (capacity' : Z) (b : buffer) :
  (forall a, v.(allocator) = Some a -> reallocate_keeps a) ->
  v.(data) = Some b ->
  v.(capacity) * v.(element_size) <= buf_len b ->
  ZyanVectorReallocate v capacity' = Ok (ZYAN_STATUS_SUCCESS, w) ->
  same_header v w /\
  exists b', w.(data) = Some b' /\
    w.(capacity) * w.(element_size) <= buf_len b' /\
    forall i, 0 <= i -> i < buf_len b -> i < buf_len b' -> buf_at b' i = buf_at b i.
Proof.
  intros Hkeeps Hdata Hfits Hre.
  assert (Hsame : same_header v v /\
    exists b', v.(data) = Some b' /\
      v.(capacity) * v.(element_size) <= buf_len b' /\
      forall i, 0 <= i -> i < buf_len b -> i < buf_len b' -> buf_at b' i = buf_at b i).
  { split; [unfold same_header; auto |]. exists b. auto. }
  unfold ZyanVectorReallocate in Hre.
  destruct (allocator v) as [a |] eqn:Ha.
  - assert (Hcall : forall c,
      (let vector := set_capacity v c in
       let '(status, p) :=
         a.(reallocate) vector.(data) vector.(element_size) vector.(capacity) in
       let vector := set_data vector p in
       if ZYAN_SUCCESS status then Ok (ZYAN_STATUS_SUCCESS, vector)
       else Ok (status, vector)) = Ok (ZYAN_STATUS_SUCCESS, w) ->
      same_header v w /\
      exists b', w.(data) = Some b' /\
        w.(capacity) * w.(element_size) <= buf_len b' /\
        forall i, 0 <= i -> i < buf_len b -> i < buf_len b' -> buf_at b' i = buf_at b i).
    { intros c. cbv zeta. cbn [set_capacity data element_size capacity].
      destruct (reallocate a (data v) (element_size v) c) as [st p] eqn:Hp.
      destruct st; cbn [ZYAN_SUCCESS]; try discriminate.
      intros [= <-].
      destruct (Hkeeps a eq_refl _ _ _ _ Hp) as (b' & -> & Hlen & Hpre).
      split; [unfold same_header; cbn; rewrite Ha; auto |].
      exists b'. cbn [data capacity element_size set_data set_capacity].
      split; [reflexivity |]. split; [lia |].
      intros i. apply (Hpre b Hdata). }
    destruct (capacity' <? ZYAN_VECTOR_MIN_CAPACITY).
    + destruct (ZYAN_VECTOR_MIN_CAPACITY <? capacity v).
      * exact (Hcall _ Hre).
      * injection Hre as <-. exact Hsame.
    + exact (Hcall _ Hre).
  - destruct (capacity v <? capacity'); [discriminate |].
    injection Hre as <-. exact Hsame.
Qed.

Lemma heap_allocator_keeps : reallocate_keeps heap_allocator.
Proof.
  intros p es n p' H. injection H as <-.
  eexists. split; [reflexivity |]. split; [reflexivity |].
  intros b -> i _ Hi _. cbn [buf_at].
  replace (i <? buf_len b) with true by (symmetry; apply Z.ltb_lt; exact Hi).
  reflexivity.
Qed.

(* ================================================================== *)
(** * What every call keeps                                           *)
(* ================================================================== *)

Lemma same_mode_refl (v : ZyanVector) : same_mode v v.
Proof. unfold same_mode. auto. Qed.

(** Closes [same_mode v w] when [w] is [v] with size or storage replaced. *)
Ltac same_mode_by_fields :=
  unfold same_mode;
  cbn [snd allocator growth_factor shrink_threshold capacity element_size
       set_size set_data];
  auto.

Lemma same_mode_policy (v w : ZyanVector) : same_mode v w -> same_policy v w.
Proof.
  intros (Ha & Hg & Ht & Hc & He). unfold same_policy.
  rewrite Ha, Hg, Ht, Hc, He. auto 10.
Qed.

Lemma same_policy_trans (u v w : ZyanVector) :
  same_policy u v -> same_policy v w -> same_policy u w.
Proof.
  intros (Ha & Hg & Ht & He & Hf & Hn) (Ha' & Hg' & Ht' & He' & Hf' & Hn').
  unfold same_policy. rewrite Ha', Hg', Ht', He'.
  repeat split; auto. intros Hnone. rewrite Hn' by congruence. auto.
Qed.

Lemma ZyanVectorReallocate_policy (v : ZyanVector) (capacity' : Z)
    (r : ZyanStatus * ZyanVector) :
  ZyanVectorReallocate v capacity' = Ok r -> same_policy v (snd r).
Proof.
  unfold ZyanVectorReallocate.
  destruct (allocator v) as [a |] eqn:Ha.
  - assert (Hcall : forall c, 1 <= c ->
      (let vector := set_capacity v c in
       let '(status, p) :=
         a.(reallocate) vector.(data) vector.(element_size) vector.(capacity) in
       let vector := set_data vector p in
       if ZYAN_SUCCESS status then Ok (ZYAN_STATUS_SUCCESS, vector)
       else Ok (status, vector)) = Ok r -> same_policy v (snd r)).
    { intros c Hc. cbv zeta. destruct (reallocate a _ _ _) as [st p].
      destruct (ZYAN_SUCCESS st); intros [= <-]; unfold same_policy; cbn;
        rewrite Ha; repeat split; auto; discriminate. }
    destruct (Z.ltb_spec capacity' ZYAN_VECTOR_MIN_CAPACITY).
    + destruct (ZYAN_VECTOR_MIN_CAPACITY <? capacity v).
      * apply Hcall. unfold ZYAN_VECTOR_MIN_CAPACITY. lia.
      * intros [= <-]. apply same_mode_policy, same_mode_refl.
    + apply Hcall. unfold ZYAN_VECTOR_MIN_CAPACITY in *. lia.
  - destruct (capacity v <? capacity'); intros [= <-];
      apply same_mode_policy, same_mode_refl.
Qed.

Lemma guarded_reallocation_policy (v : ZyanVector) (guard : bool)
    (request : result Z) (f : Z -> Z) (r : ZyanStatus * ZyanVector) :
  (if guard then n <- request ;; ZyanVectorReallocate v (f n)
   else Ok (ZYAN_STATUS_SUCCESS, v)) = Ok r ->
  same_policy v (snd r).
Proof.
  destruct guard.
  - destruct request as [n |]; [| discriminate]. cbn [bind].
    apply ZyanVectorReallocate_policy.
  - intros [= <-]. apply same_mode_policy, same_mode_refl.
Qed.

Lemma insert_tail_same_mode (index count : Z) (e : buffer)
    (w : ZyanVector) (r : ZyanStatus * ZyanVector) :
  ZYAN_CHECK
    (if index <? w.(size) then ZyanVectorShiftRight w index count
     else Ok (ZYAN_STATUS_SUCCESS, w))
    (fun v =>
       let offset := ZYAN_VECTOR_OFFSET v index in
       d <- ZYAN_MEMCPY v.(data) offset e (usize_mul count v.(element_size)) ;;
       let v := set_data v d in
       Ok (ZYAN_STATUS_SUCCESS, set_size v (usize_add v.(size) count))) = Ok r ->
  same_mode w (snd r).
Proof.
  unfold ZYAN_CHECK, ZyanVectorShiftRight. intros Hrun.
  destruct (index <? size w).
  - destruct (ZYAN_MEMMOVE _ _ _ _); [| discriminate].
    cbn [bind fst snd ZYAN_SUCCESS] in Hrun.
    destruct (ZYAN_MEMCPY _ _ _ _); [| discriminate].
    cbn [bind] in Hrun. injection Hrun as <-. same_mode_by_fields.
  - cbn [bind fst snd ZYAN_SUCCESS] in Hrun.
    destruct (ZYAN_MEMCPY _ _ _ _); [| discriminate].
    cbn [bind] in Hrun. injection Hrun as <-. same_mode_by_fields.
Qed.

Lemma insert_elements_policy (v : ZyanVector) (index : Z) (elements : option buffer)
    (count : Z) (status : ZyanStatus) (after : option ZyanVector) :
  ZyanVectorInsertElements (Some v) index elements count = Ok (status, after) ->
  exists v', after = Some v' /\ same_policy v v'.
Proof.
  intros Hrun. unfold ZyanVectorInsertElements in Hrun.
  assert (Hsame : exists v', Some v = Some v' /\ same_policy v v')
    by (exists v; split; [reflexivity | apply same_mode_policy, same_mode_refl]).
  destruct elements as [e |]; [| injection Hrun as _ <-; exact Hsame].
  destruct (count =? 0); [injection Hrun as _ <-; exact Hsame |].
  destruct (size v <? index); [injection Hrun as _ <-; exact Hsame |].
  apply through_pointer_inv in Hrun. destruct Hrun as (v' & Hrun & ->).
  exists v'. split; [reflexivity |]. unfold ZYAN_CHECK at 1 in Hrun.
  match type of Hrun with
  | bind ?c _ = _ => destruct c as [[st w] |] eqn:Hr; [| discriminate]
  end.
  apply guarded_reallocation_policy in Hr. cbn [bind fst snd] in Hr, Hrun.
  destruct (ZYAN_SUCCESS st).
  - apply insert_tail_same_mode in Hrun.
    exact (same_policy_trans _ _ _ Hr (same_mode_policy _ _ Hrun)).
  - injection Hrun as _ <-. exact Hr.
Qed.

Lemma delete_elements_policy (v : ZyanVector) (index count : Z)
    (status : ZyanStatus) (after : option ZyanVector) :
  ZyanVectorDeleteElements (Some v) index count = Ok (status, after) ->
  exists v', after = Some v' /\ same_policy v v'.
Proof.
  intros Hrun. unfold ZyanVectorDeleteElements in Hrun.
  assert (Hsame : exists v', Some v = Some v' /\ same_policy v v')
    by (exists v; split; [reflexivity | apply same_mode_policy, same_mode_refl]).
  destruct (count =? 0); [injection Hrun as _ <-; exact Hsame |].
  destruct (size v <=? index); [injection Hrun as _ <-; exact Hsame |].
  apply through_pointer_inv in Hrun. destruct Hrun as (v' & Hrun & ->).
  exists v'. split; [reflexivity |].
  unfold ZYAN_CHECK, ZyanVectorShiftLeft in Hrun.
  destruct (index <? usize_sub (size v) 1).
  - destruct (ZYAN_MEMMOVE _ _ _ _) as [d |]; [| discriminate].
    cbn [bind fst snd ZYAN_SUCCESS] in Hrun. cbv zeta in Hrun.
    apply (guarded_reallocation_policy _ _ _ (ZYAN_MAX 1)) in Hrun.
    refine (same_policy_trans _ _ _ _ Hrun).
    apply same_mode_policy. same_mode_by_fields.
  - cbn [bind fst snd ZYAN_SUCCESS] in Hrun. cbv zeta in Hrun.
    apply (guarded_reallocation_policy _ _ _ (ZYAN_MAX 1)) in Hrun.
    refine (same_policy_trans _ _ _ _ Hrun).
    apply same_mode_policy. same_mode_by_fields.
Qed.

Lemma resize_policy (v : ZyanVector) (size' : Z)
    (status : ZyanStatus) (after : option ZyanVector) :
  ZyanVectorResize (Some v) size' = Ok (status, after) ->
  exists v', after = Some v' /\ same_policy v v'.
Proof.
  intros Hrun. unfold ZyanVectorResize in Hrun.
  apply through_pointer_inv in Hrun. destruct Hrun as (v' & Hrun & ->).
  exists v'. split; [reflexivity |]. unfold ZYAN_CHECK in Hrun.
  match type of Hrun with
  | bind ?c _ = _ => destruct c as [[st w] |] eqn:Hr; [| discriminate]
  end.
  apply (guarded_reallocation_policy _ _ _ (fun n => n)) in Hr.
  cbn [bind fst snd] in Hr, Hrun.
  destruct (ZYAN_SUCCESS st); injection Hrun as _ <-; [| exact Hr].
  refine (same_policy_trans _ _ _ Hr _). apply same_mode_policy. same_mode_by_fields.
Qed.

(** Every call keeps the allocator, the policy parameters and the element
    size, keeps the capacity at one or more, and keeps the capacity itself
    when there is no allocator. *)
Lemma perform_keeps_policy (op : operation) (v : ZyanVector) (status : ZyanStatus)
    (after : option ZyanVector) :
  perform op (Some v) = Ok (status, after) ->
  exists v', after = Some v' /\ same_policy v v'.
Proof.
  intros Hrun.
  assert (Hsame : exists v', Some v = Some v' /\ same_policy v v')
    by (exists v; split; [reflexivity | apply same_mode_policy, same_mode_refl]).
  destruct op as [element | index element | index elements count | index
                  | index count | | | size' | capacity' | | index element];
    cbn [perform] in Hrun.
  - (* push *)
    unfold ZyanVectorPush in Hrun.
    destruct element as [e |]; [| injection Hrun as _ <-; exact Hsame].
    apply through_pointer_inv in Hrun. destruct Hrun as (v' & Hrun & ->).
    exists v'. split; [reflexivity |]. unfold ZYAN_CHECK in Hrun.
    match type of Hrun with
    | bind ?c _ = _ => destruct c as [[st w] |] eqn:Hr; [| discriminate]
    end.
    apply (guarded_reallocation_policy _ _ _ (ZYAN_MAX 1)) in Hr.
    cbn [bind fst snd] in Hr, Hrun.
    destruct (ZYAN_SUCCESS st); [| injection Hrun as _ <-; exact Hr].
    destruct (ZYAN_MEMCPY _ _ _ _); [| discriminate].
    cbn [bind] in Hrun. injection Hrun as _ <-.
    refine (same_policy_trans _ _ _ Hr _). apply same_mode_policy. same_mode_by_fields.
  - exact (insert_elements_policy v index element 1 status after Hrun).
  - exact (insert_elements_policy v index elements count status after Hrun).
  - exact (delete_elements_policy v index 1 status after Hrun).
  - exact (delete_elements_policy v index count status after Hrun).
  - (* pop *)
    unfold ZyanVectorPop in Hrun.
    destruct (size v =? 0); [injection Hrun as _ <-; exact Hsame |].
    apply through_pointer_inv in Hrun. destruct Hrun as (v' & Hrun & ->).
    exists v'. split; [reflexivity |]. cbv zeta in Hrun.
    apply (guarded_reallocation_policy _ _ _ (ZYAN_MAX 1)) in Hrun.
    refine (same_policy_trans _ _ _ _ Hrun).
    apply same_mode_policy. same_mode_by_fields.
  - exact (resize_policy v 0 status after Hrun).
  - exact (resize_policy v size' status after Hrun).
  - (* reserve *)
    unfold ZyanVectorReserve in Hrun.
    apply through_pointer_inv in Hrun. destruct Hrun as (v' & Hrun & ->).
    exists v'. split; [reflexivity |]. unfold ZYAN_CHECK in Hrun.
    match type of Hrun with
    | bind ?c _ = _ => destruct c as [[st w] |] eqn:Hr; [| discriminate]
    end.
    apply (guarded_reallocation_policy _ _ (Ok capacity') (fun n => n)) in Hr.
    cbn [bind fst snd] in Hr, Hrun.
    destruct (ZYAN_SUCCESS st); injection Hrun as _ <-; exact Hr.
  - (* shrink to fit *)
    unfold ZyanVectorShrinkToFit in Hrun.
    apply through_pointer_inv in Hrun. destruct Hrun as (v' & Hrun & ->).
    exists v'. split; [reflexivity |].
    exact (ZyanVectorReallocate_policy _ _ _ Hrun).
  - (* assign *)
    unfold ZyanVectorAssign in Hrun.
    destruct element as [e |]; [| injection Hrun as _ <-; exact Hsame].
    destruct (size v <=? index); [injection Hrun as _ <-; exact Hsame |].
    destruct (ZYAN_MEMCPY _ _ _ _); [| discriminate].
    cbn [bind] in Hrun. injection Hrun as _ <-.
    eexists. split; [reflexivity |]. apply same_mode_policy. same_mode_by_fields.
Qed.

Lemma perform_all_keeps_policy (ops : list operation) (v : ZyanVector)
    (statuses : list ZyanStatus) (after : option ZyanVector) :
  perform_all ops (Some v) = Ok (statuses, after) ->
  exists v', after = Some v' /\ same_policy v v'.
Proof.
  revert v statuses after.
  induction ops as [| op ops IH]; intros v statuses after Hrun.
  - injection Hrun as _ <-. exists v.
    split; [reflexivity | apply same_mode_policy, same_mode_refl].
  - cbn [perform_all] in Hrun.
    destruct (perform op (Some v)) as [[st mid] |] eqn:Hop; [| discriminate].
    cbn [bind snd fst] in Hrun.
    destruct (perform_keeps_policy op v st mid Hop) as (w & -> & Hw).
    destruct (perform_all ops (Some w)) as [[sts fin] |] eqn:Hrest; [| discriminate].
    cbn [bind snd fst] in Hrun. injection Hrun as _ <-.
    destruct (IH w sts fin Hrest) as (v' & -> & Hv').
    exists v'. split; [reflexivity | exact (same_policy_trans _ _ _ Hw Hv')].
Qed.

(** The half of the invariant that does hold: over any sequence of calls the
    capacity stays at one or more. *)
Lemma capacity_floor_is_kept (ops : list operation) (v : ZyanVector)
    (statuses : list ZyanStatus) (after : option ZyanVector) :
  1 <= v.(capacity) ->
  perform_all ops (Some v) = Ok (statuses, after) ->
  exists v', after = Some v' /\ 1 <= v'.(capacity).
Proof.
  intros Hcap Hrun.
  destruct (perform_all_keeps_policy ops v statuses after Hrun) as (v' & -> & Hp).
  exists v'. split; [reflexivity |]. apply Hp. exact Hcap.
Qed.

(* ================================================================== *)
(** * Null handles (C10)                                              *)
(* ================================================================== *)

(** C10.  Every exported function answers a null vector handle with
    [ZYAN_STATUS_INVALID_ARGUMENT] and touches nothing, whatever its other
    arguments are; the one exception is [ZyanVectorShrinkToFit], which has no
    such test and reads [vector->size] through the null handle. *)
Theorem null_handle_is_rejected_except_by_shrink_to_fit :
  (forall default_allocator element_size' capacity',
      ZyanVectorInit default_allocator None element_size' capacity'
      = Ok (ZYAN_STATUS_INVALID_ARGUMENT, None)) /\
  (forall element_size' capacity' allocator' growth_factor' shrink_threshold',
      ZyanVectorInitEx None element_size' capacity' allocator' growth_factor'
        shrink_threshold'
      = Ok (ZYAN_STATUS_INVALID_ARGUMENT, None)) /\
  (forall element_size' buffer' capacity',
      ZyanVectorInitBuffer None element_size' buffer' capacity'
      = Ok (ZYAN_STATUS_INVALID_ARGUMENT, None)) /\
  ZyanVectorDestroy None = Ok (ZYAN_STATUS_INVALID_ARGUMENT, None) /\
  (forall index element,
      ZyanVectorGet None index element = Ok (ZYAN_STATUS_INVALID_ARGUMENT, element)) /\
  (forall index element,
      ZyanVectorGetConst None index element
      = Ok (ZYAN_STATUS_INVALID_ARGUMENT, element)) /\
  (forall size', ZyanVectorSize None size' = Ok (ZYAN_STATUS_INVALID_ARGUMENT, size')) /\
  (forall capacity',
      ZyanVectorCapacity None capacity' = Ok (ZYAN_STATUS_INVALID_ARGUMENT, capacity')) /\
  (forall op, op <> OpShrinkToFit ->
      perform op None = Ok (ZYAN_STATUS_INVALID_ARGUMENT, None)) /\
  perform OpShrinkToFit None = Undefined NullDereference /\
  ZyanVectorShrinkToFit None = Undefined NullDereference.
Proof.
  repeat split; try reflexivity.
  intros op Hop. destruct op; try reflexivity. congruence.
Qed.

Lemma null_handle_is_rejected_witness :
  OpPop <> OpShrinkToFit /\
  perform OpPop None = Ok (ZYAN_STATUS_INVALID_ARGUMENT, None).
Proof.
  split; [discriminate |].
  apply (proj1 (proj2 (proj2 (proj2 (proj2 (proj2 (proj2 (proj2 (proj2
    null_handle_is_rejected_except_by_shrink_to_fit))))))))).
  discriminate.
Defined.

(* ================================================================== *)
(** * The left shift of a deletion (C8, C3)                           *)
(* ================================================================== *)



(** C3.  With five elements in a storage of fewer than seven,
    [ZyanVectorDeleteElements] at index 1 with count 2 does not come back with
    the three remaining elements: its left shift moves four elements from
    element 3 on, and the read runs past the storage. *)
Theorem delete_elements_scenario_over_reads (v : ZyanVector) (b : buffer) :
  v.(data) = Some b ->
  v.(size) = 5 ->
  0 < v.(element_size) ->
  7 * v.(element_size) < ZYAN_USIZE_MODULUS ->
  buf_len b < 7 * v.(element_size) ->
  ZyanVectorDeleteElements (Some v) 1 2 = Undefined OutOfBounds.
Proof.
  intros Hdata Hsize Hes Hfit Hlen.
  destruct (shift_quantities v 1 2) as (Hsrc & Hdst & Hmoved); try lia.
  unfold ZyanVectorDeleteElements, ZyanVectorShiftLeft.
  rewrite Hsrc, Hdst, Hmoved, Hdata, Hsize.
  rewrite ZYAN_MEMMOVE_out_of_bounds by lia.
  reflexivity.
Qed.

Lemma delete_elements_scenario_over_reads_witness :
  ZyanVectorDeleteElements
    (Some (mkVector (Some heap_allocator) float_2_0 float_0_25 5 5 1
             (Some (buffer_of_list ["A"; "B"; "C"; "D"; "E"]%byte)))) 1 2
  = Undefined OutOfBounds.
Proof.
  apply (delete_elements_scenario_over_reads _
           (buffer_of_list ["A"; "B"; "C"; "D"; "E"]%byte));
    simpl; try reflexivity; lia.
Defined.

(** The part of a deletion before the size is reduced: the elements after
    the deleted range are moved down by [count] elements. *)
Lemma delete_head_bytes (w : ZyanVector) (b : buffer) (index count : Z)
    (r : ZyanStatus * ZyanVector) :
  w.(data) = Some b ->
  0 < w.(element_size) ->
  0 <= index ->
  0 < count ->
  index + count <= w.(size) ->
  (w.(size) + count) * w.(element_size) < ZYAN_USIZE_MODULUS ->
  (if index <? usize_sub w.(size) 1 then ZyanVectorShiftLeft w index count
   else Ok (ZYAN_STATUS_SUCCESS, w)) = Ok r ->
  fst r = ZYAN_STATUS_SUCCESS /\
  same_header w (snd r) /\
  (snd r).(capacity) = w.(capacity) /\
  exists b1, (snd r).(data) = Some b1 /\ buf_len b1 = buf_len b /\
    (forall i, 0 <= i < index * w.(element_size) -> buf_at b1 i = buf_at b i) /\
    (forall i, index * w.(element_size) <= i < (w.(size) - count) * w.(element_size) ->
       buf_at b1 i = buf_at b (i + count * w.(element_size))).
Proof.
  intros Hdata Hes Hindex Hcount Hrange Hwrap Hrun.
  assert (HM := ZYAN_USIZE_MODULUS_value).
  destruct (shift_quantities w index count) as (Hsrc & Hdst & Hmoved); try lia.
  assert (Hpred : usize_sub w.(size) 1 = w.(size) - 1).
  { unfold usize_sub. apply usize_small. unfold in_usize. nia. }
  rewrite Hpred in Hrun.
  destruct (Z.ltb_spec index (size w - 1)) as [Hlt | Hge].
  - unfold ZyanVectorShiftLeft in Hrun. rewrite Hsrc, Hdst, Hmoved in Hrun.
    destruct (ZYAN_MEMMOVE _ _ _ _) as [d |] eqn:Hmove; [| discriminate].
    apply ZYAN_MEMMOVE_inv in Hmove.
    destruct Hmove as (b' & Hb' & Hm1 & Hm2 & ->).
    rewrite Hdata in Hb'. injection Hb' as <-.
    cbn [bind] in Hrun. injection Hrun as <-. cbn [fst snd].
    split; [reflexivity |]. split; [unfold same_header; cbn; auto |].
    split; [reflexivity |].
    eexists. split; [reflexivity |]. split; [reflexivity |]. cbn [buf_at].
    split; intros i Hi.
    + replace (index * element_size w <=? i) with false by (symmetry; apply Z.leb_gt; lia).
      reflexivity.
    + replace (index * element_size w <=? i) with true by (symmetry; apply Z.leb_le; lia).
      replace (i <? index * element_size w + (size w - index) * element_size w)
        with true by (symmetry; apply Z.ltb_lt; nia).
      cbn [andb]. f_equal. nia.
  - injection Hrun as <-. cbn [fst snd].
    split; [reflexivity |]. split; [unfold same_header; auto |].
    split; [reflexivity |].
    exists b. split; [exact Hdata |]. split; [reflexivity |].
    split; intros i Hi; [reflexivity | nia].
Qed.

(** An optional reallocation that succeeds keeps the header and the bytes. *)
Lemma guarded_reallocation_storage (v w : ZyanVector) (b : buffer) (guard : bool)
    (request : result Z) (f : Z -> Z) :
  (forall a, v.(allocator) = Some a -> reallocate_keeps a) ->
  v.(data) = Some b ->
  v.(capacity) * v.(element_size) <= buf_len b ->
  (if guard then n <- request ;; ZyanVectorReallocate v (f n)
   else Ok (ZYAN_STATUS_SUCCESS, v)) = Ok (ZYAN_STATUS_SUCCESS, w) ->
  same_header v w /\
  exists b', w.(data) = Some b' /\
    w.(capacity) * w.(element_size) <= buf_len b' /\
    forall i, 0 <= i -> i < buf_len b -> i < buf_len b' -> buf_at b' i = buf_at b i.
Proof.
  intros Hkeeps Hdata Hfits Hrun. destruct guard.
  - destruct request as [n |]; [| discriminate]. cbn [bind] in Hrun.
    exact (ZyanVectorReallocate_success_storage v w (f n) b Hkeeps Hdata Hfits Hrun).
  - injection Hrun as <-. split; [unfold same_header; auto |]. exists b. auto.
Qed.

(** What C3 describes, where the storage has room for the over-long move: a
    successful deletion of [count] elements at [index] (the range within the
    size) reduces the size by [count], keeps the bytes before the range and
    moves the bytes after it down by [count] elements. *)
Lemma delete_elements_closes_gap
    (v v' : ZyanVector) (b : buffer) (index count : Z) :
  (forall a, v.(allocator) = Some a -> reallocate_keeps a) ->
  v.(data) = Some b ->
  0 < v.(element_size) ->
  0 <= index ->
  0 < count ->
  index + count <= v.(size) ->
  v.(size) * v.(element_size) <= buf_len b ->
  v.(capacity) * v.(element_size) <= buf_len b ->
  (v.(size) + count) * v.(element_size) < ZYAN_USIZE_MODULUS ->
  ZyanVectorDeleteElements (Some v) index count = Ok (ZYAN_STATUS_SUCCESS, Some v') ->
  v'.(size) = v.(size) - count /\
  v'.(element_size) = v.(element_size) /\
  exists b', v'.(data) = Some b' /\
    v'.(capacity) * v'.(element_size) <= buf_len b' /\
    (forall i, 0 <= i < index * v.(element_size) -> i < buf_len b' ->
       buf_at b' i = buf_at b i) /\
    (forall i, index * v.(element_size) <= i < (v.(size) - count) * v.(element_size) ->
       i < buf_len b' -> buf_at b' i = buf_at b (i + count * v.(element_size))).
Proof.
  intros Hkeeps Hdata Hes Hindex Hcount Hrange Hinv Hfits Hwrap Hdelete.
  assert (HM := ZYAN_USIZE_MODULUS_value).
  unfold ZyanVectorDeleteElements in Hdelete.
  replace (count =? 0) with false in Hdelete by (symmetry; apply Z.eqb_neq; lia).
  replace (size v <=? index) with false in Hdelete by (symmetry; apply Z.leb_gt; lia).
  apply through_pointer_inv in Hdelete. destruct Hdelete as (v2 & Hdelete & [= <-]).
  unfold ZYAN_CHECK in Hdelete.
  match type of Hdelete with
  | bind ?c _ = _ => destruct c as [r |] eqn:Hshift; [| discriminate]
  end.
  apply (delete_head_bytes v b index count) in Hshift; try assumption.
  destruct Hshift as (Hst & (Ha2 & Hg2 & Ht2 & Hs2 & He2) & Hc2 & b2 & Hd2 & Hl2 & Hlow2 & Hhigh2).
  cbn [bind] in Hdelete. rewrite Hst in Hdelete. cbn [ZYAN_SUCCESS] in Hdelete.
  cbv zeta in Hdelete.
  set (w := set_size (snd r) (usize_sub (size (snd r)) count)) in Hdelete.
  assert (Hsw : size w = size v - count).
  { subst w. cbn [size set_size]. rewrite Hs2. unfold usize_sub.
    apply usize_small. unfold in_usize. nia. }
  assert (Hew : element_size w = element_size v).
  { subst w. cbn [element_size set_size]. exact He2. }
  apply (guarded_reallocation_storage w v' b2 _ _ (ZYAN_MAX 1)) in Hdelete.
  - destruct Hdelete as ((Ha3 & Hg3 & Ht3 & Hs3 & He3) & b3 & Hd3 & Hf3 & Hpre3).
    split; [congruence |]. split; [congruence |].
    exists b3. split; [exact Hd3 |]. split; [exact Hf3 |].
    split; intros i Hi Hi3.
    + rewrite Hpre3 by nia. apply Hlow2. exact Hi.
    + rewrite Hpre3 by nia. apply Hhigh2. exact Hi.
  - intros a Hwa. apply Hkeeps. subst w. cbn [allocator set_size] in Hwa. congruence.
  - subst w. cbn [data set_size]. exact Hd2.
  - subst w. cbn [capacity element_size set_size]. rewrite Hc2, He2, Hl2. exact Hfits.
Qed.

(** The same call on a storage of seven elements or more does leave
    [A; D; E]: the two elements read after the live tail land above the new
    size. *)
Example delete_elements_scenario_with_slack :
  let v := mkVector (Some heap_allocator) float_2_0 float_0_25 5 7 1
             (Some (mkBuffer 7 (buf_at (buffer_of_list ["A"; "B"; "C"; "D"; "E"]%byte)))) in
  exists v',
    ZyanVectorDeleteElements (Some v) 1 2 = Ok (ZYAN_STATUS_SUCCESS, Some v') /\
    v'.(size) = 3 /\
    elements_of v' = [Ok ["A"%byte]; Ok ["D"%byte]; Ok ["E"%byte]].
Proof.
  intros v. eexists. split; [vm_compute; reflexivity |].
  split; reflexivity.
Qed.

(* ================================================================== *)
(** * Deleting a range that runs past the end (C9, C1)                *)
(* ================================================================== *)

(** C9 (as amended).  [ZyanVectorDeleteElements] never compares
    [index + count] with the size.  For an index below the size and a count
    larger than [size - index], whenever the call returns it has stored
    [(size - count) mod 2^64] as the size, so it did not stop at the range
    check; and it does return success with that size, at the same capacity,
    when the block it moves lies inside the storage (always so for the last
    index) and no shrink follows.  The stored size is above the capacity when
    the subtraction wraps to a value above it, not for every such call. *)
Theorem delete_elements_range_is_not_validated (v : ZyanVector) (index count : Z) :
  in_usize v.(size) ->
  0 <= index < v.(size) ->
  v.(size) - index < count < ZYAN_USIZE_MODULUS ->
  let outcome := ZyanVectorDeleteElements (Some v) index count in
  (forall status after,
      outcome = Ok (status, after) ->
      exists v', after = Some v' /\
        v'.(size) = (v.(size) - count) mod ZYAN_USIZE_MODULUS) /\
  outcome <> Ok (ZYAN_STATUS_OUT_OF_RANGE, Some v) /\
  (index = v.(size) - 1 \/
   (exists b, v.(data) = Some b /\ 0 < v.(element_size) /\
      (v.(size) + count) * v.(element_size) <= buf_len b /\
      (v.(size) + count) * v.(element_size) < ZYAN_USIZE_MODULUS) ->
   ZYAN_VECTOR_SHOULD_SHRINK (usize_sub v.(size) count) v.(capacity)
     v.(shrink_threshold) = false ->
   exists v',
     outcome = Ok (ZYAN_STATUS_SUCCESS, Some v') /\
     v'.(size) = (v.(size) - count) mod ZYAN_USIZE_MODULUS /\
     v'.(capacity) = v.(capacity) /\
     (v.(size) < count ->
      v'.(size) = ZYAN_USIZE_MODULUS - (count - v.(size)) /\
      (v.(capacity) < ZYAN_USIZE_MODULUS - (count - v.(size)) ->
       v'.(capacity) < v'.(size)))).
Proof.
  intros Hsize Hidx Hcount outcome.
  assert (HM := ZYAN_USIZE_MODULUS_value).
  unfold in_usize in Hsize.
  assert (Hc0 : (count =? 0) = false) by (apply Z.eqb_neq; lia).
  assert (Hrange : (v.(size) <=? index) = false) by (apply Z.leb_gt; lia).
  assert (Hpred : usize_sub v.(size) 1 = v.(size) - 1).
  { unfold usize_sub. apply usize_small. unfold in_usize. lia. }
  assert (Hreturns : forall status after,
    outcome = Ok (status, after) ->
    exists v', after = Some v' /\
      v'.(size) = (v.(size) - count) mod ZYAN_USIZE_MODULUS).
  { intros status after. subst outcome. unfold ZyanVectorDeleteElements.
    rewrite Hc0, Hrange.
    assert (Hstep : forall w, w.(size) = v.(size) ->
      forall r,
        (let v := set_size w (usize_sub w.(size) count) in
         if ZYAN_VECTOR_SHOULD_SHRINK v.(size) v.(capacity) v.(shrink_threshold)
         then n <- scaled_size v v.(size) ;; ZyanVectorReallocate v (ZYAN_MAX 1 n)
         else Ok (ZYAN_STATUS_SUCCESS, v)) = Ok r ->
        (snd r).(size) = (v.(size) - count) mod ZYAN_USIZE_MODULUS).
    { intros w Hw r. cbv zeta.
      destruct (ZYAN_VECTOR_SHOULD_SHRINK _ _ _).
      - destruct (scaled_size _ _) as [n | f]; simpl; [| discriminate].
        destruct r as [st w']. intros Hr.
        apply ZyanVectorReallocate_size in Hr. simpl in *. rewrite Hr, Hw. reflexivity.
      - intros [= <-]. simpl. rewrite Hw. reflexivity. }
    unfold through_pointer, ZYAN_CHECK.
    destruct (index <? usize_sub v.(size) 1).
    - unfold ZyanVectorShiftLeft.
      destruct (ZYAN_MEMMOVE _ _ _ _) as [d | f]; simpl; [| discriminate].
      match goal with
      | |- context [bind ?c _] => destruct c as [r | f] eqn:Hr
      end; simpl; [| discriminate].
      intros [= <- <-]. eexists; split; [reflexivity |].
      apply (Hstep (set_data v d) eq_refl r Hr).
    - simpl.
      match goal with
      | |- context [bind ?c _] => destruct c as [r | f] eqn:Hr
      end; simpl; [| discriminate].
      intros [= <- <-]. eexists; split; [reflexivity |].
      apply (Hstep v eq_refl r Hr). }
  split; [exact Hreturns |].
  split.
  { intros Hout. destruct (Hreturns _ _ Hout) as (v' & [= <-] & Hv').
    destruct (Z.le_gt_cases count v.(size)).
    - rewrite Z.mod_small in Hv' by lia. lia.
    - rewrite <- (Z.mod_add _ 1) in Hv' by lia.
      rewrite Z.mod_small in Hv' by lia. lia. }
  intros Hfits Hshrink.
  assert (Hwrap : v.(size) < count ->
    (v.(size) - count) mod ZYAN_USIZE_MODULUS = ZYAN_USIZE_MODULUS - (count - v.(size))).
  { intros Hlt. rewrite <- (Z.mod_add _ 1) by lia. rewrite Z.mod_small by lia. lia. }
  assert (Hshifted : exists w,
    (if index <? usize_sub v.(size) 1 then ZyanVectorShiftLeft v index count
     else Ok (ZYAN_STATUS_SUCCESS, v)) = Ok (ZYAN_STATUS_SUCCESS, w) /\
    w.(size) = v.(size) /\ w.(capacity) = v.(capacity) /\
    w.(shrink_threshold) = v.(shrink_threshold)).
  { rewrite Hpred. destruct (Z.ltb_spec index (v.(size) - 1)) as [Hlt | Hge].
    - destruct Hfits as [-> | (b & Hdata & Hes & Hlen & Hfit)]; [lia |].
      destruct (shift_quantities v index count) as (Hsrc & Hdst & Hmoved); try lia.
      unfold ZyanVectorShiftLeft. rewrite Hsrc, Hdst, Hmoved, Hdata.
      rewrite ZYAN_MEMMOVE_in_bounds by nia.
      eexists. split; [reflexivity |]. simpl. auto.
    - exists v. auto. }
  destruct Hshifted as (w & Hw & Hws & Hwc & Hwt).
  exists (set_size w (usize_sub w.(size) count)).
  split.
  { subst outcome. unfold ZyanVectorDeleteElements.
    rewrite Hc0, Hrange. unfold through_pointer, ZYAN_CHECK.
    rewrite Hw. simpl. rewrite Hws, Hwc, Hwt, Hshrink. reflexivity. }
  cbn [size capacity set_size]. rewrite Hws, Hwc. unfold usize_sub, usize.
  split; [reflexivity |]. split; [reflexivity |].
  intros Hlt. rewrite (Hwrap Hlt). split; [reflexivity | lia].
Qed.

Lemma delete_elements_range_is_not_validated_witness :
  let v := mkVector (Some heap_allocator) float_2_0 float_0_25 3 4 1
             (Some (mkBuffer 4 (fun _ => x00))) in
  exists v',
    ZyanVectorDeleteElements (Some v) 2 5 = Ok (ZYAN_STATUS_SUCCESS, Some v') /\
    v'.(size) = ZYAN_USIZE_MODULUS - 2 /\
    v'.(capacity) < v'.(size).
Proof.
  intros v.
  destruct (delete_elements_range_is_not_validated v 2 5) as (_ & _ & H).
  - vm_compute. split; [discriminate | reflexivity].
  - vm_compute. split; [discriminate | reflexivity].
  - vm_compute. split; reflexivity.
  - destruct H as (v' & Hout & _ & _ & Hwrap).
    + left. reflexivity.
    + reflexivity.
    + exists v'. split; [exact Hout |].
      destruct Hwrap as (Hs & Hc); [reflexivity |].
      split; [exact Hs | apply Hc; reflexivity].
Defined.

(** The claim as first stated fails: deleting two elements at the last index
    of a five-element vector is such a call, and it leaves size 3, below the
    capacity. *)
Lemma delete_elements_past_end_can_stay_below_capacity :
  let v := mkVector (Some heap_allocator) float_2_0 float_0_25 5 8 1
             (Some (mkBuffer 8 (fun _ => x00))) in
  4 < v.(size) /\ v.(size) - 4 < 2 /\
  exists v',
    ZyanVectorDeleteElements (Some v) 4 2 = Ok (ZYAN_STATUS_SUCCESS, Some v') /\
    v'.(size) = 3 /\
    ~ v'.(capacity) < v'.(size).
Proof.
  intros v. split; [reflexivity |]. split; [reflexivity |].
  eexists. split; [vm_compute; reflexivity |].
  split; [reflexivity |]. vm_compute. discriminate.
Qed.

(** C1.  The invariant [size <= capacity] does not survive
    [ZyanVectorDeleteElements]: a vector over a four-element buffer, filled
    with three elements by [ZyanVectorPush], accepts the deletion of five
    elements at index 2 (the count is not zero and the index is below the
    size), reports success, and is left with size 2^64 - 2 at capacity 4. *)
Theorem delete_elements_breaks_size_le_capacity (uninitialised : ZyanVector) :
  exists v0 v',
    ZyanVectorInitBuffer (Some uninitialised) 1 (Some (mkBuffer 4 (fun _ => x00))) 4
    = Ok (ZYAN_STATUS_SUCCESS, Some v0) /\
    vector_invariant v0 /\
    perform_all
      [OpPush (Some (buffer_of_list ["A"%byte]));
       OpPush (Some (buffer_of_list ["B"%byte]));
       OpPush (Some (buffer_of_list ["C"%byte]));
       OpDeleteElements 2 5] (Some v0)
    = Ok ([ZYAN_STATUS_SUCCESS; ZYAN_STATUS_SUCCESS; ZYAN_STATUS_SUCCESS;
           ZYAN_STATUS_SUCCESS], Some v') /\
    v'.(size) = ZYAN_USIZE_MODULUS - 2 /\
    v'.(capacity) = 4 /\
    ~ vector_invariant v'.
Proof.
  eexists. eexists.
  split; [reflexivity |].
  split; [split; simpl; [lia | intros _; lia] |].
  split; [vm_compute; reflexivity |].
  split; [reflexivity |].
  split; [reflexivity |].
  intros [Hle _]. vm_compute in Hle. apply Hle. reflexivity.
Qed.

(* ================================================================== *)
(** * Insertion with growth (C7)                                      *)
(* ================================================================== *)

(** C7.  An owning vector with five elements at capacity five and growth
    factor 2.0 takes three elements at index 2: the call succeeds when the
    allocator does, the capacity becomes 16 and the size 8, and the storage
    holds the first two old elements, then the three new ones, then the last
    three old ones (all counted in bytes of [element_size]). *)
Theorem insert_elements_scenario
    (v : ZyanVector) (a : ZyanAllocator) (b e : buffer) :
  v.(allocator) = Some a ->
  reallocate_keeps a ->
  fst (a.(reallocate) (Some b) v.(element_size) 16) = ZYAN_STATUS_SUCCESS ->
  v.(growth_factor) = float_2_0 ->
  v.(size) = 5 ->
  v.(capacity) = 5 ->
  0 < v.(element_size) ->
  16 * v.(element_size) < ZYAN_USIZE_MODULUS ->
  v.(data) = Some b ->
  buf_len b = 5 * v.(element_size) ->
  3 * v.(element_size) <= buf_len e ->
  exists v' d,
    ZyanVectorInsertElements (Some v) 2 (Some e) 3 = Ok (ZYAN_STATUS_SUCCESS, Some v') /\
    v'.(size) = 8 /\
    v'.(capacity) = 16 /\
    v'.(data) = Some d /\
    buf_len d = 16 * v.(element_size) /\
    (forall i, 0 <= i < 2 * v.(element_size) -> buf_at d i = buf_at b i) /\
    (forall i, 2 * v.(element_size) <= i < 5 * v.(element_size) ->
       buf_at d i = buf_at e (i - 2 * v.(element_size))) /\
    (forall i, 5 * v.(element_size) <= i < 8 * v.(element_size) ->
       buf_at d i = buf_at b (i - 3 * v.(element_size))).
Proof.
  intros Ha Hkeeps Hok Hgf Hsize Hcap Hes Hfit Hdata Hlen Helen.
  assert (HM := ZYAN_USIZE_MODULUS_value).
  destruct (a.(reallocate) (Some b) v.(element_size) 16) as [st p] eqn:Hre.
  simpl in Hok. subst st.
  destruct (Hkeeps _ _ _ _ Hre) as (b' & -> & Hlen' & Hprefix).
  pose proof (Hprefix b eq_refl) as Hpre. clear Hprefix.
  assert (Hscaled : scaled_size v 8 = Ok 16).
  { unfold scaled_size. rewrite Hgf. reflexivity. }
  set (v1 := set_data (set_capacity v 16) (Some b')).
  assert (Hgrow : ZyanVectorReallocate v 16 = Ok (ZYAN_STATUS_SUCCESS, v1)).
  { apply (ZyanVectorReallocate_owning_success v a); [exact Ha | lia |].
    rewrite Hdata. exact Hre. }
  assert (Hv1 : size v1 = 5 /\ element_size v1 = element_size v) by (split; [exact Hsize | reflexivity]).
  destruct Hv1 as (Hsize1 & Hes1).
  destruct (shift_quantities v1 2 3) as (Hsrc & Hdst & Hmoved);
    try (rewrite ?Hsize1, ?Hes1; lia).
  rewrite Hsize1, Hes1 in Hmoved. rewrite Hes1 in Hsrc, Hdst.
  set (d1 := mkBuffer (buf_len b')
               (fun i => if (5 * v.(element_size) <=? i)
                            && (i <? 5 * v.(element_size) + 3 * v.(element_size))
                         then buf_at b' (i - 5 * v.(element_size) + 2 * v.(element_size))
                         else buf_at b' i)).
  set (d2 := mkBuffer (buf_len d1)
               (fun i => if (2 * v.(element_size) <=? i)
                            && (i <? 2 * v.(element_size) + 3 * v.(element_size))
                         then buf_at e (i - 2 * v.(element_size))
                         else buf_at d1 i)).
  exists (set_size (set_data v1 (Some d2)) 8), d2.
  split.
  { unfold ZyanVectorInsertElements.
    rewrite Hsize, Hcap.
    change (3 =? 0) with false. change (5 <? 2) with false.
    change (usize_add 5 3) with 8.
    change (ZYAN_VECTOR_SHOULD_GROW 8 5) with true.
    cbv iota. rewrite Hscaled. cbn [bind].
    change (ZYAN_MAX 1 16) with 16. rewrite Hgrow.
    unfold through_pointer, ZYAN_CHECK. cbn [bind fst snd ZYAN_SUCCESS].
    rewrite Hsize1.
    change (2 <? 5) with true. cbv iota.
    unfold ZyanVectorShiftRight.
    rewrite Hsize1, Hes1, Hsrc, Hdst, Hmoved.
    change (data v1) with (Some b').
    rewrite ZYAN_MEMMOVE_in_bounds by lia.
    cbn [bind fst snd ZYAN_SUCCESS].
    change (ZYAN_VECTOR_OFFSET (set_data v1 _) 2) with (ZYAN_VECTOR_OFFSET v1 2).
    rewrite Hdst.
    cbn [data set_data element_size size].
    change (element_size v1) with (element_size v).
    replace (usize_mul 3 (element_size v)) with (3 * element_size v)
      by (symmetry; apply usize_small; unfold in_usize; lia).
    change ((2 + 3) * element_size v) with (5 * element_size v).
    change ((5 - 2) * element_size v) with (3 * element_size v).
    rewrite ZYAN_MEMCPY_in_bounds by (cbn [buf_len]; lia).
    cbn [bind]. rewrite Hsize1.
    reflexivity. }
  split; [reflexivity |]. split; [reflexivity |]. split; [reflexivity |].
  split; [cbn [d2 d1 buf_len]; lia |].
  repeat split; intros i Hi; cbn [d2 d1 buf_at].
  - replace (2 * element_size v <=? i) with false by (symmetry; apply Z.leb_gt; lia).
    replace (5 * element_size v <=? i) with false by (symmetry; apply Z.leb_gt; lia).
    cbn [andb]. apply Hpre; lia.
  - replace (2 * element_size v <=? i) with true by (symmetry; apply Z.leb_le; lia).
    replace (i <? 2 * element_size v + 3 * element_size v) with true
      by (symmetry; apply Z.ltb_lt; lia).
    reflexivity.
  - replace (i <? 2 * element_size v + 3 * element_size v) with false
      by (symmetry; apply Z.ltb_ge; lia).
    rewrite andb_false_r.
    replace (5 * element_size v <=? i) with true by (symmetry; apply Z.leb_le; lia).
    replace (i <? 5 * element_size v + 3 * element_size v) with true
      by (symmetry; apply Z.ltb_lt; lia).
    cbn [andb].
    replace (i - 5 * element_size v + 2 * element_size v) with (i - 3 * element_size v)
      by lia.
    apply Hpre; lia.
Qed.

Lemma insert_elements_scenario_witness :
  let b := buffer_of_list ["A"; "B"; "C"; "D"; "E"]%byte in
  let e := buffer_of_list ["x"; "y"; "z"]%byte in
  let v := mkVector (Some heap_allocator) float_2_0 float_0_25 5 5 1 (Some b) in
  exists v' d,
    ZyanVectorInsertElements (Some v) 2 (Some e) 3 = Ok (ZYAN_STATUS_SUCCESS, Some v') /\
    v'.(size) = 8 /\
    v'.(capacity) = 16 /\
    v'.(data) = Some d /\
    buf_len d = 16 * 1 /\
    (forall i, 0 <= i < 2 * 1 -> buf_at d i = buf_at b i) /\
    (forall i, 2 * 1 <= i < 5 * 1 -> buf_at d i = buf_at e (i - 2 * 1)) /\
    (forall i, 5 * 1 <= i < 8 * 1 -> buf_at d i = buf_at b (i - 3 * 1)).
Proof.
  intros b e v.
  apply (insert_elements_scenario v heap_allocator b e);
    try reflexivity; apply heap_allocator_keeps.
Defined.

(** The same run, read element by element. *)
Example insert_elements_scenario_elements :
  let v := mkVector (Some heap_allocator) float_2_0 float_0_25 5 5 1
             (Some (buffer_of_list ["A"; "B"; "C"; "D"; "E"]%byte)) in
  exists v',
    ZyanVectorInsertElements (Some v) 2
      (Some (buffer_of_list ["x"; "y"; "z"]%byte)) 3
    = Ok (ZYAN_STATUS_SUCCESS, Some v') /\
    (v'.(size), v'.(capacity)) = (8, 16) /\
    elements_of v'
    = [Ok ["A"%byte]; Ok ["B"%byte]; Ok ["x"%byte]; Ok ["y"%byte]; Ok ["z"%byte];
       Ok ["C"%byte]; Ok ["D"%byte]; Ok ["E"%byte]].
Proof.
  intros v. eexists. split; [vm_compute; reflexivity |].
  split; reflexivity.
Qed.

(* ================================================================== *)
(** * The capacity chosen on growth and on shrink (C5)                *)
(* ================================================================== *)





(* ================================================================== *)
(** * Failed calls (C2)                                               *)
(* ================================================================== *)









(* ================================================================== *)
(** * Vectors over a caller's buffer (C6)                             *)
(* ================================================================== *)

Lemma ZyanVectorInitBuffer_borrowing (uninitialised v : ZyanVector)
    (element_size' capacity' : Z) (b : option buffer) :
  ZyanVectorInitBuffer (Some uninitialised) element_size' b capacity'
  = Ok (ZYAN_STATUS_SUCCESS, Some v) ->
  borrowing v /\ v.(size) = 0 /\ v.(capacity) = capacity' /\ v.(data) = b /\
  v.(element_size) = element_size'.
Proof.
  unfold ZyanVectorInitBuffer, borrowing.
  destruct b as [b |]; [| discriminate].
  destruct ((element_size' =? 0) || (capacity' =? 0)); [discriminate |].
  intros [= <-]. cbn. auto 10.
Qed.

(** Over any sequence of calls a vector over a caller's buffer stays one, and
    its capacity stays what [ZyanVectorInitBuffer] was given. *)
Lemma borrowing_capacity_is_fixed (ops : list operation) (v : ZyanVector)
    (statuses : list ZyanStatus) (after : option ZyanVector) :
  borrowing v ->
  perform_all ops (Some v) = Ok (statuses, after) ->
  exists v', after = Some v' /\ borrowing v' /\ v'.(capacity) = v.(capacity).
Proof.
  intros (Ha & Hg & Ht) Hrun.
  destruct (perform_all_keeps_policy ops v statuses after Hrun)
    as (v' & -> & Ha' & Hg' & Ht' & _ & _ & Hc).
  exists v'. split; [reflexivity |].
  split; [unfold borrowing; rewrite Ha', Hg', Ht'; auto | exact (Hc Ha)].
Qed.

(** Up to 2^24 elements the refusal works as the spec says: a push, an
    insertion, a resize or a reserve that needs more than the fixed capacity
    returns [ZYAN_STATUS_INSUFFICIENT_BUFFER_SIZE] and leaves the vector as it
    was ([ZyanVectorReserve] at any size); a resize or a reserve within the
    capacity succeeds and leaves capacity and storage alone. *)
Lemma borrowing_refuses_what_exceeds_capacity (v : ZyanVector) :
  borrowing v ->
  0 <= v.(size) ->
  1 <= v.(capacity) ->
  (forall e, v.(capacity) < v.(size) + 1 < 2 ^ 24 ->
     ZyanVectorPush (Some v) (Some e)
     = Ok (ZYAN_STATUS_INSUFFICIENT_BUFFER_SIZE, Some v)) /\
  (forall index e count,
     0 < count -> index <= v.(size) -> v.(capacity) < v.(size) + count < 2 ^ 24 ->
     ZyanVectorInsertElements (Some v) index (Some e) count
     = Ok (ZYAN_STATUS_INSUFFICIENT_BUFFER_SIZE, Some v)) /\
  (forall size', v.(capacity) < size' < 2 ^ 24 ->
     ZyanVectorResize (Some v) size'
     = Ok (ZYAN_STATUS_INSUFFICIENT_BUFFER_SIZE, Some v)) /\
  (forall capacity', v.(capacity) < capacity' ->
     ZyanVectorReserve (Some v) capacity'
     = Ok (ZYAN_STATUS_INSUFFICIENT_BUFFER_SIZE, Some v)) /\
  (forall size', 0 <= size' <= v.(capacity) ->
     ZyanVectorResize (Some v) size'
     = Ok (ZYAN_STATUS_SUCCESS, Some (set_size v size'))) /\
  (forall capacity', capacity' <= v.(capacity) ->
     ZyanVectorReserve (Some v) capacity' = Ok (ZYAN_STATUS_SUCCESS, Some v)).
Proof.
  intros (Ha & Hgf & Hthr) Hsize Hcap.
  assert (HM := ZYAN_USIZE_MODULUS_value).
  assert (Hrefuse : forall n, v.(capacity) < n < 2 ^ 24 ->
    scaled_size v n = Ok n /\ ZYAN_MAX 1 n = n /\
    ZyanVectorReallocate v n = Ok (ZYAN_STATUS_INSUFFICIENT_BUFFER_SIZE, v)).
  { intros n Hn. split; [apply scaled_size_1_0; [exact Hgf | lia] |].
    split; [rewrite ZYAN_MAX_is_max; lia |].
    rewrite ZyanVectorReallocate_borrowing by exact Ha.
    replace (capacity v <? n) with true by (symmetry; apply Z.ltb_lt; lia).
    reflexivity. }
  assert (Hp24 : 2 ^ 24 = 16777216) by reflexivity.
  repeat split.
  - intros e Hn. unfold ZyanVectorPush.
    replace (usize_add (size v) 1) with (size v + 1)
      by (symmetry; apply usize_small; unfold in_usize; lia).
    destruct (Hrefuse _ Hn) as (-> & Hmax & Hre).
    unfold ZYAN_VECTOR_SHOULD_GROW.
    replace (capacity v <? size v + 1) with true by (symmetry; apply Z.ltb_lt; lia).
    cbn [bind]. rewrite Hmax, Hre. reflexivity.
  - intros index e count Hcount Hindex Hn. unfold ZyanVectorInsertElements.
    replace (count =? 0) with false by (symmetry; apply Z.eqb_neq; lia).
    replace (size v <? index) with false by (symmetry; apply Z.ltb_ge; lia).
    replace (usize_add (size v) count) with (size v + count)
      by (symmetry; apply usize_small; unfold in_usize; lia).
    destruct (Hrefuse _ Hn) as (-> & Hmax & Hre).
    unfold ZYAN_VECTOR_SHOULD_GROW.
    replace (capacity v <? size v + count) with true by (symmetry; apply Z.ltb_lt; lia).
    cbn [bind]. rewrite Hmax, Hre. reflexivity.
  - intros size' Hn. unfold ZyanVectorResize.
    destruct (Hrefuse _ Hn) as (-> & _ & Hre).
    unfold ZYAN_VECTOR_SHOULD_GROW.
    replace (capacity v <? size') with true by (symmetry; apply Z.ltb_lt; lia).
    cbn [orb bind]. rewrite Hre. reflexivity.
  - intros capacity' Hn. unfold ZyanVectorReserve.
    replace (capacity v <? capacity') with true by (symmetry; apply Z.ltb_lt; lia).
    rewrite ZyanVectorReallocate_borrowing by exact Ha.
    replace (capacity v <? capacity') with true by (symmetry; apply Z.ltb_lt; lia).
    reflexivity.
  - intros size' Hn. unfold ZyanVectorResize, ZYAN_VECTOR_SHOULD_GROW.
    replace (capacity v <? size') with false by (symmetry; apply Z.ltb_ge; lia).
    rewrite Hthr, should_shrink_disabled by lia. reflexivity.
  - intros capacity' Hn. unfold ZyanVectorReserve.
    replace (capacity v <? capacity') with false by (symmetry; apply Z.ltb_ge; lia).
    reflexivity.
Qed.

(** C6.  A vector over a caller's buffer of 33554432 (2^25) one-byte
    elements accepts [ZyanVectorResize] to 33554433: the request is converted
    to [float], where it rounds to 33554432, so the capacity test sees nothing
    to refuse; the call succeeds and leaves the size above the capacity.
    Likewise a push onto the full buffer is not refused and writes past it. *)
Theorem borrowed_vector_accepts_size_above_capacity
    (uninitialised : ZyanVector) (contents : Z -> byte) :
  exists v0 v',
    ZyanVectorInitBuffer (Some uninitialised) 1
      (Some (mkBuffer 33554432 contents)) 33554432
    = Ok (ZYAN_STATUS_SUCCESS, Some v0) /\
    v0.(allocator) = None /\
    v0.(capacity) = 33554432 /\
    ZyanVectorResize (Some v0) 33554433 = Ok (ZYAN_STATUS_SUCCESS, Some v') /\
    v'.(size) = 33554433 /\
    v'.(capacity) = 33554432 /\
    perform_all [OpResize 33554432; OpPush (Some (buffer_of_list ["A"%byte]))] (Some v0)
    = Undefined OutOfBounds.
Proof.
  eexists. eexists.
  split; [reflexivity |].
  split; [reflexivity |].
  split; [reflexivity |].
  split; [vm_compute; reflexivity |].
  split; [reflexivity |].
  split; [reflexivity |].
  vm_compute. reflexivity.
Qed.

(* ================================================================== *)
(** * Insertion followed by deletion (C4)                             *)
(* ================================================================== *)

(** The part of a single insertion after the optional growth: the tail is
    moved up by one element and the new element is written. *)
Lemma insert_tail_bytes (w : ZyanVector) (b e : buffer) (index : Z)
    (r : ZyanStatus * ZyanVector) :
  w.(data) = Some b ->
  0 < w.(element_size) ->
  0 <= index <= w.(size) ->
  (w.(size) + 1) * w.(element_size) < ZYAN_USIZE_MODULUS ->
  ZYAN_CHECK
    (if index <? w.(size) then ZyanVectorShiftRight w index 1
     else Ok (ZYAN_STATUS_SUCCESS, w))
    (fun v =>
       let offset := ZYAN_VECTOR_OFFSET v index in
       d <- ZYAN_MEMCPY v.(data) offset e (usize_mul 1 v.(element_size)) ;;
       let v := set_data v d in
       Ok (ZYAN_STATUS_SUCCESS, set_size v (usize_add v.(size) 1))) = Ok r ->
  same_mode w (snd r) /\
  (snd r).(size) = w.(size) + 1 /\
  (w.(size) + 1) * w.(element_size) <= buf_len b /\
  exists b1, (snd r).(data) = Some b1 /\ buf_len b1 = buf_len b /\
    (forall i, 0 <= i < index * w.(element_size) -> buf_at b1 i = buf_at b i) /\
    (forall i, (index + 1) * w.(element_size) <= i < (w.(size) + 1) * w.(element_size) ->
       buf_at b1 i = buf_at b (i - w.(element_size))).
Proof.
  intros Hdata Hes Hindex Hwrap Hrun.
  assert (HM := ZYAN_USIZE_MODULUS_value).
  destruct (shift_quantities w index 1) as (Hsrc & Hdst & Hmoved); try lia.
  assert (Hone : usize_mul 1 w.(element_size) = w.(element_size)).
  { unfold usize_mul. rewrite Z.mul_1_l. apply usize_small. unfold in_usize. nia. }
  assert (Hnext : usize_add w.(size) 1 = w.(size) + 1).
  { unfold usize_add. apply usize_small. unfold in_usize. nia. }
  unfold ZYAN_CHECK, ZyanVectorShiftRight in Hrun.
  destruct (Z.ltb_spec index (size w)) as [Hlt | Hge].
  - rewrite Hsrc, Hdst, Hmoved in Hrun.
    destruct (ZYAN_MEMMOVE _ _ _ _) as [d |] eqn:Hmove; [| discriminate].
    apply ZYAN_MEMMOVE_inv in Hmove.
    destruct Hmove as (b' & Hb' & Hm1 & Hm2 & ->).
    rewrite Hdata in Hb'. injection Hb' as <-.
    cbn [bind fst snd ZYAN_SUCCESS] in Hrun.
    change (ZYAN_VECTOR_OFFSET (set_data w _) index) with (ZYAN_VECTOR_OFFSET w index) in Hrun.
    cbn [data set_data element_size size] in Hrun.
    rewrite Hdst, Hone in Hrun.
    destruct (ZYAN_MEMCPY _ _ _ _) as [d |] eqn:Hcopy; [| discriminate].
    apply ZYAN_MEMCPY_inv in Hcopy.
    destruct Hcopy as (b' & [= <-] & Hc1 & Hc2 & ->).
    cbn [bind] in Hrun. injection Hrun as <-.
    cbn [snd size set_size set_data data buf_len buf_at].
    split; [same_mode_by_fields |]. split; [exact Hnext |].
    split; [nia |].
    eexists. split; [reflexivity |]. split; [reflexivity |]. cbn [buf_at].
    split; intros i Hi.
    + replace (index * element_size w <=? i) with false by (symmetry; apply Z.leb_gt; lia).
      replace ((index + 1) * element_size w <=? i) with false
        by (symmetry; apply Z.leb_gt; nia).
      reflexivity.
    + replace (i <? index * element_size w + element_size w) with false
        by (symmetry; apply Z.ltb_ge; nia).
      rewrite andb_false_r.
      replace ((index + 1) * element_size w <=? i) with true
        by (symmetry; apply Z.leb_le; lia).
      replace (i <? (index + 1) * element_size w + (size w - index) * element_size w)
        with true by (symmetry; apply Z.ltb_lt; nia).
      cbn [andb]. f_equal. nia.
  - assert (index = size w) by lia. subst index.
    cbn [bind fst snd ZYAN_SUCCESS] in Hrun.
    rewrite Hdst, Hone, Hdata in Hrun.
    destruct (ZYAN_MEMCPY _ _ _ _) as [d |] eqn:Hcopy; [| discriminate].
    apply ZYAN_MEMCPY_inv in Hcopy.
    destruct Hcopy as (b' & [= <-] & Hc1 & Hc2 & ->).
    cbn [bind] in Hrun. injection Hrun as <-.
    cbn [snd size set_size set_data data].
    split; [same_mode_by_fields |]. split; [exact Hnext |].
    split; [nia |].
    eexists. split; [reflexivity |]. split; [reflexivity |]. cbn [buf_at].
    split; intros i Hi.
    + replace (size w * element_size w <=? i) with false by (symmetry; apply Z.leb_gt; lia).
      reflexivity.
    + nia.
Qed.

(** Where C4 holds.  Inserting one element and deleting it again at the same
    index restores the sequence whenever both calls succeed and the capacity
    they leave is not below the size.  (The allocator is supposed to keep the
    bytes on reallocation; nothing wraps.) *)
Lemma insert_then_delete_restores
    (v v1 v2 : ZyanVector) (b : buffer) (element : option buffer) (index : Z) :
  (forall a, v.(allocator) = Some a -> reallocate_keeps a) ->
  v.(data) = Some b ->
  0 < v.(element_size) ->
  0 <= index ->
  0 <= v.(size) <= v.(capacity) ->
  v.(capacity) * v.(element_size) <= buf_len b ->
  (v.(size) + 2) * v.(element_size) < ZYAN_USIZE_MODULUS ->
  ZyanVectorInsert (Some v) index element = Ok (ZYAN_STATUS_SUCCESS, Some v1) ->
  ZyanVectorDelete (Some v1) index = Ok (ZYAN_STATUS_SUCCESS, Some v2) ->
  v.(size) <= v2.(capacity) ->
  same_sequence v v2.
Proof.
  intros Hkeeps Hdata Hes Hindex Hsize Hfits Hwrap Hinsert Hdelete Hcap2.
  assert (HM := ZYAN_USIZE_MODULUS_value).
  (* the insertion *)
  unfold ZyanVectorInsert, ZyanVectorInsertElements in Hinsert.
  destruct element as [e |]; [| discriminate].
  change (1 =? 0) with false in Hinsert. cbv iota in Hinsert.
  destruct (Z.ltb_spec (size v) index) as [| Hle]; [discriminate |].
  apply through_pointer_inv in Hinsert. destruct Hinsert as (v1' & Hinsert & [= <-]).
  unfold ZYAN_CHECK at 1 in Hinsert.
  match type of Hinsert with
  | bind ?c _ = _ => destruct c as [[st0 w0] |] eqn:Hgrow; [| discriminate]
  end.
  cbn [bind fst snd] in Hinsert.
  destruct st0; cbn [ZYAN_SUCCESS] in Hinsert; try discriminate.
  apply (guarded_reallocation_storage v w0 b _ _ (ZYAN_MAX 1) Hkeeps Hdata Hfits) in Hgrow.
  destruct Hgrow as ((Ha0 & Hg0 & Ht0 & Hs0 & He0) & b0 & Hd0 & Hf0 & Hpre0).
  apply (insert_tail_bytes w0 b0 e index) in Hinsert;
    [| exact Hd0 | lia | lia | rewrite Hs0, He0; nia].
  cbn [snd] in Hinsert.
  destruct Hinsert as ((Ha1 & Hg1 & Ht1 & Hc1 & He1) & Hs1 & Hlen0 & b1 & Hd1 & Hl1 & Hlow1 & Hhigh1).
  rewrite Hs0, He0 in *.
  (* the deletion *)
  assert (Hkeeps1 : forall a, v1.(allocator) = Some a -> reallocate_keeps a)
    by (intros a Hv1; apply Hkeeps; congruence).
  destruct (delete_elements_closes_gap v1 v2 b1 index 1 Hkeeps1 Hd1) as
    (Hs2 & He2 & b2 & Hd2 & Hf2 & Hlow2 & Hhigh2);
    try lia; try (rewrite ?Hs1, ?He1, ?Hc1, ?Hl1; nia); try exact Hdelete.
  rewrite He1, Hs1 in *.
  apply (same_sequence_of_bytes v v2 b b2); try assumption; try lia; try nia.
  intros i Hi.
  destruct (Z.lt_ge_cases i (index * element_size v)) as [Hbelow | Habove].
  - rewrite Hlow2, Hlow1 by nia. apply Hpre0; nia.
  - rewrite Hhigh2 by nia. rewrite Hhigh1 by nia.
    replace (i + 1 * element_size v - element_size v) with i by lia.
    apply Hpre0; nia.
Qed.

(** C4.  An owning vector with growth factor 1.0 and the default shrink
    threshold holds 33554433 (2^25 + 1) one-byte elements in a storage of
    2^28.  Inserting an element at the end and deleting it again both succeed,
    but the deletion triggers a shrink whose target, computed in [float], is
    33554432: the storage is cut below the size and the last element is
    gone. *)
Theorem insert_then_delete_loses_last_element
    (v : ZyanVector) (a : ZyanAllocator) (b e : buffer) :
  v.(allocator) = Some a ->
  reallocate_keeps a ->
  (forall p, fst (a.(reallocate) p 1 33554432) = ZYAN_STATUS_SUCCESS) ->
  v.(growth_factor) = float_1_0 ->
  v.(shrink_threshold) = float_0_25 ->
  v.(size) = 33554433 ->
  v.(capacity) = 268435456 ->
  v.(element_size) = 1 ->
  v.(data) = Some b ->
  buf_len b = 268435456 ->
  1 <= buf_len e ->
  exists v1 v2,
    ZyanVectorInsert (Some v) 33554433 (Some e) = Ok (ZYAN_STATUS_SUCCESS, Some v1) /\
    ZyanVectorDelete (Some v1) 33554433 = Ok (ZYAN_STATUS_SUCCESS, Some v2) /\
    v2.(size) = v.(size) /\
    v2.(capacity) = 33554432 /\
    read_element v 33554432 = Ok [buf_at b 33554432] /\
    read_element v2 33554432 = Undefined OutOfBounds /\
    ~ same_sequence v v2.
Proof.
  intros Ha Hkeeps Hok Hgf Hthr Hsize Hcap Hes Hdata Hlen Helen.
  set (d1 := mkBuffer (buf_len b)
               (fun i => if (33554433 <=? i) && (i <? 33554433 + 1)
                         then buf_at e (i - 33554433) else buf_at b i)).
  set (v1 := set_size (set_data v (Some d1)) 33554434).
  set (w := set_size v1 33554433).
  destruct (a.(reallocate) (Some d1) 1 33554432) as [st p] eqn:Hre.
  pose proof (Hok (Some d1)) as Hst. rewrite Hre in Hst. cbn [fst] in Hst. subst st.
  destruct (Hkeeps _ _ _ _ Hre) as (b' & -> & Hlen' & _).
  set (v2 := set_data (set_capacity w 33554432) (Some b')).
  assert (Hinsert : ZyanVectorInsert (Some v) 33554433 (Some e)
                    = Ok (ZYAN_STATUS_SUCCESS, Some v1)).
  { unfold ZyanVectorInsert, ZyanVectorInsertElements.
    rewrite Hsize, Hcap.
    change (1 =? 0) with false. change (33554433 <? 33554433) with false.
    change (ZYAN_VECTOR_SHOULD_GROW (usize_add 33554433 1) 268435456) with false.
    cbv iota. unfold through_pointer, ZYAN_CHECK. cbn [bind fst snd ZYAN_SUCCESS].
    rewrite Hsize. change (33554433 <? 33554433) with false.
    cbn [bind fst snd ZYAN_SUCCESS].
    unfold ZYAN_VECTOR_OFFSET. rewrite Hes, Hdata.
    change (usize_mul 33554433 1) with 33554433. change (usize_mul 1 1) with 1.
    rewrite ZYAN_MEMCPY_in_bounds by lia.
    cbn [bind size set_data]. rewrite Hsize.
    change (usize_add 33554433 1) with 33554434. reflexivity. }
  assert (Hdelete : ZyanVectorDelete (Some v1) 33554433
                    = Ok (ZYAN_STATUS_SUCCESS, Some v2)).
  { unfold ZyanVectorDelete, ZyanVectorDeleteElements.
    change (size v1) with 33554434.
    change (1 =? 0) with false. change (33554434 <=? 33554433) with false.
    change (33554433 <? usize_sub 33554434 1) with false.
    cbv iota. unfold through_pointer, ZYAN_CHECK. cbn [bind fst snd ZYAN_SUCCESS].
    change (size v1) with 33554434.
    change (usize_sub 33554434 1) with 33554433. fold w.
    change (size w) with 33554433. change (capacity w) with (capacity v).
    change (shrink_threshold w) with (shrink_threshold v).
    rewrite Hcap, Hthr.
    change (ZYAN_VECTOR_SHOULD_SHRINK 33554433 268435456 float_0_25) with true.
    cbv iota.
    assert (Hscaled : scaled_size w 33554433 = Ok 33554432).
    { unfold scaled_size. change (growth_factor w) with (growth_factor v).
      rewrite Hgf. reflexivity. }
    rewrite Hscaled. cbn [bind]. change (ZYAN_MAX 1 33554432) with 33554432.
    rewrite (ZyanVectorReallocate_owning_success w a 33554432 (Some b')).
    - reflexivity.
    - exact Ha.
    - lia.
    - change (data w) with (Some d1). change (element_size w) with (element_size v).
      rewrite Hes. exact Hre. }
  assert (Hread2 : read_element v2 33554432 = Undefined OutOfBounds).
  { unfold read_element, ZyanVectorGetConst.
    change (size v2) with 33554433. change (33554433 <=? 33554432) with false.
    cbn [bind]. unfold ZYAN_VECTOR_OFFSET.
    change (element_size v2) with (element_size v). rewrite Hes.
    change (usize_mul 33554432 1) with 33554432.
    change (data v2) with (Some b'). cbv beta iota. rewrite Hlen'. reflexivity. }
  assert (Hread : read_element v 33554432 = Ok [buf_at b 33554432]).
  { unfold read_element, ZyanVectorGetConst.
    rewrite Hsize. change (33554433 <=? 33554432) with false.
    cbn [bind]. unfold ZYAN_VECTOR_OFFSET. rewrite Hes, Hdata.
    change (usize_mul 33554432 1) with 33554432. cbv beta iota. rewrite Hlen.
    reflexivity. }
  exists v1, v2.
  split; [exact Hinsert |]. split; [exact Hdelete |].
  split; [symmetry; exact Hsize |]. split; [reflexivity |].
  split; [exact Hread |]. split; [exact Hread2 |].
  intros [_ Hsame]. destruct (Hsame 33554432) as (bytes & _ & Hbytes).
  - rewrite Hsize. lia.
  - rewrite Hread2 in Hbytes. discriminate Hbytes.
Qed.

Lemma insert_then_delete_loses_last_element_witness :
  let b := mkBuffer 268435456 (fun _ => "Z"%byte) in
  let v := mkVector (Some heap_allocator) float_1_0 float_0_25
             33554433 268435456 1 (Some b) in
  exists v1 v2,
    ZyanVectorInsert (Some v) 33554433 (Some (buffer_of_list ["X"%byte]))
    = Ok (ZYAN_STATUS_SUCCESS, Some v1) /\
    ZyanVectorDelete (Some v1) 33554433 = Ok (ZYAN_STATUS_SUCCESS, Some v2) /\
    v2.(size) = v.(size) /\
    v2.(capacity) = 33554432 /\
    read_element v 33554432 = Ok [buf_at b 33554432] /\
    read_element v2 33554432 = Undefined OutOfBounds /\
    ~ same_sequence v v2.
Proof.
  intros b v.
  apply (insert_then_delete_loses_last_element v heap_allocator b
           (buffer_of_list ["X"%byte]));
    try reflexivity; try apply heap_allocator_keeps.
Defined.

(* ================================================================== *)
(** * Single precision: powers of two                                 *)
(* ================================================================== *)

(** Multiplying a float of 24 digits by a power of two moves its exponent. *)
Lemma float_mul_pow2 (m : positive) (e k : Z) :
  Z.pos (digits2_pos m) = 24 -> -149 <= e + k + 23 <= 104 ->
  float_mul (S754_finite false m e) (S754_finite false 8388608 k)
  = S754_finite false m (e + k + 23).
Proof.
  intros Hd He. unfold float_mul, SFmul. cbn [xorb].
  rewrite Pos.mul_comm.
  unfold binary_round_aux, shr_fexp.
  cbn [Pos.mul Zdigits2 digits2_pos shr_record_of_loc].
  replace (Z.pos (Pos.succ (Pos.succ (Pos.succ (Pos.succ (Pos.succ (Pos.succ (Pos.succ
            (Pos.succ (Pos.succ (Pos.succ (Pos.succ (Pos.succ (Pos.succ (Pos.succ (Pos.succ
            (Pos.succ (Pos.succ (Pos.succ (Pos.succ (Pos.succ (Pos.succ (Pos.succ (Pos.succ
            (digits2_pos m)))))))))))))))))))))))))
    with 47 by (rewrite !Pos2Z.inj_succ; lia).
  replace (fexp FLOAT_PREC FLOAT_EMAX (47 + (e + k)) - (e + k)) with 23
    by (unfold fexp, emin, FLOAT_PREC, FLOAT_EMAX; lia).
  cbn [shr SpecFloat.iter_pos shr_1 orb shr_m loc_of_shr_record round_nearest_even
       Zdigits2 shr_record_of_loc].
  rewrite Hd.
  replace (fexp FLOAT_PREC FLOAT_EMAX (24 + (e + k + 23)) - (e + k + 23)) with 0
    by (unfold fexp, emin, FLOAT_PREC, FLOAT_EMAX; lia).
  cbn [shr shr_m].
  replace (e + k + 23 <=? FLOAT_EMAX - FLOAT_PREC) with true
    by (symmetry; apply Z.leb_le; unfold FLOAT_PREC, FLOAT_EMAX; lia).
  reflexivity.
Qed.

(** The growth factor of a vector over a caller's buffer scales sizes below
    2^24 to themselves. *)
Lemma scales_up_1_0 : scales_up float_1_0 (2 ^ 24).
Proof.
  intros n Hn. exists n. split; [| lia].
  exact (scaled_size_1_0 (mkVector None float_1_0 float_0_0 0 0 0 None) n eq_refl Hn).
Qed.

(** The default growth factor doubles sizes below 2^24. *)
Lemma scaled_size_2_0 (v : ZyanVector) (n : Z) :
  v.(growth_factor) = float_2_0 -> 0 <= n < 2 ^ 24 -> scaled_size v n = Ok (2 * n).
Proof.
  intros Hgf Hn. unfold scaled_size. rewrite Hgf.
  destruct (Z.eq_dec n 0) as [-> | Hn0]; [reflexivity |].
  destruct (float_of_usize_small n) as (m & e & -> & Hd & He & Hm); [lia |].
  change float_2_0 with (S754_finite false 8388608 (-22)).
  rewrite float_mul_pow2 by (try assumption; lia).
  unfold usize_of_float, float_trunc.
  assert (Hshift : Z.shiftl (Z.pos m) (e + -22 + 23) = 2 * n).
  { rewrite Hm. destruct (Z.eq_dec e 0) as [-> | He0].
    - change (Z.shiftl (n * 2 ^ (- 0)) (0 + -22 + 23)) with (Z.shiftl (n * 1) 1).
      rewrite Z.shiftl_mul_pow2 by lia. change (2 ^ 1) with 2. lia.
    - rewrite Z.shiftl_div_pow2 by lia.
      replace (- e) with (1 + - (e + -22 + 23)) by lia.
      rewrite Z.pow_add_r by lia. change (2 ^ 1) with 2.
      rewrite Z.mul_assoc, Z.div_mul by (apply Z.pow_nonzero; lia). lia. }
  rewrite Hshift.
  replace (0 <=? 2 * n) with true by (symmetry; apply Z.leb_le; lia).
  replace (2 * n <? ZYAN_USIZE_MODULUS) with true
    by (symmetry; apply Z.ltb_lt; rewrite ZYAN_USIZE_MODULUS_value; lia).
  reflexivity.
Qed.

Lemma scales_up_2_0 : scales_up float_2_0 (2 ^ 24).
Proof.
  intros n Hn. exists (2 * n). split; [| lia].
  exact (scaled_size_2_0 (mkVector None float_2_0 float_0_0 0 0 0 None) n eq_refl Hn).
Qed.

Lemma digits2_pos_bounds (p : positive) :
  2 ^ (Z.pos (digits2_pos p) - 1) <= Z.pos p < 2 ^ Z.pos (digits2_pos p).
Proof.
  induction p as [p IH | p IH |].
  - cbn [digits2_pos]. rewrite Pos2Z.inj_succ, (Pos2Z.inj_xI p).
    replace (Z.succ (Z.pos (digits2_pos p)) - 1)
      with (Z.succ (Z.pos (digits2_pos p) - 1)) by lia.
    rewrite !Z.pow_succ_r by lia. lia.
  - cbn [digits2_pos]. rewrite Pos2Z.inj_succ, (Pos2Z.inj_xO p).
    replace (Z.succ (Z.pos (digits2_pos p)) - 1)
      with (Z.succ (Z.pos (digits2_pos p) - 1)) by lia.
    rewrite !Z.pow_succ_r by lia. lia.
  - cbn. lia.
Qed.

(** The default shrink threshold on sizes and capacities below 2^24: the
    vector shrinks when fewer than a quarter of its slots are in use. *)
Lemma should_shrink_0_25 (s c : Z) :
  0 <= s < 2 ^ 24 -> 0 <= c < 2 ^ 24 ->
  ZYAN_VECTOR_SHOULD_SHRINK s c float_0_25 = (4 * s <? c).
Proof.
  intros Hs Hc. unfold ZYAN_VECTOR_SHOULD_SHRINK.
  assert (H24 : 2 ^ 24 = 16777216) by reflexivity.
  destruct (Z.eq_dec c 0) as [-> | Hc0].
  - change (float_mul (float_of_usize 0) float_0_25) with (S754_zero false).
    replace (4 * s <? 0) with false by (symmetry; apply Z.ltb_ge; lia).
    destruct (Z.eq_dec s 0) as [-> | Hs0]; [reflexivity |].
    destruct (float_of_usize_small s) as (m & e & -> & _); [lia |]. reflexivity.
  - destruct (float_of_usize_small c) as (m2 & e2 & -> & Hd2 & He2 & Hm2); [lia |].
    change float_0_25 with (S754_finite false 8388608 (-25)).
    rewrite float_mul_pow2 by (try assumption; lia).
    destruct (Z.eq_dec s 0) as [-> | Hs0].
    + replace (4 * 0 <? c) with true by (symmetry; apply Z.ltb_lt; lia). reflexivity.
    + destruct (float_of_usize_small s) as (m1 & e1 & -> & Hd1 & He1 & Hm1); [lia |].
      unfold float_lt, SFltb, SFcompare.
      pose proof (digits2_pos_bounds m1) as Hb1. rewrite Hd1 in Hb1.
      pose proof (digits2_pos_bounds m2) as Hb2. rewrite Hd2 in Hb2.
      change (2 ^ (24 - 1)) with 8388608 in Hb1, Hb2. rewrite H24 in Hb1, Hb2.
      rewrite Hm1 in Hb1. rewrite Hm2 in Hb2.
      assert (Hp1 : 0 < 2 ^ (- e1)) by (apply Z.pow_pos_nonneg; lia).
      assert (Hp2 : 0 < 2 ^ (- e2)) by (apply Z.pow_pos_nonneg; lia).
      destruct (Z.compare_spec e1 (e2 + -25 + 23)) as [Heq | Hlt | Hgt].
      * rewrite Pos.compare_cont_spec. cbn [Pos.switch_Eq].
        change (Pos.compare m1 m2) with (Z.compare (Z.pos m1) (Z.pos m2)).
        rewrite Hm1, Hm2.
        replace (- e1) with (2 + - e2) by lia.
        rewrite Z.pow_add_r by lia. change (2 ^ 2) with 4.
        destruct (Z.compare_spec (s * (4 * 2 ^ (- e2))) (c * 2 ^ (- e2))) as [H | H | H];
          symmetry; [apply Z.ltb_ge | apply Z.ltb_lt | apply Z.ltb_ge]; nia.
      * symmetry. apply Z.ltb_lt.
        assert (Hq : 2 ^ (- e1) = 2 ^ (- e1 - (- e2)) * 2 ^ (- e2))
          by (rewrite <- Z.pow_add_r by lia; f_equal; lia).
        assert (Hq8 : 2 ^ 3 <= 2 ^ (- e1 - (- e2))) by (apply Z.pow_le_mono_r; lia).
        change (2 ^ 3) with 8 in Hq8. rewrite Hq in Hb1. nia.
      * symmetry. apply Z.ltb_ge.
        destruct (Z.eq_dec e1 0) as [-> | He0].
        -- change (2 ^ (- 0)) with 1 in Hb1. lia.
        -- assert (Hq : 2 ^ (- e2) = 2 ^ (- e2 - (- e1 - 1)) * 2 ^ (- e1 - 1))
             by (rewrite <- Z.pow_add_r by lia; f_equal; lia).
           assert (Hq1 : 1 <= 2 ^ (- e2 - (- e1 - 1)))
             by (change 1 with (2 ^ 0) at 1; apply Z.pow_le_mono_r; lia).
           assert (Hh : 2 ^ (- e1) = 2 * 2 ^ (- e1 - 1)).
           { rewrite <- Z.pow_succ_r by lia. f_equal. lia. }
           assert (Hp : 0 < 2 ^ (- e1 - 1)) by (apply Z.pow_pos_nonneg; lia).
           rewrite Hq in Hb2. rewrite Hh in Hb1. nia.
Qed.

(* ================================================================== *)
(** * Reallocation of a consistent vector                             *)
(* ================================================================== *)

(** The capacity [ZyanVectorReallocate] leaves: with an allocator the
    request floored at one, whatever the allocator answers; on success never
    less than the request. *)
Lemma ZyanVectorReallocate_capacity
    (v w : ZyanVector) (capacity' : Z) (status : ZyanStatus) :
  1 <= v.(capacity) ->
  ZyanVectorReallocate v capacity' = Ok (status, w) ->
  (v.(allocator) <> None -> w.(capacity) = Z.max 1 capacity') /\
  (status = ZYAN_STATUS_SUCCESS -> capacity' <= w.(capacity)).
Proof.
  intros Hcap. unfold ZyanVectorReallocate.
  destruct (allocator v) as [a |] eqn:Ha.
  - assert (Hcall : forall c, 1 <= c ->
      (let vector := set_capacity v c in
       let '(status, p) :=
         a.(reallocate) vector.(data) vector.(element_size) vector.(capacity) in
       let vector := set_data vector p in
       if ZYAN_SUCCESS status then Ok (ZYAN_STATUS_SUCCESS, vector)
       else Ok (status, vector)) = Ok (status, w) -> w.(capacity) = c).
    { intros c Hc. cbv zeta. destruct (reallocate a _ _ _) as [st p].
      destruct (ZYAN_SUCCESS st); intros [= _ <-]; reflexivity. }
    unfold ZYAN_VECTOR_MIN_CAPACITY.
    destruct (Z.ltb_spec capacity' 1) as [Hlt | Hge].
    + destruct (Z.ltb_spec 1 (capacity v)) as [Hbig | Hone].
      * intros Hrun. apply Hcall in Hrun; [| lia]. split; intros; lia.
      * intros [= _ <-]. split; intros; lia.
    + intros Hrun. apply Hcall in Hrun; [| lia]. split; intros; lia.
  - destruct (Z.ltb_spec (capacity v) capacity') as [Hlt | Hge]; intros [= <- <-].
    + split; [congruence | discriminate].
    + split; [congruence | intros _; exact Hge].
Qed.

(** With an allocator that never refuses, [ZyanVectorReallocate] succeeds. *)
Lemma ZyanVectorReallocate_grows_freely
    (v w : ZyanVector) (capacity' : Z) (status : ZyanStatus) :
  grows_freely v ->
  ZyanVectorReallocate v capacity' = Ok (status, w) ->
  status = ZYAN_STATUS_SUCCESS.
Proof.
  intros (a & Ha & Hok). unfold ZyanVectorReallocate. rewrite Ha.
  assert (Hcall : forall c,
    (let vector := set_capacity v c in
     let '(status, p) :=
       a.(reallocate) vector.(data) vector.(element_size) vector.(capacity) in
     let vector := set_data vector p in
     if ZYAN_SUCCESS status then Ok (ZYAN_STATUS_SUCCESS, vector)
     else Ok (status, vector)) = Ok (status, w) -> status = ZYAN_STATUS_SUCCESS).
  { intros c. cbv zeta. cbn [set_capacity data element_size capacity].
    pose proof (Hok (data v) (element_size v) c) as Hc.
    destruct (reallocate a (data v) (element_size v) c) as [st p]. cbn [fst] in Hc.
    subst st. cbn [ZYAN_SUCCESS]. intros [= <- _]. reflexivity. }
  destruct (capacity' <? ZYAN_VECTOR_MIN_CAPACITY).
  - destruct (ZYAN_VECTOR_MIN_CAPACITY <? capacity v).
    + apply Hcall.
    + intros [= <- _]. reflexivity.
  - apply Hcall.
Qed.

(** The optional reallocation that opens a growing or a shrinking call, on a
    growth factor that scales the desired size without loss: it returns; a
    success leaves a storage that holds the new capacity, which is not below
    the desired size when a reallocation was due, and keeps the bytes. *)
Lemma scaled_reallocation_step
    (v : ZyanVector) (b : buffer) (guard : bool) (desired limit : Z) (f : Z -> Z) :
  (forall a, v.(allocator) = Some a -> reallocate_keeps a) ->
  v.(data) = Some b ->
  v.(capacity) * v.(element_size) <= buf_len b ->
  1 <= v.(capacity) ->
  scales_up v.(growth_factor) limit ->
  0 <= desired < limit ->
  (forall n, n <= f n) ->
  exists status w,
    (if guard then n <- scaled_size v desired ;; ZyanVectorReallocate v (f n)
     else Ok (ZYAN_STATUS_SUCCESS, v)) = Ok (status, w) /\
    (guard = false -> status = ZYAN_STATUS_SUCCESS /\ w = v) /\
    (grows_freely v -> status = ZYAN_STATUS_SUCCESS) /\
    (v.(allocator) = None -> w = v) /\
    (status = ZYAN_STATUS_SUCCESS ->
     same_header v w /\
     1 <= w.(capacity) /\
     (if guard then desired <= w.(capacity) else w.(capacity) = v.(capacity)) /\
     exists b', w.(data) = Some b' /\
       w.(capacity) * w.(element_size) <= buf_len b' /\
       forall i, 0 <= i -> i < buf_len b -> i < buf_len b' -> buf_at b' i = buf_at b i).
Proof.
  intros Hkeeps Hdata Hfits Hcap Hscale Hdesired Hf.
  destruct guard.
  - destruct (Hscale desired Hdesired) as (m & Hm & Hle).
    unfold scaled_size. rewrite Hm. cbn [bind].
    destruct (ZyanVectorReallocate_returns v (f m)) as (status & w & Hre & _).
    exists status, w. split; [exact Hre |].
    split; [discriminate |].
    split; [intros Hfree; exact (ZyanVectorReallocate_grows_freely _ _ _ _ Hfree Hre) |].
    split.
    { intros Hnone. rewrite ZyanVectorReallocate_borrowing in Hre by exact Hnone.
      injection Hre as _ <-. reflexivity. }
    intros ->.
    destruct (ZyanVectorReallocate_success_storage v w (f m) b Hkeeps Hdata Hfits Hre)
      as (Hh & Hstore).
    destruct (ZyanVectorReallocate_capacity v w (f m) _ Hcap Hre) as (_ & Hge).
    pose proof (ZyanVectorReallocate_policy _ _ _ Hre) as (_ & _ & _ & _ & Hone & _).
    cbn [snd] in Hone. specialize (Hf m). specialize (Hge eq_refl).
    split; [exact Hh |]. split; [exact (Hone Hcap) |]. split; [lia | exact Hstore].
  - exists ZYAN_STATUS_SUCCESS, v. split; [reflexivity |].
    split; [auto |]. split; [auto |]. split; [auto |]. intros _.
    split; [unfold same_header; auto |]. split; [exact Hcap |]. split; [reflexivity |].
    exists b. auto.
Qed.

Lemma ZYAN_MAX_ge (n : Z) : n <= ZYAN_MAX 1 n.
Proof. rewrite ZYAN_MAX_is_max. lia. Qed.

(* ================================================================== *)
(** * Insertion into a consistent vector                              *)
(* ================================================================== *)

(** The part of an insertion after the optional growth, in a storage with
    room for [count] more elements: the tail is moved up by [count] elements
    and the block of the caller is written into the gap. *)
Lemma insert_block_runs (w : ZyanVector) (b e : buffer) (index count : Z) :
  w.(data) = Some b ->
  0 < w.(element_size) ->
  0 <= index <= w.(size) ->
  0 < count ->
  (w.(size) + count) * w.(element_size) < ZYAN_USIZE_MODULUS ->
  (w.(size) + count) * w.(element_size) <= buf_len b ->
  count * w.(element_size) <= buf_len e ->
  exists b1,
    ZYAN_CHECK
      (if index <? w.(size) then ZyanVectorShiftRight w index count
       else Ok (ZYAN_STATUS_SUCCESS, w))
      (fun v =>
         let offset := ZYAN_VECTOR_OFFSET v index in
         d <- ZYAN_MEMCPY v.(data) offset e (usize_mul count v.(element_size)) ;;
         let v := set_data v d in
         Ok (ZYAN_STATUS_SUCCESS, set_size v (usize_add v.(size) count)))
    = Ok (ZYAN_STATUS_SUCCESS, set_size (set_data w (Some b1)) (w.(size) + count)) /\
    buf_len b1 = buf_len b /\
    (forall i, 0 <= i < index * w.(element_size) -> buf_at b1 i = buf_at b i) /\
    (forall i, index * w.(element_size) <= i < (index + count) * w.(element_size) ->
       buf_at b1 i = buf_at e (i - index * w.(element_size))) /\
    (forall i, (index + count) * w.(element_size) <= i
               < (w.(size) + count) * w.(element_size) ->
       buf_at b1 i = buf_at b (i - count * w.(element_size))).
Proof.
  intros Hdata Hes Hindex Hcount Hwrap Hroom Hsource.
  assert (HM := ZYAN_USIZE_MODULUS_value).
  destruct (shift_quantities w index count) as (Hsrc & Hdst & Hmoved); try lia.
  assert (Hblock : usize_mul count w.(element_size) = count * w.(element_size)).
  { unfold usize_mul. apply usize_small. unfold in_usize. nia. }
  assert (Hnext : usize_add w.(size) count = w.(size) + count).
  { unfold usize_add. apply usize_small. unfold in_usize. nia. }
  unfold ZYAN_CHECK, ZyanVectorShiftRight.
  destruct (Z.ltb_spec index (size w)) as [Hlt | Hge].
  - rewrite Hsrc, Hdst, Hmoved, Hdata.
    rewrite ZYAN_MEMMOVE_in_bounds by nia.
    cbn [bind fst snd ZYAN_SUCCESS].
    change (ZYAN_VECTOR_OFFSET (set_data w _) index) with (ZYAN_VECTOR_OFFSET w index).
    cbn [data set_data element_size size].
    rewrite Hdst, Hblock.
    rewrite ZYAN_MEMCPY_in_bounds by (cbn [buf_len]; nia).
    cbn [bind size set_data]. rewrite Hnext.
    eexists. split; [reflexivity |]. split; [reflexivity |]. cbn [buf_at].
    split; [| split]; intros i Hi.
    + replace (index * element_size w <=? i) with false by (symmetry; apply Z.leb_gt; lia).
      replace ((index + count) * element_size w <=? i) with false
        by (symmetry; apply Z.leb_gt; nia).
      reflexivity.
    + replace (index * element_size w <=? i) with true by (symmetry; apply Z.leb_le; lia).
      replace (i <? index * element_size w + count * element_size w) with true
        by (symmetry; apply Z.ltb_lt; nia).
      reflexivity.
    + replace (i <? index * element_size w + count * element_size w) with false
        by (symmetry; apply Z.ltb_ge; nia).
      rewrite andb_false_r.
      replace ((index + count) * element_size w <=? i) with true
        by (symmetry; apply Z.leb_le; lia).
      replace (i <? (index + count) * element_size w + (size w - index) * element_size w)
        with true by (symmetry; apply Z.ltb_lt; nia).
      cbn [andb]. f_equal. nia.
  - assert (index = size w) by lia. subst index.
    cbn [bind fst snd ZYAN_SUCCESS].
    rewrite Hdst, Hblock, Hdata.
    rewrite ZYAN_MEMCPY_in_bounds by nia.
    cbn [bind size set_data]. rewrite Hnext.
    eexists. split; [reflexivity |]. split; [reflexivity |]. cbn [buf_at].
    split; [| split]; intros i Hi.
    + replace (size w * element_size w <=? i) with false by (symmetry; apply Z.leb_gt; lia).
      reflexivity.
    + replace (size w * element_size w <=? i) with true by (symmetry; apply Z.leb_le; lia).
      replace (i <? size w * element_size w + count * element_size w) with true
        by (symmetry; apply Z.ltb_lt; nia).
      reflexivity.
    + nia.
Qed.

(** [ZyanVectorInsertElements] on a consistent vector, with arguments in
    range: the call returns; it succeeds when the capacity suffices or the
    allocator never refuses; a success leaves a consistent vector with [count]
    more elements, the bytes before the gap kept, the caller's block in the
    gap and the old tail after it. *)
Lemma insert_elements_step
    (limit : Z) (v : ZyanVector) (b e : buffer) (index count : Z) :
  consistent v b ->
  (forall a, v.(allocator) = Some a -> reallocate_keeps a) ->
  scales_up v.(growth_factor) limit ->
  limit * v.(element_size) <= ZYAN_USIZE_MODULUS ->
  0 <= index <= v.(size) ->
  0 < count ->
  v.(size) + count < limit ->
  count * v.(element_size) <= buf_len e ->
  exists status w,
    ZyanVectorInsertElements (Some v) index (Some e) count = Ok (status, Some w) /\
    (v.(size) + count <= v.(capacity) \/ grows_freely v ->
     status = ZYAN_STATUS_SUCCESS) /\
    (status = ZYAN_STATUS_SUCCESS ->
     w.(size) = v.(size) + count /\
     w.(element_size) = v.(element_size) /\
     (v.(size) + count <= v.(capacity) -> w.(capacity) = v.(capacity)) /\
     exists b', consistent w b' /\
       (forall i, 0 <= i < index * v.(element_size) -> buf_at b' i = buf_at b i) /\
       (forall i, index * v.(element_size) <= i < (index + count) * v.(element_size) ->
          buf_at b' i = buf_at e (i - index * v.(element_size))) /\
       (forall i, (index + count) * v.(element_size) <= i
                  < (v.(size) + count) * v.(element_size) ->
          buf_at b' i = buf_at b (i - count * v.(element_size)))).
Proof.
  intros (Hdata & Hes & Hsize & Hcap & Hfits) Hkeeps Hscale Hlimit Hindex Hcount Hnew Hsource.
  assert (HM := ZYAN_USIZE_MODULUS_value).
  assert (Hsum : usize_add v.(size) count = v.(size) + count).
  { unfold usize_add. apply usize_small. unfold in_usize. nia. }
  unfold ZyanVectorInsertElements.
  replace (count =? 0) with false by (symmetry; apply Z.eqb_neq; lia).
  replace (size v <? index) with false by (symmetry; apply Z.ltb_ge; lia).
  rewrite Hsum.
  destruct (scaled_reallocation_step v b
              (ZYAN_VECTOR_SHOULD_GROW (size v + count) (capacity v))
              (size v + count) limit (ZYAN_MAX 1) Hkeeps Hdata Hfits Hcap Hscale)
    as (status0 & w0 & Hgrow & Hskip & Hfree & _ & Hgrown);
    [lia | exact ZYAN_MAX_ge |].
  unfold ZYAN_CHECK at 1. rewrite Hgrow. cbn [bind fst snd].
  assert (Hguard : size v + count <= capacity v ->
                   ZYAN_VECTOR_SHOULD_GROW (size v + count) (capacity v) = false).
  { intros Hle. unfold ZYAN_VECTOR_SHOULD_GROW. apply Z.ltb_ge. exact Hle. }
  destruct (ZYAN_SUCCESS status0) eqn:Hst.
  - assert (status0 = ZYAN_STATUS_SUCCESS) by (destruct status0; try discriminate; reflexivity).
    subst status0.
    destruct (Hgrown eq_refl) as ((Ha0 & Hg0 & Ht0 & Hs0 & He0) & Hcap0 & Hroom & b0 & Hd0 & Hf0 & Hpre0).
    assert (Hroom' : size v + count <= capacity w0).
    { destruct (ZYAN_VECTOR_SHOULD_GROW (size v + count) (capacity v)) eqn:Hg.
      - exact Hroom.
      - unfold ZYAN_VECTOR_SHOULD_GROW in Hg. apply Z.ltb_ge in Hg. lia. }
    destruct (insert_block_runs w0 b0 e index count) as (b1 & Hrun & Hl1 & Hlow & Hmid & Hhigh);
      try (rewrite ?Hs0, ?He0; first [exact Hd0 | lia | nia]).
    cbv zeta in Hrun. rewrite Hrun. cbn [through_pointer bind fst snd].
    eexists. eexists. split; [reflexivity |]. split; [reflexivity |]. intros _.
    cbn [size element_size capacity set_size set_data].
    rewrite Hs0, He0 in *.
    split; [reflexivity |]. split; [reflexivity |].
    split.
    { intros Hle. destruct (Hskip (Hguard Hle)) as (_ & ->). reflexivity. }
    exists b1. split.
    { unfold consistent. cbn [data size capacity element_size set_size set_data].
      rewrite He0. repeat split; try lia. }
    split; [| split]; intros i Hi.
    + rewrite Hlow by lia. apply Hpre0; nia.
    + apply Hmid. lia.
    + rewrite Hhigh by lia. apply Hpre0; nia.
  - cbn [through_pointer bind fst snd].
    exists status0, w0. split; [reflexivity |].
    split.
    + intros [Hle | Hfreely].
      * destruct (Hskip (Hguard Hle)) as (-> & _). discriminate.
      * rewrite (Hfree Hfreely) in Hst. discriminate.
    + intros ->. discriminate.
Qed.

(** The optional reallocation in front of a call leaves the size and the
    element size alone, whatever its status. *)
Lemma guarded_reallocation_header (v : ZyanVector) (guard : bool)
    (request : result Z) (f : Z -> Z) (r : ZyanStatus * ZyanVector) :
  (if guard then n <- request ;; ZyanVectorReallocate v (f n)
   else Ok (ZYAN_STATUS_SUCCESS, v)) = Ok r ->
  same_header v (snd r).
Proof.
  destruct guard.
  - destruct request as [n |]; [| discriminate]. cbn [bind].
    destruct (ZyanVectorReallocate_returns v (f n)) as (st & w & -> & Hh).
    intros [= <-]. exact Hh.
  - intros [= <-]. unfold same_header. auto.
Qed.

(* ================================================================== *)
(** * Calls that coincide                                             *)
(* ================================================================== *)

(** Inserting one element at the end is pushing it. *)
Lemma insert_at_size_is_push (v : ZyanVector) (element : option buffer) :
  in_usize v.(element_size) ->
  ZyanVectorInsert (Some v) v.(size) element = ZyanVectorPush (Some v) element.
Proof.
  intros Hes. unfold ZyanVectorInsert, ZyanVectorInsertElements, ZyanVectorPush.
  destruct element as [e |]; [| reflexivity].
  change (1 =? 0) with false. rewrite Z.ltb_irrefl. cbv iota.
  f_equal. unfold ZYAN_CHECK at 1 3.
  match goal with
  | |- bind ?c _ = _ => destruct c as [[st w] |] eqn:Hgrow; [| reflexivity]
  end.
  apply guarded_reallocation_header in Hgrow.
  destruct Hgrow as (_ & _ & _ & Hs & He). cbn [snd] in Hs, He.
  cbn [bind fst snd]. destruct (ZYAN_SUCCESS st); [| reflexivity].
  rewrite <- Hs, Z.ltb_irrefl. unfold ZYAN_CHECK. cbn [bind fst snd ZYAN_SUCCESS].
  replace (usize_mul 1 (element_size w)) with (element_size w); [reflexivity |].
  unfold usize_mul. rewrite Z.mul_1_l, usize_small; [reflexivity |]. rewrite He. exact Hes.
Qed.

(** Deleting the last element is popping it; on an empty vector both calls
    answer [ZYAN_STATUS_OUT_OF_RANGE]. *)
Lemma delete_at_last_is_pop (v : ZyanVector) :
  in_usize v.(size) ->
  ZyanVectorDelete (Some v) (usize_sub v.(size) 1) = ZyanVectorPop (Some v).
Proof.
  intros Hsize. unfold in_usize in Hsize.
  assert (HM := ZYAN_USIZE_MODULUS_value).
  unfold ZyanVectorDelete, ZyanVectorDeleteElements, ZyanVectorPop.
  change (1 =? 0) with false. cbv iota.
  destruct (Z.eqb_spec (size v) 0) as [Hzero | Hpos].
  - rewrite Hzero. reflexivity.
  - replace (size v <=? usize_sub (size v) 1) with false.
    + rewrite Z.ltb_irrefl. unfold ZYAN_CHECK. cbn [bind fst snd ZYAN_SUCCESS].
      reflexivity.
    + symmetry. apply Z.leb_gt. unfold usize_sub.
      rewrite usize_small by (unfold in_usize; lia). lia.
Qed.

(* ================================================================== *)
(** * Deletion from a consistent vector                               *)
(* ================================================================== *)

(** The part of a deletion before the size is reduced, for a range inside
    the size and a storage that holds the block [ZyanVectorShiftLeft] moves:
    the elements after the range come down by [count] elements. *)
Lemma delete_block_runs (w : ZyanVector) (b : buffer) (index count : Z) :
  w.(data) = Some b ->
  0 < w.(element_size) ->
  0 <= index ->
  0 < count ->
  index + count <= w.(size) ->
  (w.(size) + count) * w.(element_size) < ZYAN_USIZE_MODULUS ->
  (index < w.(size) - 1 -> (w.(size) + count) * w.(element_size) <= buf_len b) ->
  exists b1,
    (if index <? usize_sub w.(size) 1 then ZyanVectorShiftLeft w index count
     else Ok (ZYAN_STATUS_SUCCESS, w))
    = Ok (ZYAN_STATUS_SUCCESS, set_data w (Some b1)) /\
    buf_len b1 = buf_len b /\
    (forall i, 0 <= i < index * w.(element_size) -> buf_at b1 i = buf_at b i) /\
    (forall i, index * w.(element_size) <= i < (w.(size) - count) * w.(element_size) ->
       buf_at b1 i = buf_at b (i + count * w.(element_size))).
Proof.
  intros Hdata Hes Hindex Hcount Hrange Hwrap Hroom.
  assert (HM := ZYAN_USIZE_MODULUS_value).
  destruct (shift_quantities w index count) as (Hsrc & Hdst & Hmoved); try lia.
  assert (Hpred : usize_sub w.(size) 1 = w.(size) - 1).
  { unfold usize_sub. apply usize_small. unfold in_usize. nia. }
  rewrite Hpred.
  destruct (Z.ltb_spec index (size w - 1)) as [Hlt | Hge].
  - unfold ZyanVectorShiftLeft. rewrite Hsrc, Hdst, Hmoved, Hdata.
    specialize (Hroom Hlt).
    rewrite ZYAN_MEMMOVE_in_bounds by nia. cbn [bind].
    eexists. split; [reflexivity |]. split; [reflexivity |]. cbn [buf_at].
    split; intros i Hi.
    + replace (index * element_size w <=? i) with false by (symmetry; apply Z.leb_gt; lia).
      reflexivity.
    + replace (index * element_size w <=? i) with true by (symmetry; apply Z.leb_le; lia).
      replace (i <? index * element_size w + (size w - index) * element_size w)
        with true by (symmetry; apply Z.ltb_lt; nia).
      cbn [andb]. f_equal. nia.
  - exists b. split.
    + destruct w as [a g t s c es d]. cbn in Hdata. subst d. reflexivity.
    + split; [reflexivity |]. split; intros i Hi; [reflexivity | nia].
Qed.

(** [ZyanVectorDeleteElements] on a consistent vector, for a range inside the
    size and a storage that holds the block the left shift moves: the call
    returns; it succeeds when the allocator never refuses or shrinking is
    disabled; a success leaves a consistent vector with [count] elements
    less, the bytes before the range kept and the tail moved down. *)
Lemma delete_elements_step
    (limit : Z) (v : ZyanVector) (b : buffer) (index count : Z) :
  consistent v b ->
  (forall a, v.(allocator) = Some a -> reallocate_keeps a) ->
  scales_up v.(growth_factor) limit ->
  2 * limit * v.(element_size) <= ZYAN_USIZE_MODULUS ->
  v.(size) < limit ->
  0 <= index ->
  0 < count ->
  index + count <= v.(size) ->
  (index < v.(size) - 1 -> (v.(size) + count) * v.(element_size) <= buf_len b) ->
  exists status w,
    ZyanVectorDeleteElements (Some v) index count = Ok (status, Some w) /\
    (grows_freely v \/ v.(shrink_threshold) = float_0_0 ->
     status = ZYAN_STATUS_SUCCESS) /\
    (status = ZYAN_STATUS_SUCCESS ->
     w.(size) = v.(size) - count /\
     w.(element_size) = v.(element_size) /\
     exists b', consistent w b' /\
       (forall i, 0 <= i < index * v.(element_size) -> buf_at b' i = buf_at b i) /\
       (forall i, index * v.(element_size) <= i < (v.(size) - count) * v.(element_size) ->
          buf_at b' i = buf_at b (i + count * v.(element_size)))).
Proof.
  intros (Hdata & Hes & Hsize & Hcap & Hfits) Hkeeps Hscale Hlimit Hbound
    Hindex Hcount Hrange Hroom.
  assert (HM := ZYAN_USIZE_MODULUS_value).
  unfold ZyanVectorDeleteElements.
  replace (count =? 0) with false by (symmetry; apply Z.eqb_neq; lia).
  replace (size v <=? index) with false by (symmetry; apply Z.leb_gt; lia).
  destruct (delete_block_runs v b index count) as (b1 & Hshift & Hl1 & Hlow & Hhigh);
    try assumption; try nia.
  unfold ZYAN_CHECK. rewrite Hshift. cbn [bind fst snd ZYAN_SUCCESS]. cbv zeta.
  cbn [size capacity shrink_threshold set_size set_data].
  assert (Hleft : usize_sub (size v) count = size v - count).
  { unfold usize_sub. apply usize_small. unfold in_usize. nia. }
  rewrite Hleft.
  set (w1 := set_size (set_data v (Some b1)) (size v - count)).
  destruct (scaled_reallocation_step w1 b1
              (ZYAN_VECTOR_SHOULD_SHRINK (size v - count) (capacity v) (shrink_threshold v))
              (size v - count) limit (ZYAN_MAX 1))
    as (status & w & Hshrink & Hskip & Hfree & _ & Hdone);
    try (subst w1; cbn [allocator data capacity element_size growth_factor
                        set_size set_data]; first [assumption | reflexivity | lia]);
    [exact ZYAN_MAX_ge |].
  rewrite Hshrink. cbn [through_pointer bind fst snd].
  exists status, w. split; [reflexivity |]. split.
  - intros [(a & Ha & Hok) | Hoff].
    + apply Hfree. exists a. split; [exact Ha | exact Hok].
    + apply Hskip. rewrite Hoff. apply should_shrink_disabled. lia.
  - intros Hst.
    destruct (Hdone Hst) as ((Ha & Hg & Ht & Hs & He) & Hcap' & Hroom' & b' & Hd' & Hf' & Hpre).
    subst w1. cbn [size element_size capacity set_size set_data] in *.
    split; [exact Hs |]. split; [exact He |].
    exists b'. split.
    { unfold consistent. rewrite Hs, He. repeat split; try assumption; try lia.
      destruct (ZYAN_VECTOR_SHOULD_SHRINK _ _ _); lia. }
    assert (Hin : (size v - count) * element_size v <= buf_len b').
    { rewrite He in Hf'.
      assert (size v - count <= capacity w) by (destruct (ZYAN_VECTOR_SHOULD_SHRINK _ _ _); lia).
      nia. }
    split; intros i Hi.
    + rewrite Hpre by nia. apply Hlow. exact Hi.
    + rewrite Hpre by nia. apply Hhigh. exact Hi.
Qed.

(* ================================================================== *)
(** * The other calls on a consistent vector                          *)
(* ================================================================== *)

(** [ZyanVectorPush], from [insert_elements_step] at the end. *)
Lemma push_step (limit : Z) (v : ZyanVector) (b e : buffer) :
  consistent v b ->
  (forall a, v.(allocator) = Some a -> reallocate_keeps a) ->
  scales_up v.(growth_factor) limit ->
  limit * v.(element_size) <= ZYAN_USIZE_MODULUS ->
  v.(size) + 1 < limit ->
  v.(element_size) <= buf_len e ->
  exists status w,
    ZyanVectorPush (Some v) (Some e) = Ok (status, Some w) /\
    (v.(size) + 1 <= v.(capacity) \/ grows_freely v -> status = ZYAN_STATUS_SUCCESS) /\
    (status = ZYAN_STATUS_SUCCESS ->
     w.(size) = v.(size) + 1 /\
     w.(element_size) = v.(element_size) /\
     (v.(size) + 1 <= v.(capacity) -> w.(capacity) = v.(capacity)) /\
     exists b', consistent w b' /\
       (forall i, 0 <= i < v.(size) * v.(element_size) -> buf_at b' i = buf_at b i) /\
       (forall i, v.(size) * v.(element_size) <= i < (v.(size) + 1) * v.(element_size) ->
          buf_at b' i = buf_at e (i - v.(size) * v.(element_size)))).
Proof.
  intros Hv Hkeeps Hscale Hlimit Hnew Hsource.
  pose proof Hv as (_ & Hes & Hsize & _).
  assert (HM := ZYAN_USIZE_MODULUS_value).
  rewrite <- insert_at_size_is_push by (unfold in_usize; nia).
  destruct (insert_elements_step limit v b e (size v) 1 Hv Hkeeps Hscale Hlimit)
    as (status & w & Hrun & Hok & Hdone); try lia.
  exists status, w. split; [exact Hrun |]. split; [exact Hok |].
  intros Hst. destruct (Hdone Hst) as (Hs & He & Hc & b' & Hw & Hlow & Hmid & _).
  split; [exact Hs |]. split; [exact He |]. split; [exact Hc |].
  exists b'. split; [exact Hw |]. split; [exact Hlow | exact Hmid].
Qed.

(** [ZyanVectorPop], from [delete_elements_step] at the last index. *)
Lemma pop_step (limit : Z) (v : ZyanVector) (b : buffer) :
  consistent v b ->
  (forall a, v.(allocator) = Some a -> reallocate_keeps a) ->
  scales_up v.(growth_factor) limit ->
  2 * limit * v.(element_size) <= ZYAN_USIZE_MODULUS ->
  0 < v.(size) < limit ->
  exists status w,
    ZyanVectorPop (Some v) = Ok (status, Some w) /\
    (grows_freely v \/ v.(shrink_threshold) = float_0_0 ->
     status = ZYAN_STATUS_SUCCESS) /\
    (status = ZYAN_STATUS_SUCCESS ->
     w.(size) = v.(size) - 1 /\
     w.(element_size) = v.(element_size) /\
     exists b', consistent w b' /\
       (forall i, 0 <= i < (v.(size) - 1) * v.(element_size) -> buf_at b' i = buf_at b i)).
Proof.
  intros Hv Hkeeps Hscale Hlimit Hsize.
  pose proof Hv as (_ & Hes & _).
  assert (HM := ZYAN_USIZE_MODULUS_value).
  assert (Hlast : usize_sub v.(size) 1 = v.(size) - 1).
  { unfold usize_sub. apply usize_small. unfold in_usize. nia. }
  rewrite <- delete_at_last_is_pop by (unfold in_usize; nia).
  unfold ZyanVectorDelete. rewrite Hlast.
  destruct (delete_elements_step limit v b (size v - 1) 1 Hv Hkeeps Hscale Hlimit)
    as (status & w & Hrun & Hok & Hdone); try lia.
  exists status, w. split; [exact Hrun |]. split; [exact Hok |].
  intros Hst. destruct (Hdone Hst) as (Hs & He & b' & Hw & Hlow & _).
  split; [exact Hs |]. split; [exact He |].
  exists b'. split; [exact Hw | exact Hlow].
Qed.

(** [ZyanVectorResize]: the size becomes the requested one, the bytes of the
    elements that stay are kept; nothing is written into new elements. *)
Lemma resize_step (limit : Z) (v : ZyanVector) (b : buffer) (size' : Z) :
  consistent v b ->
  (forall a, v.(allocator) = Some a -> reallocate_keeps a) ->
  scales_up v.(growth_factor) limit ->
  0 <= size' < limit ->
  exists status w,
    ZyanVectorResize (Some v) size' = Ok (status, Some w) /\
    (grows_freely v \/ (size' <= v.(capacity) /\ v.(shrink_threshold) = float_0_0) ->
     status = ZYAN_STATUS_SUCCESS) /\
    (status = ZYAN_STATUS_SUCCESS ->
     w.(size) = size' /\
     w.(element_size) = v.(element_size) /\
     exists b', consistent w b' /\
       (forall i, 0 <= i < Z.min v.(size) size' * v.(element_size) ->
          buf_at b' i = buf_at b i)).
Proof.
  intros (Hdata & Hes & Hsize & Hcap & Hfits) Hkeeps Hscale Hnew.
  unfold ZyanVectorResize.
  destruct (scaled_reallocation_step v b
              (ZYAN_VECTOR_SHOULD_GROW size' (capacity v)
               || ZYAN_VECTOR_SHOULD_SHRINK size' (capacity v) (shrink_threshold v))
              size' limit (fun n => n) Hkeeps Hdata Hfits Hcap Hscale Hnew)
    as (status0 & w0 & Hre & Hskip & Hfree & _ & Hdone); [intros n; lia |].
  cbv beta in Hre. unfold ZYAN_CHECK. rewrite Hre. cbn [bind fst snd].
  destruct (ZYAN_SUCCESS status0) eqn:Hst.
  - assert (status0 = ZYAN_STATUS_SUCCESS) by (destruct status0; try discriminate; reflexivity).
    subst status0. cbn [through_pointer bind fst snd].
    eexists. eexists. split; [reflexivity |]. split; [reflexivity |]. intros _.
    destruct (Hdone eq_refl) as ((Ha & Hg & Ht & Hs & He) & Hcap' & Hroom & b' & Hd' & Hf' & Hpre).
    cbn [size element_size set_size].
    split; [reflexivity |]. split; [exact He |].
    assert (Hle : size' <= capacity w0).
    { destruct (ZYAN_VECTOR_SHOULD_GROW size' (capacity v)) eqn:Hg1; [exact Hroom |].
      unfold ZYAN_VECTOR_SHOULD_GROW in Hg1. apply Z.ltb_ge in Hg1.
      destruct (ZYAN_VECTOR_SHOULD_SHRINK _ _ _); cbn [orb] in Hroom; lia. }
    exists b'. split.
    { unfold consistent. cbn [data size capacity element_size set_size].
      rewrite He. repeat split; try assumption; lia. }
    intros i Hi. rewrite He in Hf'. apply Hpre; nia.
  - cbn [through_pointer bind fst snd].
    exists status0, w0. split; [reflexivity |]. split.
    + intros [Hfreely | (Hle & Hoff)].
      * rewrite (Hfree Hfreely) in Hst. discriminate.
      * destruct Hskip as (-> & _); [| discriminate].
        unfold ZYAN_VECTOR_SHOULD_GROW.
        replace (capacity v <? size') with false by (symmetry; apply Z.ltb_ge; lia).
        rewrite Hoff. apply should_shrink_disabled. lia.
    + intros ->. discriminate.
Qed.

(** [ZyanVectorReserve]: the capacity becomes the larger of the old one and
    the requested one; size and elements stay. *)
Lemma reserve_step (v : ZyanVector) (b : buffer) (capacity' : Z) :
  consistent v b ->
  (forall a, v.(allocator) = Some a -> reallocate_keeps a) ->
  exists status w,
    ZyanVectorReserve (Some v) capacity' = Ok (status, Some w) /\
    (capacity' <= v.(capacity) -> status = ZYAN_STATUS_SUCCESS /\ w = v) /\
    (grows_freely v -> status = ZYAN_STATUS_SUCCESS) /\
    (v.(allocator) = None -> v.(capacity) < capacity' ->
     status = ZYAN_STATUS_INSUFFICIENT_BUFFER_SIZE /\ w = v) /\
    (status = ZYAN_STATUS_SUCCESS ->
     w.(size) = v.(size) /\
     w.(element_size) = v.(element_size) /\
     w.(capacity) = Z.max v.(capacity) capacity' /\
     exists b', consistent w b' /\
       (forall i, 0 <= i < v.(size) * v.(element_size) -> buf_at b' i = buf_at b i)).
Proof.
  intros (Hdata & Hes & Hsize & Hcap & Hfits) Hkeeps.
  assert (Hself : ZYAN_STATUS_SUCCESS = ZYAN_STATUS_SUCCESS ->
    v.(size) = v.(size) /\ v.(element_size) = v.(element_size) /\
    exists b', consistent v b' /\
      (forall i, 0 <= i < v.(size) * v.(element_size) -> buf_at b' i = buf_at b i)).
  { intros _. split; [reflexivity |]. split; [reflexivity |].
    exists b. split; [unfold consistent; auto | auto]. }
  unfold ZyanVectorReserve, ZYAN_CHECK.
  destruct (Z.ltb_spec (capacity v) capacity') as [Hlt | Hge].
  - destruct (ZyanVectorReallocate_returns v capacity') as (status0 & w0 & Hre & Hh).
    rewrite Hre. cbn [bind fst snd].
    assert (Hfacts : status0 = ZYAN_STATUS_SUCCESS ->
      w0.(size) = v.(size) /\ w0.(element_size) = v.(element_size) /\
      w0.(capacity) = Z.max v.(capacity) capacity' /\
      exists b', consistent w0 b' /\
        (forall i, 0 <= i < v.(size) * v.(element_size) -> buf_at b' i = buf_at b i)).
    { intros ->.
      destruct (ZyanVectorReallocate_success_storage v w0 capacity' b Hkeeps Hdata Hfits Hre)
        as ((Ha & Hg & Ht & Hs & He) & b' & Hd' & Hf' & Hpre).
      destruct (ZyanVectorReallocate_capacity v w0 capacity' _ Hcap Hre) as (Hown & Hle).
      specialize (Hle eq_refl).
      assert (Hc : capacity w0 = capacity').
      { destruct (allocator v) as [a |] eqn:Hav.
        - rewrite Hown by discriminate. lia.
        - rewrite ZyanVectorReallocate_borrowing in Hre by exact Hav.
          replace (capacity v <? capacity') with true in Hre
            by (symmetry; apply Z.ltb_lt; exact Hlt).
          discriminate. }
      split; [exact Hs |]. split; [exact He |]. split; [lia |].
      exists b'. split.
      - unfold consistent. rewrite Hs, He in *. repeat split; try assumption; lia.
      - intros i Hi. rewrite He in Hf'. apply Hpre; nia. }
    destruct (ZYAN_SUCCESS status0) eqn:Hst.
    + assert (status0 = ZYAN_STATUS_SUCCESS)
        by (destruct status0; try discriminate; reflexivity).
      subst status0. cbn [through_pointer bind fst snd].
      exists ZYAN_STATUS_SUCCESS, w0. split; [reflexivity |].
      split; [intros; lia |]. split; [reflexivity |].
      split; [| exact Hfacts].
      intros Hnone _. rewrite ZyanVectorReallocate_borrowing in Hre by exact Hnone.
      replace (capacity v <? capacity') with true in Hre
        by (symmetry; apply Z.ltb_lt; exact Hlt).
      discriminate.
    + cbn [through_pointer bind fst snd].
      exists status0, w0. split; [reflexivity |].
      split; [intros; lia |].
      split.
      { intros Hfreely.
        exact (ZyanVectorReallocate_grows_freely _ _ _ _ Hfreely Hre). }
      split; [| exact Hfacts].
      intros Hnone _. rewrite ZyanVectorReallocate_borrowing in Hre by exact Hnone.
      replace (capacity v <? capacity') with true in Hre
        by (symmetry; apply Z.ltb_lt; exact Hlt).
      injection Hre as <- <-. auto.
  - cbn [bind fst snd ZYAN_SUCCESS through_pointer].
    exists ZYAN_STATUS_SUCCESS, v. split; [reflexivity |].
    split; [auto |]. split; [auto |]. split; [intros; lia |].
    intros Hst. destruct (Hself Hst) as (H1 & H2 & H3).
    split; [exact H1 |]. split; [exact H2 |]. split; [lia | exact H3].
Qed.

(** [ZyanVectorShrinkToFit]: with an allocator the capacity becomes the size,
    floored at one; a vector over a caller's buffer is left as it is. *)
Lemma shrink_to_fit_step (v : ZyanVector) (b : buffer) :
  consistent v b ->
  (forall a, v.(allocator) = Some a -> reallocate_keeps a) ->
  exists status w,
    ZyanVectorShrinkToFit (Some v) = Ok (status, Some w) /\
    (v.(allocator) = None -> status = ZYAN_STATUS_SUCCESS /\ w = v) /\
    (grows_freely v -> status = ZYAN_STATUS_SUCCESS) /\
    (status = ZYAN_STATUS_SUCCESS ->
     w.(size) = v.(size) /\
     w.(element_size) = v.(element_size) /\
     (v.(allocator) <> None -> w.(capacity) = Z.max 1 v.(size)) /\
     exists b', consistent w b' /\
       (forall i, 0 <= i < v.(size) * v.(element_size) -> buf_at b' i = buf_at b i)).
Proof.
  intros (Hdata & Hes & Hsize & Hcap & Hfits) Hkeeps.
  unfold ZyanVectorShrinkToFit.
  destruct (ZyanVectorReallocate_returns v (size v)) as (status & w & Hre & Hh).
  rewrite Hre. cbn [through_pointer bind fst snd].
  exists status, w. split; [reflexivity |].
  split.
  { intros Hnone. rewrite ZyanVectorReallocate_borrowing in Hre by exact Hnone.
    replace (capacity v <? size v) with false in Hre by (symmetry; apply Z.ltb_ge; lia).
    injection Hre as <- <-. auto. }
  split; [intros Hfreely; exact (ZyanVectorReallocate_grows_freely _ _ _ _ Hfreely Hre) |].
  intros ->.
  destruct (ZyanVectorReallocate_success_storage v w (size v) b Hkeeps Hdata Hfits Hre)
    as ((Ha & Hg & Ht & Hs & He) & b' & Hd' & Hf' & Hpre).
  destruct (ZyanVectorReallocate_capacity v w (size v) _ Hcap Hre) as (Hown & Hle).
  specialize (Hle eq_refl).
  pose proof (ZyanVectorReallocate_policy _ _ _ Hre) as (_ & _ & _ & _ & Hone & _).
  cbn [snd] in Hone. specialize (Hone Hcap).
  split; [exact Hs |]. split; [exact He |]. split; [exact Hown |].
  exists b'. split.
  - unfold consistent. rewrite Hs, He in *. repeat split; try assumption; try lia.
  - intros i Hi. rewrite He in Hf'. apply Hpre; nia.
Qed.

(** [ZyanVectorAssign] inside the size: one element is overwritten. *)
Lemma assign_step (v : ZyanVector) (b e : buffer) (index : Z) :
  consistent v b ->
  v.(size) * v.(element_size) < ZYAN_USIZE_MODULUS ->
  0 <= index < v.(size) ->
  v.(element_size) <= buf_len e ->
  exists b',
    ZyanVectorAssign (Some v) index (Some e)
    = Ok (ZYAN_STATUS_SUCCESS, Some (set_data v (Some b'))) /\
    buf_len b' = buf_len b /\
    (forall i, index * v.(element_size) <= i < (index + 1) * v.(element_size) ->
       buf_at b' i = buf_at e (i - index * v.(element_size))) /\
    (forall i, ~ index * v.(element_size) <= i < (index + 1) * v.(element_size) ->
       buf_at b' i = buf_at b i).
Proof.
  intros (Hdata & Hes & Hsize & Hcap & Hfits) Hwrap Hindex Hsource.
  unfold ZyanVectorAssign.
  replace (size v <=? index) with false by (symmetry; apply Z.leb_gt; lia).
  unfold ZYAN_VECTOR_OFFSET, usize_mul.
  rewrite usize_small by (unfold in_usize; nia).
  rewrite Hdata, ZYAN_MEMCPY_in_bounds by nia. cbn [bind].
  eexists. split; [reflexivity |]. split; [reflexivity |]. cbn [buf_at].
  split; intros i Hi.
  - replace (index * element_size v <=? i) with true by (symmetry; apply Z.leb_le; lia).
    replace (i <? index * element_size v + element_size v) with true
      by (symmetry; apply Z.ltb_lt; lia).
    reflexivity.
  - destruct (Z.leb_spec (index * element_size v) i); [| reflexivity].
    replace (i <? index * element_size v + element_size v) with false
      by (symmetry; apply Z.ltb_ge; lia).
    reflexivity.
Qed.

(* ================================================================== *)
(** * The sample states                                               *)
(* ================================================================== *)

Lemma sample_owned_consistent : consistent sample_owned sample_storage.
Proof. unfold consistent. cbn. repeat split; lia. Qed.

Lemma sample_borrowed_consistent : consistent sample_borrowed sample_storage.
Proof. unfold consistent. cbn. repeat split; lia. Qed.

Lemma sample_owned_keeps :
  forall a, sample_owned.(allocator) = Some a -> reallocate_keeps a.
Proof. intros a [= <-]. exact heap_allocator_keeps. Qed.

Lemma sample_borrowed_keeps :
  forall a, sample_borrowed.(allocator) = Some a -> reallocate_keeps a.
Proof. intros a H. discriminate H. Qed.

Lemma sample_owned_grows_freely : grows_freely sample_owned.
Proof. exists heap_allocator. split; reflexivity. Qed.

Lemma heap_allocator_gives : allocate_gives heap_allocator.
Proof. intros es n p [= <-]. eexists. split; reflexivity. Qed.

(** Closed comparisons of numbers, by evaluation. *)
Ltac by_evaluation :=
  repeat split; vm_compute; first [reflexivity | discriminate].

(* ================================================================== *)
(** * Elements of a consistent vector                                 *)
(* ================================================================== *)

Lemma buf_bytes_shift (b b' : buffer) (off off' : Z) (n : nat) :
  (forall k, 0 <= k < Z.of_nat n -> buf_at b' (off' + k) = buf_at b (off + k)) ->
  buf_bytes b' off' n = buf_bytes b off n.
Proof.
  intros H. unfold buf_bytes. apply map_ext_in. intros i Hi.
  apply in_seq in Hi. apply H. lia.
Qed.

Lemma read_element_consistent (v : ZyanVector) (b : buffer) (index : Z) :
  consistent v b ->
  v.(size) * v.(element_size) < ZYAN_USIZE_MODULUS ->
  0 <= index < v.(size) ->
  read_element v index
  = Ok (buf_bytes b (index * v.(element_size)) (Z.to_nat v.(element_size))).
Proof.
  intros (Hdata & Hes & Hsize & Hcap & Hfits) Hwrap Hindex.
  apply read_element_in_storage; try assumption. nia.
Qed.

(** An element of [w] whose bytes are those of an element of [v]. *)
Lemma read_element_moved (v w : ZyanVector) (b b' : buffer) (j j' : Z) :
  consistent v b -> consistent w b' ->
  w.(element_size) = v.(element_size) ->
  v.(size) * v.(element_size) < ZYAN_USIZE_MODULUS ->
  w.(size) * v.(element_size) < ZYAN_USIZE_MODULUS ->
  0 <= j < v.(size) -> 0 <= j' < w.(size) ->
  (forall i, j' * v.(element_size) <= i < (j' + 1) * v.(element_size) ->
     buf_at b' i = buf_at b (i + (j - j') * v.(element_size))) ->
  read_element w j' = read_element v j.
Proof.
  intros Hv Hw He Hwrap Hwrap' Hj Hj' Hbytes.
  pose proof Hv as (_ & Hes & _).
  rewrite (read_element_consistent v b j Hv Hwrap Hj).
  rewrite (read_element_consistent w b' j' Hw) by (rewrite ?He; assumption).
  rewrite He. f_equal. apply buf_bytes_shift.
  intros k Hk. rewrite Z2Nat.id in Hk by lia.
  rewrite Hbytes by nia. f_equal. nia.
Qed.

(** An element of [w] whose bytes are those of a record of a caller's
    block. *)
Lemma read_element_copied (w : ZyanVector) (b' e : buffer) (j' k : Z) :
  consistent w b' ->
  w.(size) * w.(element_size) < ZYAN_USIZE_MODULUS ->
  0 <= j' < w.(size) ->
  (forall i, j' * w.(element_size) <= i < (j' + 1) * w.(element_size) ->
     buf_at b' i = buf_at e (i + (k - j') * w.(element_size))) ->
  read_element w j' = Ok (source_element w.(element_size) e k).
Proof.
  intros Hw Hwrap Hj' Hbytes.
  pose proof Hw as (_ & Hes & _).
  rewrite (read_element_consistent w b' j' Hw Hwrap Hj').
  unfold source_element. f_equal. apply buf_bytes_shift.
  intros i Hi. rewrite Z2Nat.id in Hi by lia.
  rewrite Hbytes by nia. f_equal. nia.
Qed.

(** Two consistent vectors of the same size whose storages agree below the
    size hold the same sequence. *)
Lemma same_sequence_consistent (v w : ZyanVector) (b b' : buffer) :
  consistent v b -> consistent w b' ->
  w.(size) = v.(size) -> w.(element_size) = v.(element_size) ->
  v.(size) * v.(element_size) < ZYAN_USIZE_MODULUS ->
  (forall i, 0 <= i < v.(size) * v.(element_size) -> buf_at b' i = buf_at b i) ->
  same_sequence v w.
Proof.
  intros (Hdata & Hes & Hsize & Hcap & Hfits) (Hdata' & Hes' & Hsize' & Hcap' & Hfits')
    Hs He Hwrap Hbytes.
  apply (same_sequence_of_bytes v w b b'); try assumption.
  - nia.
  - rewrite He, Hs in *. nia.
Qed.

(* ================================================================== *)
(** * Every call keeps a consistent vector consistent                 *)
(* ================================================================== *)





(* ================================================================== *)
(** * Insertion                                                       *)
(* ================================================================== *)





(** X4.  Inserting one element at the index [size] is pushing it: the two
    calls give the same status and the same vector, for a null element as
    well, and a null vector is refused by both. *)
Theorem inserting_at_the_end_is_pushing (v : ZyanVector) (element : option buffer) :
  in_usize v.(element_size) ->
  ZyanVectorInsert (Some v) v.(size) element = ZyanVectorPush (Some v) element /\
  ZyanVectorInsertElements (Some v) v.(size) element 1 = ZyanVectorPush (Some v) element /\
  ZyanVectorInsert None v.(size) element = ZyanVectorPush None element.
Proof.
  intros Hes. split; [exact (insert_at_size_is_push v element Hes) |].
  split; [exact (insert_at_size_is_push v element Hes) |].
  destruct element; reflexivity.
Qed.

Lemma inserting_at_the_end_is_pushing_witness :
  ZyanVectorInsert (Some sample_owned) 3 (Some sample_block)
  = ZyanVectorPush (Some sample_owned) (Some sample_block).
Proof.
  apply (inserting_at_the_end_is_pushing sample_owned (Some sample_block)).
  by_evaluation.
Defined.

(* ================================================================== *)
(** * Deletion                                                        *)
(* ================================================================== *)





(** X7.  Deleting the element at index [size - 1], the index computed as the
    code computes it, is popping: the two calls give the same status and the
    same vector, and on an empty vector both answer
    [ZYAN_STATUS_OUT_OF_RANGE]. *)
Theorem deleting_the_last_element_is_popping (v : ZyanVector) :
  in_usize v.(size) ->
  ZyanVectorDelete (Some v) (usize_sub v.(size) 1) = ZyanVectorPop (Some v) /\
  (v.(size) = 0 ->
   ZyanVectorPop (Some v) = Ok (ZYAN_STATUS_OUT_OF_RANGE, Some v)) /\
  ZyanVectorDelete None (usize_sub v.(size) 1) = ZyanVectorPop None.
Proof.
  intros Hsize. split; [exact (delete_at_last_is_pop v Hsize) |].
  split; [| reflexivity].
  intros Hzero. unfold ZyanVectorPop. rewrite Hzero. reflexivity.
Qed.

Lemma deleting_the_last_element_is_popping_witness :
  ZyanVectorDelete (Some sample_owned) 2 = ZyanVectorPop (Some sample_owned).
Proof.
  apply (deleting_the_last_element_is_popping sample_owned). by_evaluation.
Defined.

(* ================================================================== *)
(** * Round trips                                                     *)
(* ================================================================== *)

(** X8.  Round trip.  On a consistent vector whose allocator never refuses, a
    push followed by a pop both succeed and leave the sequence the vector
    held before: the same size and the same bytes in every element. *)
Theorem push_then_pop_restores (limit : Z) (v : ZyanVector) (b e : buffer) :
  consistent v b ->
  (forall a, v.(allocator) = Some a -> reallocate_keeps a) ->
  grows_freely v ->
  scales_up v.(growth_factor) limit ->
  2 * limit * v.(element_size) <= ZYAN_USIZE_MODULUS ->
  v.(size) + 1 < limit ->
  v.(element_size) <= buf_len e ->
  exists v1 v2,
    ZyanVectorPush (Some v) (Some e) = Ok (ZYAN_STATUS_SUCCESS, Some v1) /\
    ZyanVectorPop (Some v1) = Ok (ZYAN_STATUS_SUCCESS, Some v2) /\
    same_sequence v v2.
Proof.
  intros Hv Hkeeps Hfree Hscale Hlimit Hnew Hsource.
  pose proof Hv as (_ & Hes & Hsize & _).
  assert (HM := ZYAN_USIZE_MODULUS_value).
  destruct (push_step limit v b e Hv Hkeeps Hscale) as (st1 & v1 & Hpush & Hok1 & Hdone1);
    try assumption; [nia |].
  rewrite (Hok1 (or_intror Hfree)) in *.
  destruct (Hdone1 eq_refl) as (Hs1 & He1 & _ & b1 & Hv1 & Hlow1 & _).
  destruct (perform_keeps_policy (OpPush (Some e)) v _ _ Hpush)
    as (v1' & [= <-] & Ha1 & Hg1 & _).
  assert (Hfree1 : grows_freely v1).
  { destruct Hfree as (a & Ha & Hall). exists a. split; [congruence | exact Hall]. }
  destruct (pop_step limit v1 b1 Hv1) as (st2 & v2 & Hpop & Hok2 & Hdone2);
    try (rewrite ?Ha1, ?Hg1, ?He1, ?Hs1; first [assumption | lia]).
  rewrite (Hok2 (or_introl Hfree1)) in *.
  destruct (Hdone2 eq_refl) as (Hs2 & He2 & b2 & Hv2 & Hlow2).
  exists v1, v2. split; [exact Hpush |]. split; [exact Hpop |].
  apply (same_sequence_consistent v v2 b b2 Hv Hv2); try lia; try nia.
  intros i Hi. rewrite Hlow2 by (rewrite Hs1, He1; nia). apply Hlow1. exact Hi.
Qed.

Lemma push_then_pop_restores_witness :
  exists v1 v2,
    ZyanVectorPush (Some sample_owned) (Some sample_block)
    = Ok (ZYAN_STATUS_SUCCESS, Some v1) /\
    ZyanVectorPop (Some v1) = Ok (ZYAN_STATUS_SUCCESS, Some v2) /\
    same_sequence sample_owned v2.
Proof.
  apply (push_then_pop_restores (2 ^ 24) sample_owned sample_storage sample_block).
  - exact sample_owned_consistent.
  - exact sample_owned_keeps.
  - exact sample_owned_grows_freely.
  - exact scales_up_2_0.
  - by_evaluation.
  - by_evaluation.
  - by_evaluation.
Defined.

(** X9.  Round trip.  Inserting one element and deleting it again at the
    same index gives back the sequence the vector held, whenever both calls
    succeed and the capacity they leave is not below the size (the deletion
    may shrink the storage). *)
Theorem insert_then_delete_restores_sequence
    (v v1 v2 : ZyanVector) (b : buffer) (element : option buffer) (index : Z) :
  consistent v b ->
  (forall a, v.(allocator) = Some a -> reallocate_keeps a) ->
  0 <= index ->
  (v.(size) + 2) * v.(element_size) < ZYAN_USIZE_MODULUS ->
  ZyanVectorInsert (Some v) index element = Ok (ZYAN_STATUS_SUCCESS, Some v1) ->
  ZyanVectorDelete (Some v1) index = Ok (ZYAN_STATUS_SUCCESS, Some v2) ->
  v.(size) <= v2.(capacity) ->
  same_sequence v v2.
Proof.
  intros (Hdata & Hes & Hsize & Hcap & Hfits) Hkeeps Hindex Hwrap Hinsert Hdelete Hroom.
  exact (insert_then_delete_restores v v1 v2 b element index Hkeeps Hdata Hes Hindex
           Hsize Hfits Hwrap Hinsert Hdelete Hroom).
Qed.

Lemma insert_then_delete_restores_sequence_witness :
  exists v1 v2,
    ZyanVectorInsert (Some (set_size sample_owned 2)) 0 (Some sample_block)
    = Ok (ZYAN_STATUS_SUCCESS, Some v1) /\
    ZyanVectorDelete (Some v1) 0 = Ok (ZYAN_STATUS_SUCCESS, Some v2) /\
    same_sequence (set_size sample_owned 2) v2.
Proof.
  eexists. eexists. split; [vm_compute; reflexivity |].
  split; [vm_compute; reflexivity |].
  eapply (insert_then_delete_restores_sequence (set_size sample_owned 2) _ _
            sample_storage (Some sample_block) 0).
  - unfold consistent. cbn. repeat split; lia.
  - intros a [= <-]. exact heap_allocator_keeps.
  - by_evaluation.
  - by_evaluation.
  - vm_compute. reflexivity.
  - vm_compute. reflexivity.
  - by_evaluation.
Defined.

(* ================================================================== *)
(** * Lookup and assignment                                           *)
(* ================================================================== *)

(** X10.  [ZyanVectorGet] and [ZyanVectorGetConst] on a consistent vector give
    the same answer; for an index below the size it is the address
    [index * element_size] from the start of the storage, with the whole
    element inside the storage; for any other index it is
    [ZYAN_STATUS_OUT_OF_RANGE], and the variable of the caller is left as it
    was. *)
Theorem get_yields_element_address
    (v : ZyanVector) (b : buffer) (index out : Z) :
  consistent v b ->
  v.(size) * v.(element_size) < ZYAN_USIZE_MODULUS ->
  0 <= index ->
  ZyanVectorGet (Some v) index (Some out) = ZyanVectorGetConst (Some v) index (Some out) /\
  (index < v.(size) ->
   ZyanVectorGet (Some v) index (Some out)
   = Ok (ZYAN_STATUS_SUCCESS, Some (index * v.(element_size))) /\
   index * v.(element_size) + v.(element_size) <= buf_len b) /\
  (v.(size) <= index ->
   ZyanVectorGet (Some v) index (Some out) = Ok (ZYAN_STATUS_OUT_OF_RANGE, Some out)).
Proof.
  intros (Hdata & Hes & Hsize & Hcap & Hfits) Hwrap Hindex.
  split; [reflexivity |]. unfold ZyanVectorGet. split.
  - intros Hin.
    replace (size v <=? index) with false by (symmetry; apply Z.leb_gt; lia).
    unfold ZYAN_VECTOR_OFFSET, usize_mul.
    rewrite usize_small by (unfold in_usize; nia).
    split; [reflexivity | nia].
  - intros Hout.
    replace (size v <=? index) with true by (symmetry; apply Z.leb_le; lia).
    reflexivity.
Qed.

Lemma get_yields_element_address_witness :
  ZyanVectorGet (Some sample_owned) 2 (Some 0) = Ok (ZYAN_STATUS_SUCCESS, Some 2) /\
  ZyanVectorGet (Some sample_owned) 3 (Some 0) = Ok (ZYAN_STATUS_OUT_OF_RANGE, Some 0).
Proof.
  destruct (get_yields_element_address sample_owned sample_storage 2 0) as (_ & Hin & _);
    [exact sample_owned_consistent | by_evaluation | by_evaluation |].
  destruct (get_yields_element_address sample_owned sample_storage 3 0) as (_ & _ & Hout);
    [exact sample_owned_consistent | by_evaluation | by_evaluation |].
  split; [apply Hin | apply Hout]; by_evaluation.
Defined.

(** X11.  [ZyanVectorAssign] on a consistent vector: for an index below the
    size it succeeds, keeps size and capacity, makes the element at [index]
    hold the bytes of the caller's element and leaves every other element as
    it was; for any other index it answers [ZYAN_STATUS_OUT_OF_RANGE] and
    leaves the vector alone. *)
Theorem assign_replaces_one_element
    (v : ZyanVector) (b e : buffer) (index : Z) :
  consistent v b ->
  v.(size) * v.(element_size) < ZYAN_USIZE_MODULUS ->
  0 <= index ->
  v.(element_size) <= buf_len e ->
  (index < v.(size) ->
   exists w,
     ZyanVectorAssign (Some v) index (Some e) = Ok (ZYAN_STATUS_SUCCESS, Some w) /\
     w.(size) = v.(size) /\ w.(capacity) = v.(capacity) /\
     read_element w index = Ok (source_element v.(element_size) e 0) /\
     forall j, 0 <= j < v.(size) -> j <> index -> read_element w j = read_element v j) /\
  (v.(size) <= index ->
   ZyanVectorAssign (Some v) index (Some e) = Ok (ZYAN_STATUS_OUT_OF_RANGE, Some v)).
Proof.
  intros Hv Hwrap Hindex Hsource.
  pose proof Hv as (Hdata & Hes & Hsize & Hcap & Hfits).
  split.
  - intros Hin.
    destruct (assign_step v b e index Hv Hwrap) as (b' & Hrun & Hlen & Hnew & Hold);
      [lia | exact Hsource |].
    assert (Hw : consistent (set_data v (Some b')) b').
    { unfold consistent. cbn [data size capacity element_size set_data].
      rewrite Hlen. auto. }
    eexists. split; [exact Hrun |].
    split; [reflexivity |]. split; [reflexivity |]. split.
    + apply (read_element_copied (set_data v (Some b')) b' e index 0 Hw);
        cbn [size element_size set_data]; try lia.
      intros i Hi. rewrite Hnew by lia. f_equal. lia.
    + intros j Hj Hne.
      apply (read_element_moved v (set_data v (Some b')) b b' j j Hv Hw);
        cbn [size element_size set_data]; try lia.
      intros i Hi. rewrite Hold by nia. f_equal. lia.
  - intros Hout. unfold ZyanVectorAssign.
    replace (size v <=? index) with true by (symmetry; apply Z.leb_le; lia).
    reflexivity.
Qed.

Lemma assign_replaces_one_element_witness :
  exists w,
    ZyanVectorAssign (Some sample_owned) 1 (Some sample_block)
    = Ok (ZYAN_STATUS_SUCCESS, Some w) /\
    read_element w 0 = Ok ["A"%byte] /\
    read_element w 1 = Ok ["x"%byte] /\
    read_element w 2 = Ok ["C"%byte].
Proof.
  destruct (assign_replaces_one_element sample_owned sample_storage sample_block 1)
    as (Hin & _).
  - exact sample_owned_consistent.
  - by_evaluation.
  - by_evaluation.
  - by_evaluation.
  - destruct Hin as (w & Hrun & _ & _ & Hnew & Hold); [by_evaluation |].
    exists w. split; [exact Hrun |].
    split; [rewrite (Hold 0) by (try by_evaluation; discriminate); reflexivity |].
    split; [exact Hnew |].
    rewrite (Hold 2) by (try by_evaluation; discriminate). reflexivity.
Defined.

(* ================================================================== *)
(** * Memory management                                               *)
(* ================================================================== *)

(** X12.  [ZyanVectorReserve] on a consistent vector returns.  A request
    within the capacity changes nothing; a larger one is refused with
    [ZYAN_STATUS_INSUFFICIENT_BUFFER_SIZE] without an allocator and succeeds
    with one that never refuses.  After a success the capacity is the larger
    of the old capacity and the request, so the call never lowers it,
    [ZyanVectorCapacity] reports it, and the vector holds the same
    sequence. *)
Theorem reserve_raises_capacity (v : ZyanVector) (b : buffer) (capacity' : Z) :
  consistent v b ->
  (forall a, v.(allocator) = Some a -> reallocate_keeps a) ->
  v.(size) * v.(element_size) < ZYAN_USIZE_MODULUS ->
  exists status w,
    ZyanVectorReserve (Some v) capacity' = Ok (status, Some w) /\
    (capacity' <= v.(capacity) -> status = ZYAN_STATUS_SUCCESS /\ w = v) /\
    (v.(allocator) = None -> v.(capacity) < capacity' ->
     status = ZYAN_STATUS_INSUFFICIENT_BUFFER_SIZE /\ w = v) /\
    (grows_freely v -> status = ZYAN_STATUS_SUCCESS) /\
    (status = ZYAN_STATUS_SUCCESS ->
     w.(capacity) = Z.max v.(capacity) capacity' /\
     (forall out,
        ZyanVectorCapacity (Some w) (Some out)
        = Ok (ZYAN_STATUS_SUCCESS, Some (Z.max v.(capacity) capacity'))) /\
     same_sequence v w).
Proof.
  intros Hv Hkeeps Hwrap.
  destruct (reserve_step v b capacity' Hv Hkeeps)
    as (status & w & Hrun & Hwithin & Hfree & Hrefuse & Hdone).
  exists status, w. split; [exact Hrun |]. split; [exact Hwithin |].
  split; [exact Hrefuse |]. split; [exact Hfree |].
  intros Hst. destruct (Hdone Hst) as (Hs & He & Hc & b' & Hw & Hbytes).
  split; [exact Hc |].
  split; [intros out; unfold ZyanVectorCapacity; rewrite Hc; reflexivity |].
  exact (same_sequence_consistent v w b b' Hv Hw Hs He Hwrap Hbytes).
Qed.

Lemma reserve_raises_capacity_witness :
  exists w,
    ZyanVectorReserve (Some sample_owned) 9 = Ok (ZYAN_STATUS_SUCCESS, Some w) /\
    w.(capacity) = 9 /\ same_sequence sample_owned w.
Proof.
  destruct (reserve_raises_capacity sample_owned sample_storage 9)
    as (status & w & Hrun & _ & _ & Hfree & Hdone).
  - exact sample_owned_consistent.
  - exact sample_owned_keeps.
  - by_evaluation.
  - assert (Hst : status = ZYAN_STATUS_SUCCESS) by (exact (Hfree sample_owned_grows_freely)).
    destruct (Hdone Hst) as (Hc & _ & Hsame).
    exists w. rewrite Hst in Hrun. split; [exact Hrun |]. split; [exact Hc | exact Hsame].
Defined.

(** X13.  [ZyanVectorShrinkToFit] on a consistent vector returns.  Without an
    allocator it succeeds and changes nothing; with an allocator that never
    refuses it succeeds; after a success with an allocator the capacity is
    the size, or one for an empty vector, and the vector holds the same
    sequence. *)
Theorem shrink_to_fit_trims_capacity (v : ZyanVector) (b : buffer) :
  consistent v b ->
  (forall a, v.(allocator) = Some a -> reallocate_keeps a) ->
  v.(size) * v.(element_size) < ZYAN_USIZE_MODULUS ->
  exists status w,
    ZyanVectorShrinkToFit (Some v) = Ok (status, Some w) /\
    (v.(allocator) = None -> status = ZYAN_STATUS_SUCCESS /\ w = v) /\
    (grows_freely v -> status = ZYAN_STATUS_SUCCESS) /\
    (status = ZYAN_STATUS_SUCCESS ->
     (v.(allocator) <> None -> w.(capacity) = Z.max 1 v.(size)) /\
     same_sequence v w).
Proof.
  intros Hv Hkeeps Hwrap.
  destruct (shrink_to_fit_step v b Hv Hkeeps) as (status & w & Hrun & Hnone & Hfree & Hdone).
  exists status, w. split; [exact Hrun |]. split; [exact Hnone |]. split; [exact Hfree |].
  intros Hst. destruct (Hdone Hst) as (Hs & He & Hc & b' & Hw & Hbytes).
  split; [exact Hc |].
  exact (same_sequence_consistent v w b b' Hv Hw Hs He Hwrap Hbytes).
Qed.

Lemma shrink_to_fit_trims_capacity_witness :
  exists w,
    ZyanVectorShrinkToFit (Some sample_owned) = Ok (ZYAN_STATUS_SUCCESS, Some w) /\
    w.(capacity) = 3 /\ same_sequence sample_owned w.
Proof.
  destruct (shrink_to_fit_trims_capacity sample_owned sample_storage)
    as (status & w & Hrun & _ & Hfree & Hdone).
  - exact sample_owned_consistent.
  - exact sample_owned_keeps.
  - by_evaluation.
  - assert (Hst : status = ZYAN_STATUS_SUCCESS) by (exact (Hfree sample_owned_grows_freely)).
    destruct (Hdone Hst) as (Hc & Hsame).
    exists w. rewrite Hst in Hrun. split; [exact Hrun |].
    split; [apply Hc; discriminate | exact Hsame].
Defined.

(** X14.  [ZyanVectorResize] on a consistent vector, to a size below [limit]:
    the call returns; it succeeds when the allocator never refuses, or when
    the size is within the capacity and shrinking is disabled; after a
    success the size is the requested one and every element below both the
    old and the new size reads as before.  [ZyanVectorClear] is the case of
    size zero. *)
Theorem resize_sets_size (limit : Z) (v : ZyanVector) (b : buffer) (size' : Z) :
  consistent v b ->
  (forall a, v.(allocator) = Some a -> reallocate_keeps a) ->
  scales_up v.(growth_factor) limit ->
  limit * v.(element_size) <= ZYAN_USIZE_MODULUS ->
  v.(size) < limit ->
  0 <= size' < limit ->
  exists status w,
    ZyanVectorResize (Some v) size' = Ok (status, Some w) /\
    (size' = 0 -> ZyanVectorClear (Some v) = Ok (status, Some w)) /\
    (grows_freely v \/ (size' <= v.(capacity) /\ v.(shrink_threshold) = float_0_0) ->
     status = ZYAN_STATUS_SUCCESS) /\
    (status = ZYAN_STATUS_SUCCESS ->
     w.(size) = size' /\
     forall j, 0 <= j < v.(size) -> j < size' -> read_element w j = read_element v j).
Proof.
  intros Hv Hkeeps Hscale Hlimit Hbound Hnew.
  pose proof Hv as (_ & Hes & Hsize & _).
  destruct (resize_step limit v b size' Hv Hkeeps Hscale Hnew)
    as (status & w & Hrun & Hok & Hdone).
  exists status, w. split; [exact Hrun |].
  split; [intros ->; exact Hrun |]. split; [exact Hok |].
  intros Hst. destruct (Hdone Hst) as (Hs & He & b' & Hw & Hbytes).
  split; [exact Hs |].
  intros j Hj Hj'. apply (read_element_moved v w b b' j j Hv Hw He);
    rewrite ?Hs; try nia.
  intros i Hi. rewrite Hbytes by nia. f_equal. lia.
Qed.

Lemma resize_sets_size_witness :
  exists w,
    ZyanVectorResize (Some sample_borrowed) 2 = Ok (ZYAN_STATUS_SUCCESS, Some w) /\
    w.(size) = 2 /\
    read_element w 1 = Ok ["B"%byte].
Proof.
  destruct (resize_sets_size (2 ^ 24) sample_borrowed sample_storage 2)
    as (status & w & Hrun & _ & Hok & Hdone).
  - exact sample_borrowed_consistent.
  - exact sample_borrowed_keeps.
  - exact scales_up_1_0.
  - by_evaluation.
  - by_evaluation.
  - by_evaluation.
  - assert (Hst : status = ZYAN_STATUS_SUCCESS)
      by (apply Hok; right; split; [by_evaluation | reflexivity]).
    destruct (Hdone Hst) as (Hs & Hold).
    exists w. rewrite Hst in Hrun. split; [exact Hrun |]. split; [exact Hs |].
    rewrite (Hold 1) by by_evaluation. reflexivity.
Defined.

(** X15.  On a vector over a caller's buffer, clearing and then resizing
    back to the old size both succeed and give back the very state the
    vector had, elements included: neither call erases or initialises an
    element. *)
Theorem clear_then_resize_shows_old_elements (v : ZyanVector) :
  borrowing v ->
  0 <= v.(size) <= v.(capacity) ->
  perform_all [OpClear; OpResize v.(size)] (Some v)
  = Ok ([ZYAN_STATUS_SUCCESS; ZYAN_STATUS_SUCCESS], Some v).
Proof.
  intros (Ha & Hg & Ht) Hsize.
  cbn [perform_all perform]. unfold ZyanVectorClear, ZyanVectorResize.
  unfold ZYAN_VECTOR_SHOULD_GROW.
  replace (capacity v <? 0) with false by (symmetry; apply Z.ltb_ge; lia).
  rewrite Ht, should_shrink_disabled by lia.
  cbn [orb ZYAN_CHECK through_pointer bind fst snd ZYAN_SUCCESS capacity
       shrink_threshold set_size].
  replace (capacity v <? size v) with false by (symmetry; apply Z.ltb_ge; lia).
  rewrite Ht, should_shrink_disabled by lia.
  cbn [orb ZYAN_CHECK through_pointer bind fst snd ZYAN_SUCCESS].
  destruct v; reflexivity.
Qed.

Lemma clear_then_resize_shows_old_elements_witness :
  perform_all [OpClear; OpResize 3] (Some sample_borrowed)
  = Ok ([ZYAN_STATUS_SUCCESS; ZYAN_STATUS_SUCCESS], Some sample_borrowed).
Proof.
  apply (clear_then_resize_shows_old_elements sample_borrowed).
  - unfold borrowing. repeat split.
  - by_evaluation.
Defined.

(* ================================================================== *)
(** * What no call changes                                            *)
(* ================================================================== *)

(** X16.  Over any sequence of calls, whatever their statuses, the vector
    handle stays valid and the allocator, the growth factor, the shrink
    threshold and the element size stay what the initialisation made them; a
    capacity of one or more stays one or more; and without an allocator the
    capacity does not change at all. *)
Theorem calls_keep_the_configuration
    (ops : list operation) (v : ZyanVector)
    (statuses : list ZyanStatus) (after : option ZyanVector) :
  perform_all ops (Some v) = Ok (statuses, after) ->
  exists w,
    after = Some w /\
    w.(allocator) = v.(allocator) /\
    w.(growth_factor) = v.(growth_factor) /\
    w.(shrink_threshold) = v.(shrink_threshold) /\
    w.(element_size) = v.(element_size) /\
    (1 <= v.(capacity) -> 1 <= w.(capacity)) /\
    (v.(allocator) = None -> w.(capacity) = v.(capacity)).
Proof.
  intros Hrun.
  destruct (perform_all_keeps_policy ops v statuses after Hrun) as (w & -> & Hp).
  exists w. split; [reflexivity | exact Hp].
Qed.

Lemma calls_keep_the_configuration_witness :
  exists w,
    Some (set_size sample_owned 2) = Some w /\
    w.(allocator) = sample_owned.(allocator) /\
    w.(growth_factor) = sample_owned.(growth_factor) /\
    w.(shrink_threshold) = sample_owned.(shrink_threshold) /\
    w.(element_size) = sample_owned.(element_size) /\
    (1 <= sample_owned.(capacity) -> 1 <= w.(capacity)) /\
    (sample_owned.(allocator) = None -> w.(capacity) = sample_owned.(capacity)).
Proof.
  apply (calls_keep_the_configuration [OpPop] sample_owned [ZYAN_STATUS_SUCCESS]).
  reflexivity.
Defined.

(* ================================================================== *)
(** * Initialisation and destruction                                  *)
(* ================================================================== *)

(** X17.  A successful [ZyanVectorInitEx], with an allocator whose [allocate]
    hands out a block of the size it was asked for, leaves an empty
    consistent vector: size zero, no elements, the requested capacity floored
    at one, the element size, allocator and policy parameters as given; and
    the parameters have passed the validation.  An element size of zero, a
    growth factor below 1.0 and a threshold below 0.0 or above 1.0 are
    refused with [ZYAN_STATUS_INVALID_ARGUMENT], the vector left alone. *)
Theorem init_ex_gives_empty_vector
    (u : ZyanVector) (element_size' capacity' : Z) (a : ZyanAllocator)
    (growth_factor' shrink_threshold' : float) :
  allocate_gives a ->
  0 <= element_size' ->
  ((element_size' = 0 \/ float_lt growth_factor' float_1_0 = true \/
    float_lt shrink_threshold' float_0_0 = true \/
    float_lt float_1_0 shrink_threshold' = true) ->
   ZyanVectorInitEx (Some u) element_size' capacity' (Some a)
     growth_factor' shrink_threshold'
   = Ok (ZYAN_STATUS_INVALID_ARGUMENT, Some u)) /\
  (forall after,
     ZyanVectorInitEx (Some u) element_size' capacity' (Some a)
       growth_factor' shrink_threshold'
     = Ok (ZYAN_STATUS_SUCCESS, after) ->
     exists v b,
       after = Some v /\ consistent v b /\
       v.(size) = 0 /\ elements_of v = [] /\
       v.(capacity) = Z.max 1 capacity' /\
       v.(element_size) = element_size' /\
       v.(allocator) = Some a /\
       v.(growth_factor) = growth_factor' /\
       v.(shrink_threshold) = shrink_threshold' /\
       float_lt growth_factor' float_1_0 = false /\
       float_lt shrink_threshold' float_0_0 = false /\
       float_lt float_1_0 shrink_threshold' = false).
Proof.
  intros Hgives Hes. unfold ZyanVectorInitEx. split.
  - intros Hbad.
    replace ((element_size' =? 0) || float_lt growth_factor' float_1_0
             || float_lt shrink_threshold' float_0_0
             || float_lt float_1_0 shrink_threshold') with true; [reflexivity |].
    symmetry. destruct Hbad as [-> | [-> | [-> | ->]]];
      rewrite ?orb_true_r; reflexivity.
  - intros after.
    destruct (Z.eqb_spec element_size' 0) as [Hz | Hnz]; [discriminate |].
    destruct (float_lt growth_factor' float_1_0); [discriminate |].
    destruct (float_lt shrink_threshold' float_0_0); [discriminate |].
    destruct (float_lt float_1_0 shrink_threshold'); [discriminate |].
    cbn [orb]. cbv zeta. cbn [element_size capacity].
    destruct (allocate a element_size' (ZYAN_MAX ZYAN_VECTOR_MIN_CAPACITY capacity'))
      as [status p] eqn:Halloc.
    intros [= -> <-].
    destruct (Hgives _ _ _ Halloc) as (b & -> & Hlen).
    unfold ZYAN_VECTOR_MIN_CAPACITY in *. rewrite ZYAN_MAX_is_max in *.
    eexists. exists b. split; [reflexivity |].
    cbn [size capacity element_size allocator growth_factor shrink_threshold set_data].
    split.
    { unfold consistent. cbn [data size capacity element_size set_data].
      repeat split; try lia. }
    repeat split; reflexivity.
Qed.

Lemma init_ex_gives_empty_vector_witness :
  exists v,
    ZyanVectorInitEx (Some sample_owned) 1 0 (Some heap_allocator)
      ZYAN_VECTOR_GROWTH_FACTOR ZYAN_VECTOR_SHRINK_THRESHOLD
    = Ok (ZYAN_STATUS_SUCCESS, Some v) /\
    v.(size) = 0 /\ v.(capacity) = 1 /\ elements_of v = [].
Proof.
  destruct (init_ex_gives_empty_vector sample_owned 1 0 heap_allocator
              ZYAN_VECTOR_GROWTH_FACTOR ZYAN_VECTOR_SHRINK_THRESHOLD)
    as (_ & Hgood).
  - exact heap_allocator_gives.
  - by_evaluation.
  - edestruct Hgood as (v & b & Hafter & _ & Hs & He & Hc & _); [reflexivity |].
    exists v. rewrite <- Hafter. split; [reflexivity |].
    split; [exact Hs |]. split; [exact Hc | exact He].
Defined.

(** X18.  [ZyanVectorInitBuffer] refuses an element size or a capacity of
    zero with [ZYAN_STATUS_INVALID_ARGUMENT]; otherwise it succeeds, and over
    a buffer that holds the capacity it leaves an empty consistent vector
    with no allocator and the capacity it was given, which
    [ZyanVectorDestroy] accepts without touching it. *)
Theorem init_buffer_gives_borrowed_vector
    (u : ZyanVector) (element_size' capacity' : Z) (b : buffer) :
  ((element_size' = 0 \/ capacity' = 0) ->
   ZyanVectorInitBuffer (Some u) element_size' (Some b) capacity'
   = Ok (ZYAN_STATUS_INVALID_ARGUMENT, Some u)) /\
  (0 < element_size' -> 0 < capacity' ->
   capacity' * element_size' <= buf_len b ->
   exists v,
     ZyanVectorInitBuffer (Some u) element_size' (Some b) capacity'
     = Ok (ZYAN_STATUS_SUCCESS, Some v) /\
     borrowing v /\ consistent v b /\
     v.(size) = 0 /\ elements_of v = [] /\
     v.(capacity) = capacity' /\ v.(element_size) = element_size' /\
     ZyanVectorDestroy (Some v) = Ok (ZYAN_STATUS_SUCCESS, Some v)).
Proof.
  unfold ZyanVectorInitBuffer. split.
  - intros [-> | ->]; [reflexivity |]. rewrite orb_true_r. reflexivity.
  - intros Hes Hcap Hfits.
    replace (element_size' =? 0) with false by (symmetry; apply Z.eqb_neq; lia).
    replace (capacity' =? 0) with false by (symmetry; apply Z.eqb_neq; lia).
    eexists. split; [reflexivity |].
    split; [unfold borrowing; auto |].
    split; [unfold consistent; cbn; repeat split; lia |].
    repeat split; reflexivity.
Qed.

(** X19.  A vector over a caller's buffer is never released: after any
    sequence of calls, whatever their statuses, [ZyanVectorDestroy] succeeds
    and leaves the vector, and with it the caller's buffer, as it found
    them. *)
Theorem destroy_leaves_borrowed_buffer
    (ops : list operation) (v : ZyanVector)
    (statuses : list ZyanStatus) (after : option ZyanVector) :
  v.(allocator) = None ->
  perform_all ops (Some v) = Ok (statuses, after) ->
  ZyanVectorDestroy after = Ok (ZYAN_STATUS_SUCCESS, after).
Proof.
  intros Hnone Hrun.
  destruct (perform_all_keeps_policy ops v statuses after Hrun) as (w & -> & Ha & _).
  unfold ZyanVectorDestroy. rewrite Ha, Hnone. reflexivity.
Qed.

Lemma destroy_leaves_borrowed_buffer_witness :
  ZyanVectorDestroy (Some (set_size sample_borrowed 2))
  = Ok (ZYAN_STATUS_SUCCESS, Some (set_size sample_borrowed 2)).
Proof.
  apply (destroy_leaves_borrowed_buffer [OpPop] sample_borrowed [ZYAN_STATUS_SUCCESS]).
  - reflexivity.
  - reflexivity.
Defined.

(** X20.  The validation of [ZyanVectorInitEx] lets a growth factor that is
    not a number through, since [growth_factor < 1.0f] is false for it: the
    call goes on to [allocate] and stores the factor.  On such a vector the
    first push that has to grow converts a NaN to [ZyanUSize], which is
    undefined. *)
Theorem nan_growth_factor_is_accepted
    (u : ZyanVector) (element_size' capacity' : Z) (a : ZyanAllocator)
    (shrink_threshold' : float) :
  element_size' <> 0 ->
  float_lt shrink_threshold' float_0_0 = false ->
  float_lt float_1_0 shrink_threshold' = false ->
  (exists status v,
     ZyanVectorInitEx (Some u) element_size' capacity' (Some a) S754_nan shrink_threshold'
     = Ok (status, Some v) /\
     status = fst (a.(allocate) element_size' (Z.max 1 capacity')) /\
     v.(growth_factor) = S754_nan) /\
  (forall v e,
     v.(growth_factor) = S754_nan ->
     v.(capacity) < usize_add v.(size) 1 ->
     ZyanVectorPush (Some v) (Some e) = Undefined InvalidConversion).
Proof.
  intros Hes Hlow Hhigh. split.
  - unfold ZyanVectorInitEx.
    replace (element_size' =? 0) with false by (symmetry; apply Z.eqb_neq; exact Hes).
    rewrite Hlow, Hhigh.
    change (float_lt S754_nan float_1_0) with false. cbn [orb]. cbv zeta.
    cbn [element_size capacity]. unfold ZYAN_VECTOR_MIN_CAPACITY.
    rewrite ZYAN_MAX_is_max.
    destruct (allocate a element_size' (Z.max 1 capacity')) as [status p].
    eexists. eexists. split; [reflexivity |]. split; reflexivity.
  - intros v e Hnan Hfull. unfold ZyanVectorPush, ZYAN_VECTOR_SHOULD_GROW.
    replace (capacity v <? usize_add (size v) 1) with true
      by (symmetry; apply Z.ltb_lt; exact Hfull).
    unfold scaled_size. rewrite Hnan.
    replace (float_mul (float_of_usize (usize_add (size v) 1)) S754_nan) with S754_nan.
    + reflexivity.
    + unfold float_mul, SFmul.
      destruct (float_of_usize (usize_add (size v) 1)); reflexivity.
Qed.

Lemma nan_growth_factor_is_accepted_witness :
  ZyanVectorPush
    (Some (mkVector (Some heap_allocator) S754_nan ZYAN_VECTOR_SHRINK_THRESHOLD
             4 4 1 (Some sample_storage)))
    (Some sample_block)
  = Undefined InvalidConversion.
Proof.
  apply (proj2 (nan_growth_factor_is_accepted sample_owned 1 4 heap_allocator
                  ZYAN_VECTOR_SHRINK_THRESHOLD ltac:(discriminate) eq_refl eq_refl)).
  - reflexivity.
  - by_evaluation.
Defined.

(* ================================================================== *)
(** * The default policy                                              *)
(* ================================================================== *)

(** X21.  With the defaults of [ZyanVectorInit] (growth factor 2.0, shrink
    threshold 0.25) and sizes and capacities below 2^24, the capacity a call
    leaves is exact.  A push grows only when the vector is full, to twice the
    new size.  A pop shrinks exactly when the new size is below a quarter of
    the capacity, to twice the new size, or to one when the vector becomes
    empty.  A resize reallocates when the new size is above the capacity or
    below a quarter of it, again to twice the new size floored at one, so
    that [ZyanVectorClear] leaves a capacity of one.  The capacity is stored
    before the allocator is asked, so this holds whatever the status. *)
Theorem default_policy_capacities
    (v w : ZyanVector) (a : ZyanAllocator) (status : ZyanStatus) :
  v.(allocator) = Some a ->
  v.(growth_factor) = ZYAN_VECTOR_GROWTH_FACTOR ->
  v.(shrink_threshold) = ZYAN_VECTOR_SHRINK_THRESHOLD ->
  1 <= v.(capacity) < 2 ^ 24 ->
  0 <= v.(size) < 2 ^ 24 - 1 ->
  (forall e,
     ZyanVectorPush (Some v) (Some e) = Ok (status, Some w) ->
     w.(capacity) = if v.(capacity) <? v.(size) + 1
                    then 2 * (v.(size) + 1) else v.(capacity)) /\
  (0 < v.(size) ->
   ZyanVectorPop (Some v) = Ok (status, Some w) ->
   w.(capacity) = if 4 * (v.(size) - 1) <? v.(capacity)
                  then Z.max 1 (2 * (v.(size) - 1)) else v.(capacity)) /\
  (forall size',
     0 <= size' < 2 ^ 24 ->
     ZyanVectorResize (Some v) size' = Ok (status, Some w) ->
     w.(capacity) = if (v.(capacity) <? size') || (4 * size' <? v.(capacity))
                    then Z.max 1 (2 * size') else v.(capacity)) /\
  (ZyanVectorClear (Some v) = Ok (status, Some w) -> w.(capacity) = 1).
Proof.
  intros Ha Hgf Hthr Hcap Hsize.
  unfold ZYAN_VECTOR_GROWTH_FACTOR in Hgf. unfold ZYAN_VECTOR_SHRINK_THRESHOLD in Hthr.
  assert (HM := ZYAN_USIZE_MODULUS_value).
  assert (H24 : 2 ^ 24 = 16777216) by reflexivity.
  assert (Hresize : forall size',
    0 <= size' < 2 ^ 24 ->
    ZyanVectorResize (Some v) size' = Ok (status, Some w) ->
    w.(capacity) = if (v.(capacity) <? size') || (4 * size' <? v.(capacity))
                   then Z.max 1 (2 * size') else v.(capacity)).
  { intros size' Hnew Hrun. unfold ZyanVectorResize in Hrun.
    unfold ZYAN_VECTOR_SHOULD_GROW in Hrun.
    rewrite Hthr, should_shrink_0_25 in Hrun by lia.
    apply through_pointer_inv in Hrun. destruct Hrun as (w' & Hrun & [= <-]).
    unfold ZYAN_CHECK in Hrun.
    destruct ((capacity v <? size') || (4 * size' <? capacity v)).
    - rewrite scaled_size_2_0 in Hrun by (try exact Hgf; lia). cbn [bind] in Hrun.
      destruct (ZyanVectorReallocate v (2 * size')) as [[st0 w0] |] eqn:Hre; [| discriminate].
      destruct (ZyanVectorReallocate_capacity v w0 _ _ (proj1 Hcap) Hre) as (Hown & _).
      cbn [bind fst snd] in Hrun.
      destruct (ZYAN_SUCCESS st0); injection Hrun as _ <-;
        cbn [capacity set_size]; apply Hown; congruence.
    - cbn [bind fst snd ZYAN_SUCCESS] in Hrun. injection Hrun as _ <-. reflexivity. }
  split; [| split; [| split]].
  - intros e Hrun. unfold ZyanVectorPush in Hrun.
    replace (usize_add (size v) 1) with (size v + 1) in Hrun
      by (symmetry; apply usize_small; unfold in_usize; lia).
    unfold ZYAN_VECTOR_SHOULD_GROW in Hrun.
    apply through_pointer_inv in Hrun. destruct Hrun as (w' & Hrun & [= <-]).
    unfold ZYAN_CHECK in Hrun.
    destruct (capacity v <? size v + 1).
    + rewrite scaled_size_2_0 in Hrun by (try assumption; lia). cbn [bind] in Hrun.
      destruct (ZyanVectorReallocate v (ZYAN_MAX 1 (2 * (size v + 1))))
        as [[st0 w0] |] eqn:Hre; [| discriminate].
      destruct (ZyanVectorReallocate_capacity v w0 _ _ (proj1 Hcap) Hre) as (Hown & _).
      rewrite ZYAN_MAX_is_max in Hown.
      cbn [bind fst snd] in Hrun.
      destruct (ZYAN_SUCCESS st0).
      * destruct (ZYAN_MEMCPY _ _ _ _); [| discriminate].
        cbn [bind] in Hrun. injection Hrun as _ <-.
        cbn [capacity set_size set_data]. rewrite Hown by congruence. lia.
      * injection Hrun as _ <-. rewrite Hown by congruence. lia.
    + cbn [bind fst snd ZYAN_SUCCESS] in Hrun.
      destruct (ZYAN_MEMCPY _ _ _ _); [| discriminate].
      cbn [bind] in Hrun. injection Hrun as _ <-. reflexivity.
  - intros Hpos Hrun. unfold ZyanVectorPop in Hrun.
    replace (size v =? 0) with false in Hrun by (symmetry; apply Z.eqb_neq; lia).
    apply through_pointer_inv in Hrun. destruct Hrun as (w' & Hrun & [= <-]).
    cbv zeta in Hrun. cbn [size capacity shrink_threshold set_size] in Hrun.
    replace (usize_sub (size v) 1) with (size v - 1) in Hrun
      by (symmetry; apply usize_small; unfold in_usize; lia).
    rewrite Hthr, should_shrink_0_25 in Hrun by lia.
    destruct (4 * (size v - 1) <? capacity v).
    + rewrite scaled_size_2_0 in Hrun by (try exact Hgf; lia). cbn [bind] in Hrun.
      destruct (ZyanVectorReallocate_capacity (set_size v (size v - 1)) w _ _
                  (proj1 Hcap) Hrun) as (Hown & _).
      rewrite ZYAN_MAX_is_max in Hown. rewrite Hown by (cbn; congruence). lia.
    + injection Hrun as _ <-. reflexivity.
  - exact Hresize.
  - intros Hrun. unfold ZyanVectorClear in Hrun.
    rewrite (Hresize 0) by (try exact Hrun; lia).
    replace (4 * 0 <? capacity v) with true by (symmetry; apply Z.ltb_lt; lia).
    rewrite orb_true_r. reflexivity.
Qed.

Lemma default_policy_capacities_witness :
  exists status w,
    ZyanVectorPush (Some (set_size sample_owned 4)) (Some sample_block)
    = Ok (status, Some w) /\
    w.(capacity) = 10.
Proof.
  eexists. eexists. split.
  - vm_compute. reflexivity.
  - match goal with
    | |- capacity ?w = _ =>
        apply (proj1 (default_policy_capacities (set_size sample_owned 4) w heap_allocator
                        ZYAN_STATUS_SUCCESS eq_refl eq_refl eq_refl
                        ltac:(by_evaluation) ltac:(by_evaluation))
                 sample_block)
    end.
    vm_compute. reflexivity.
Defined.

(* ================================================================== *)
(** * Building a vector by pushes                                     *)
(* ================================================================== *)

Lemma map_seq_nth (A B : Type) (g : A -> B) (l : list A) (d : A) :
  map (fun i => g (nth i l d)) (seq 0 (length l)) = map g l.
Proof.
  induction l as [| x l IH]; [reflexivity |].
  cbn [length seq map nth]. f_equal.
  rewrite <- seq_shift, map_map. exact IH.
Qed.

(** Pushing the blocks of [l] one after the other onto a consistent vector
    that has room for them or whose allocator never refuses. *)
Lemma push_all_step (limit : Z) (l : list buffer) :
  forall (v : ZyanVector) (b : buffer),
  consistent v b ->
  (forall a, v.(allocator) = Some a -> reallocate_keeps a) ->
  grows_freely v \/ v.(size) + Z.of_nat (length l) <= v.(capacity) ->
  scales_up v.(growth_factor) limit ->
  limit * v.(element_size) <= ZYAN_USIZE_MODULUS ->
  v.(size) + Z.of_nat (length l) < limit ->
  Forall (fun e => v.(element_size) <= buf_len e) l ->
  exists w b',
    perform_all (map (fun e => OpPush (Some e)) l) (Some v)
    = Ok (map (fun _ => ZYAN_STATUS_SUCCESS) l, Some w) /\
    consistent w b' /\
    w.(size) = v.(size) + Z.of_nat (length l) /\
    w.(element_size) = v.(element_size) /\
    (v.(size) + Z.of_nat (length l) <= v.(capacity) -> w.(capacity) = v.(capacity)) /\
    (forall j, 0 <= j < v.(size) -> read_element w j = read_element v j) /\
    (forall k, (k < length l)%nat ->
       read_element w (v.(size) + Z.of_nat k)
       = Ok (source_element v.(element_size) (nth k l (mkBuffer 0 (fun _ => x00))) 0)).
Proof.
  induction l as [| e l IH]; intros v b Hv Hkeeps Hfree Hscale Hlimit Hnew Hblocks.
  - exists v, b. cbn [map perform_all length Z.of_nat].
    split; [reflexivity |]. split; [exact Hv |]. split; [lia |]. split; [reflexivity |].
    split; [reflexivity |]. split; [reflexivity |]. intros k Hk. inversion Hk.
  - pose proof Hv as (_ & Hes & Hsize & _).
    inversion Hblocks as [| e' l' He Hrest]; subst e' l'.
    cbn [length] in Hnew, Hfree. rewrite Nat2Z.inj_succ in Hnew, Hfree.
    destruct (push_step limit v b e Hv Hkeeps Hscale Hlimit) as (st & v1 & Hpush & Hok & Hdone);
      [lia | exact He |].
    assert (Hst : st = ZYAN_STATUS_SUCCESS).
    { apply Hok. destruct Hfree as [Hfree | Hroom]; [right; exact Hfree | left; lia]. }
    subst st.
    destruct (Hdone eq_refl) as (Hs1 & He1 & Hc1 & b1 & Hv1 & Hlow1 & Hnew1).
    destruct (perform_keeps_policy (OpPush (Some e)) v _ _ Hpush)
      as (v1' & [= <-] & Ha1 & Hg1 & _).
    assert (Hfree1 : grows_freely v1 \/ size v1 + Z.of_nat (length l) <= capacity v1).
    { destruct Hfree as [(a & Ha & Hall) | Hroom].
      - left. exists a. split; [congruence | exact Hall].
      - right. rewrite Hc1, Hs1 by lia. lia. }
    assert (Hkeeps1 : forall a, v1.(allocator) = Some a -> reallocate_keeps a)
      by (rewrite Ha1; exact Hkeeps).
    destruct (IH v1 b1 Hv1 Hkeeps1 Hfree1)
      as (w & b' & Hrun & Hw & Hs & Hew & Hcw & Hold & Hadded);
      try (rewrite ?Hg1, ?He1, ?Hs1; first [assumption | lia]).
    exists w, b'. cbn [map perform_all]. cbn [perform]. rewrite Hpush.
    cbn [bind fst snd]. rewrite Hrun. cbn [bind fst snd].
    split; [reflexivity |]. split; [exact Hw |].
    split; [rewrite Hs, Hs1; cbn [length]; lia |].
    split; [congruence |].
    split.
    { cbn [length]. rewrite Nat2Z.inj_succ. intros Hroom.
      rewrite Hcw by (rewrite Hc1, Hs1 by lia; lia). apply Hc1. lia. }
    assert (Hfirst : forall j, 0 <= j < size v -> read_element v1 j = read_element v j).
    { intros j Hj. apply (read_element_moved v v1 b b1 j j Hv Hv1 He1);
        rewrite ?Hs1; try nia.
      intros i Hi. rewrite Hlow1 by nia. f_equal. lia. }
    split.
    + intros j Hj. rewrite Hold by lia. apply Hfirst. exact Hj.
    + intros [| k] Hk.
      * cbn [nth Z.of_nat]. rewrite Z.add_0_r, Hold by lia.
        rewrite <- He1. apply (read_element_copied v1 b1 e (size v) 0 Hv1);
          rewrite ?Hs1, ?He1; try nia.
        intros i Hi. rewrite Hnew1 by lia. f_equal. lia.
      * cbn [nth]. cbn [length] in Hk.
        replace (size v + Z.of_nat (S k)) with (size v1 + Z.of_nat k) by lia.
        rewrite <- He1. apply Hadded. lia.
Qed.

(** X22.  Building a vector.  A vector initialised by [ZyanVectorInit] (the
    default allocator handing out what it is asked for and never refusing a
    reallocation) that receives fewer than 2^24 - 1 pushes accepts them all
    and then holds exactly the pushed elements, in the order of the pushes:
    its size, which [ZyanVectorSize] reports, is their number and element
    [k] reads as the [k]-th one. *)
Theorem pushed_elements_are_stored
    (ZyanAllocatorDefault : ZyanAllocator) (u v : ZyanVector)
    (element_size' capacity' : Z) (l : list buffer) :
  allocate_gives ZyanAllocatorDefault ->
  reallocate_keeps ZyanAllocatorDefault ->
  (forall p element_size' n,
     fst (ZyanAllocatorDefault.(reallocate) p element_size' n) = ZYAN_STATUS_SUCCESS) ->
  0 < element_size' ->
  2 ^ 24 * element_size' <= ZYAN_USIZE_MODULUS ->
  Z.of_nat (length l) < 2 ^ 24 - 1 ->
  Forall (fun e => element_size' <= buf_len e) l ->
  ZyanVectorInit ZyanAllocatorDefault (Some u) element_size' capacity'
  = Ok (ZYAN_STATUS_SUCCESS, Some v) ->
  exists w,
    perform_all (map (fun e => OpPush (Some e)) l) (Some v)
    = Ok (map (fun _ => ZYAN_STATUS_SUCCESS) l, Some w) /\
    w.(size) = Z.of_nat (length l) /\
    (forall out,
       ZyanVectorSize (Some w) (Some out)
       = Ok (ZYAN_STATUS_SUCCESS, Some (Z.of_nat (length l)))) /\
    elements_of w = map (fun e => Ok (source_element element_size' e 0)) l.
Proof.
  intros Hgives Hkeeps Hfree Hes Hlimit Hcount Hblocks Hinit.
  unfold ZyanVectorInit, ZyanVectorInitEx in Hinit.
  replace (element_size' =? 0) with false in Hinit by (symmetry; apply Z.eqb_neq; lia).
  change (float_lt ZYAN_VECTOR_GROWTH_FACTOR float_1_0) with false in Hinit.
  change (float_lt ZYAN_VECTOR_SHRINK_THRESHOLD float_0_0) with false in Hinit.
  change (float_lt float_1_0 ZYAN_VECTOR_SHRINK_THRESHOLD) with false in Hinit.
  cbn [orb] in Hinit. cbv zeta in Hinit. cbn [element_size capacity] in Hinit.
  destruct (allocate ZyanAllocatorDefault element_size'
              (ZYAN_MAX ZYAN_VECTOR_MIN_CAPACITY capacity')) as [status p] eqn:Halloc.
  injection Hinit as -> <-.
  destruct (Hgives _ _ _ Halloc) as (b & -> & Hlen).
  unfold ZYAN_VECTOR_MIN_CAPACITY in *. rewrite ZYAN_MAX_is_max in *.
  match goal with
  | |- context [perform_all _ (Some ?x)] => set (v0 := x)
  end.
  destruct (push_all_step (2 ^ 24) l v0 b) as (w & b' & Hrun & Hw & Hs & He & _ & _ & Hadded).
  - unfold consistent. subst v0. cbn. repeat split; lia.
  - intros a [= <-]. exact Hkeeps.
  - left. exists ZyanAllocatorDefault. split; [reflexivity | exact Hfree].
  - exact scales_up_2_0.
  - exact Hlimit.
  - subst v0. cbn [size set_data]. lia.
  - exact Hblocks.
  - exists w. split; [exact Hrun |].
    change (size v0) with 0 in Hs, Hadded. change (element_size v0) with element_size' in *.
    split; [lia |].
    split; [intros out; unfold ZyanVectorSize; rewrite Hs; reflexivity |].
    unfold elements_of. rewrite Hs. cbn [Z.add]. rewrite Nat2Z.id.
    rewrite <- (map_seq_nth _ _ (fun e => Ok (source_element element_size' e 0)) l
                  (mkBuffer 0 (fun _ => x00))).
    apply map_ext_in. intros k Hk. apply in_seq in Hk.
    exact (Hadded k (proj2 Hk)).
Qed.

Lemma pushed_elements_are_stored_witness :
  exists v w,
    ZyanVectorInit heap_allocator (Some sample_owned) 1 0
    = Ok (ZYAN_STATUS_SUCCESS, Some v) /\
    perform_all [OpPush (Some sample_block); OpPush (Some sample_storage)] (Some v)
    = Ok ([ZYAN_STATUS_SUCCESS; ZYAN_STATUS_SUCCESS], Some w) /\
    w.(size) = 2 /\
    elements_of w = [Ok ["x"%byte]; Ok ["A"%byte]].
Proof.
  set (v := mkVector (Some heap_allocator) ZYAN_VECTOR_GROWTH_FACTOR
              ZYAN_VECTOR_SHRINK_THRESHOLD 0 1 1 (Some (mkBuffer 1 (fun _ => x00)))).
  exists v.
  destruct (pushed_elements_are_stored heap_allocator sample_owned v 1 0
              [sample_block; sample_storage]) as (w & Hrun & Hs & He).
  - exact heap_allocator_gives.
  - exact heap_allocator_keeps.
  - reflexivity.
  - by_evaluation.
  - by_evaluation.
  - by_evaluation.
  - repeat constructor; by_evaluation.
  - reflexivity.
  - destruct He as (_ & He).
    exists w. split; [reflexivity |]. split; [exact Hrun |].
    split; [exact Hs | exact He].
Defined.



(* ================================================================== *)
(** * Vectors over a caller's buffer                                  *)
(* ================================================================== *)

(** X24.  A vector over a caller's buffer, below 2^24 elements: a push, an
    insertion and a resize that need more than the capacity, and a reserve
    beyond it at any size, answer [ZYAN_STATUS_INSUFFICIENT_BUFFER_SIZE] and
    leave the vector exactly as it was; a resize or a reserve within the
    capacity succeeds without touching capacity or storage. *)
Theorem borrowed_vector_refuses_to_grow (v : ZyanVector) :
  borrowing v ->
  0 <= v.(size) ->
  1 <= v.(capacity) ->
  (forall e, v.(capacity) < v.(size) + 1 < 2 ^ 24 ->
     ZyanVectorPush (Some v) (Some e)
     = Ok (ZYAN_STATUS_INSUFFICIENT_BUFFER_SIZE, Some v)) /\
  (forall index e count,
     0 < count -> index <= v.(size) -> v.(capacity) < v.(size) + count < 2 ^ 24 ->
     ZyanVectorInsertElements (Some v) index (Some e) count
     = Ok (ZYAN_STATUS_INSUFFICIENT_BUFFER_SIZE, Some v)) /\
  (forall size', v.(capacity) < size' < 2 ^ 24 ->
     ZyanVectorResize (Some v) size'
     = Ok (ZYAN_STATUS_INSUFFICIENT_BUFFER_SIZE, Some v)) /\
  (forall capacity', v.(capacity) < capacity' ->
     ZyanVectorReserve (Some v) capacity'
     = Ok (ZYAN_STATUS_INSUFFICIENT_BUFFER_SIZE, Some v)) /\
  (forall size', 0 <= size' <= v.(capacity) ->
     ZyanVectorResize (Some v) size'
     = Ok (ZYAN_STATUS_SUCCESS, Some (set_size v size'))) /\
  (forall capacity', capacity' <= v.(capacity) ->
     ZyanVectorReserve (Some v) capacity' = Ok (ZYAN_STATUS_SUCCESS, Some v)).
Proof.
  exact (borrowing_refuses_what_exceeds_capacity v).
Qed.

Lemma borrowed_vector_refuses_to_grow_witness :
  ZyanVectorPush (Some (set_size sample_borrowed 4)) (Some sample_block)
  = Ok (ZYAN_STATUS_INSUFFICIENT_BUFFER_SIZE, Some (set_size sample_borrowed 4)) /\
  ZyanVectorReserve (Some (set_size sample_borrowed 4)) 5
  = Ok (ZYAN_STATUS_INSUFFICIENT_BUFFER_SIZE, Some (set_size sample_borrowed 4)).
Proof.
  destruct (borrowed_vector_refuses_to_grow (set_size sample_borrowed 4))
    as (Hpush & _ & _ & Hreserve & _).
  - unfold borrowing. repeat split.
  - by_evaluation.
  - by_evaluation.
  - split; [apply Hpush | apply Hreserve]; by_evaluation.
Defined.

(* ================================================================== *)
(** * The vector used as a stack                                      *)
(* ================================================================== *)

Lemma elements_of_length (v : ZyanVector) :
  length (elements_of v) = Z.to_nat v.(size).
Proof. unfold elements_of. rewrite length_map, length_seq. reflexivity. Qed.

(** The elements after a call that added one at the end. *)
Lemma elements_of_appended (v w : ZyanVector) (x : result (list byte)) :
  0 <= v.(size) ->
  w.(size) = v.(size) + 1 ->
  (forall j, 0 <= j < v.(size) -> read_element w j = read_element v j) ->
  read_element w v.(size) = x ->
  elements_of w = elements_of v ++ [x].
Proof.
  intros Hsize Hs Hold Hnew. unfold elements_of. rewrite Hs.
  replace (Z.to_nat (size v + 1)) with (S (Z.to_nat (size v))) by lia.
  rewrite seq_S, map_app. cbn [map Nat.add]. f_equal.
  - apply map_ext_in. intros i Hi. apply in_seq in Hi. apply Hold. lia.
  - rewrite Z2Nat.id by lia. rewrite Hnew. reflexivity.
Qed.

(** The elements after a call that removed the last one. *)
Lemma elements_of_shortened (v w : ZyanVector) :
  0 < v.(size) ->
  w.(size) = v.(size) - 1 ->
  (forall j, 0 <= j < v.(size) - 1 -> read_element w j = read_element v j) ->
  elements_of w = removelast (elements_of v).
Proof.
  intros Hsize Hs Hold. unfold elements_of. rewrite Hs.
  replace (Z.to_nat (size v)) with (S (Z.to_nat (size v - 1))) by lia.
  rewrite seq_S, map_app. cbn [map]. rewrite removelast_last.
  apply map_ext_in. intros i Hi. apply in_seq in Hi. apply Hold. lia.
Qed.

(** Stack calls on a consistent vector whose allocator never refuses. *)
Lemma stack_calls_step (limit : Z) (calls : list stack_call) :
  forall (v : ZyanVector) (b : buffer) (stack : list (list byte)),
  consistent v b ->
  (forall a, v.(allocator) = Some a -> reallocate_keeps a) ->
  grows_freely v ->
  scales_up v.(growth_factor) limit ->
  2 * limit * v.(element_size) <= ZYAN_USIZE_MODULUS ->
  v.(size) + Z.of_nat (length calls) < limit ->
  pushes_hold v.(element_size) calls ->
  elements_of v = map Ok stack ->
  exists w b',
    perform_all (map operation_of_stack_call calls) (Some v)
    = Ok (fst (stack_model v.(element_size) calls stack), Some w) /\
    consistent w b' /\
    elements_of w = map Ok (snd (stack_model v.(element_size) calls stack)).
Proof.
  induction calls as [| c calls IH];
    intros v b stack Hv Hkeeps Hfree Hscale Hlimit Hbound Hblocks Hstack.
  - exists v, b. cbn [map perform_all stack_model fst snd]. auto.
  - pose proof Hv as (_ & Hes & Hsize & _).
    assert (HM := ZYAN_USIZE_MODULUS_value).
    inversion Hblocks as [| c' calls' Hc Hrest]; subst c' calls'.
    cbn [length] in Hbound. rewrite Nat2Z.inj_succ in Hbound.
    assert (Hnext : forall op status w,
      perform op (Some v) = Ok (status, Some w) ->
      w.(element_size) = v.(element_size) /\
      (forall a, w.(allocator) = Some a -> reallocate_keeps a) /\
      grows_freely w /\ scales_up w.(growth_factor) limit).
    { intros op status w Hop.
      destruct (perform_keeps_policy op v _ _ Hop) as (w' & [= <-] & Ha & Hg & _ & He & _).
      split; [exact He |]. split; [rewrite Ha; exact Hkeeps |].
      split; [| rewrite Hg; exact Hscale].
      destruct Hfree as (a & Hav & Hall). exists a. split; [congruence | exact Hall]. }
    destruct c as [e |]; cbn [map operation_of_stack_call perform_all perform stack_model].
    + (* push *)
      destruct (push_step limit v b e Hv Hkeeps Hscale)
        as (st & v1 & Hpush & Hok & Hdone); [nia | lia | exact Hc |].
      rewrite (Hok (or_intror Hfree)) in *.
      destruct (Hdone eq_refl) as (Hs1 & He1 & _ & b1 & Hv1 & Hlow1 & Hnew1).
      destruct (Hnext (OpPush (Some e)) _ _ Hpush) as (_ & Hkeeps1 & Hfree1 & Hscale1).
      destruct (IH v1 b1 (stack ++ [source_element (element_size v) e 0]) Hv1 Hkeeps1
                  Hfree1 Hscale1) as (w & b' & Hrun & Hw & Hmodel);
        try (rewrite ?He1, ?Hs1; first [assumption | lia]).
      * rewrite map_app. cbn [map]. rewrite <- Hstack.
        apply (elements_of_appended v v1); try lia.
        -- intros j Hj. apply (read_element_moved v v1 b b1 j j Hv Hv1 He1);
             rewrite ?Hs1; try nia.
           intros i Hi. rewrite Hlow1 by nia. f_equal. lia.
        -- rewrite <- He1. apply (read_element_copied v1 b1 e (size v) 0 Hv1);
             rewrite ?Hs1, ?He1; try nia.
           intros i Hi. rewrite Hnew1 by lia. f_equal. lia.
      * exists w, b'. rewrite Hpush. cbn [bind fst snd]. rewrite He1 in Hrun, Hmodel.
        rewrite Hrun. cbn [bind fst snd]. auto.
    + (* pop *)
      assert (Hlen : length stack = Z.to_nat (size v)).
      { rewrite <- (length_map (@Ok (list byte)) stack), <- Hstack.
        apply elements_of_length. }
      destruct stack as [| x stack].
      * assert (Hzero : size v = 0) by (cbn [length] in Hlen; lia).
        assert (Hpop : ZyanVectorPop (Some v) = Ok (ZYAN_STATUS_OUT_OF_RANGE, Some v)).
        { unfold ZyanVectorPop. rewrite Hzero. reflexivity. }
        destruct (IH v b [] Hv Hkeeps Hfree Hscale Hlimit) as (w & b' & Hrun & Hw & Hmodel);
          try assumption; [lia |].
        exists w, b'. rewrite Hpop. cbn [bind fst snd]. rewrite Hrun.
        cbn [bind fst snd]. auto.
      * assert (Hpos : 0 < size v) by (cbn [length] in Hlen; lia).
        destruct (pop_step limit v b Hv Hkeeps Hscale Hlimit)
          as (st & v1 & Hpop & Hok & Hdone); [lia |].
        rewrite (Hok (or_introl Hfree)) in *.
        destruct (Hdone eq_refl) as (Hs1 & He1 & b1 & Hv1 & Hlow1).
        destruct (Hnext OpPop _ _ Hpop) as (_ & Hkeeps1 & Hfree1 & Hscale1).
        destruct (IH v1 b1 (removelast (x :: stack)) Hv1 Hkeeps1 Hfree1 Hscale1)
          as (w & b' & Hrun & Hw & Hmodel);
          try (rewrite ?He1, ?Hs1; first [assumption | lia]).
        -- rewrite (elements_of_shortened v v1 Hpos Hs1).
           ++ rewrite Hstack. clear. generalize (x :: stack). intros l.
              induction l as [| y [| z l] IHl]; [reflexivity | reflexivity |].
              change (removelast (map Ok (y :: z :: l)))
                with (Ok y :: removelast (map Ok (z :: l))).
              rewrite IHl. reflexivity.
           ++ intros j Hj. apply (read_element_moved v v1 b b1 j j Hv Hv1 He1);
                rewrite ?Hs1; try nia.
              intros i Hi. rewrite Hlow1 by nia. f_equal. lia.
        -- exists w, b'. rewrite Hpop. cbn [bind fst snd]. rewrite He1 in Hrun, Hmodel.
           rewrite Hrun. cbn [bind fst snd]. auto.
Qed.

(** X25.  The vector as a stack.  On a consistent vector whose allocator
    never refuses and keeps the bytes, every sequence of pushes and pops
    returns, and it answers and leaves what a stack of elements does: each
    push succeeds and puts its element on top, each pop takes the top
    element off, and a pop of the empty vector is answered with
    [ZYAN_STATUS_OUT_OF_RANGE] and changes nothing.  The vector is
    consistent afterwards. *)
Theorem push_pop_sequences_behave_as_a_stack
    (limit : Z) (v : ZyanVector) (b : buffer) (calls : list stack_call)
    (stack : list (list byte)) :
  consistent v b ->
  (forall a, v.(allocator) = Some a -> reallocate_keeps a) ->
  grows_freely v ->
  scales_up v.(growth_factor) limit ->
  2 * limit * v.(element_size) <= ZYAN_USIZE_MODULUS ->
  v.(size) + Z.of_nat (length calls) < limit ->
  pushes_hold v.(element_size) calls ->
  elements_of v = map Ok stack ->
  exists w b',
    perform_all (map operation_of_stack_call calls) (Some v)
    = Ok (fst (stack_model v.(element_size) calls stack), Some w) /\
    consistent w b' /\
    elements_of w = map Ok (snd (stack_model v.(element_size) calls stack)).
Proof.
  intros Hv Hkeeps Hfree Hscale Hlimit Hbound Hblocks Hstack.
  exact (stack_calls_step limit calls v b stack Hv Hkeeps Hfree Hscale Hlimit Hbound
           Hblocks Hstack).
Qed.

Lemma push_pop_sequences_behave_as_a_stack_witness :
  exists w b',
    perform_all [OpPop; OpPop; OpPush (Some sample_block); OpPop; OpPop; OpPop]
      (Some sample_owned)
    = Ok ([ZYAN_STATUS_SUCCESS; ZYAN_STATUS_SUCCESS; ZYAN_STATUS_SUCCESS;
           ZYAN_STATUS_SUCCESS; ZYAN_STATUS_SUCCESS; ZYAN_STATUS_OUT_OF_RANGE], Some w) /\
    consistent w b' /\
    elements_of w = [].
Proof.
  apply (push_pop_sequences_behave_as_a_stack (2 ^ 24) sample_owned sample_storage
           [StackPop; StackPop; StackPush sample_block; StackPop; StackPop; StackPop]
           [["A"%byte]; ["B"%byte]; ["C"%byte]]).
  - exact sample_owned_consistent.
  - exact sample_owned_keeps.
  - exact sample_owned_grows_freely.
  - exact scales_up_2_0.
  - by_evaluation.
  - by_evaluation.
  - repeat constructor. by_evaluation.
  - reflexivity.
Defined.

(* ================================================================== *)
(** * Null arguments besides the vector                               *)
(* ================================================================== *)

(** X26.  With a valid vector, a null element or block is refused with
    [ZYAN_STATUS_INVALID_ARGUMENT] by lookup, assignment, push and insertion,
    as are a null allocator and a null buffer by the initialisations and a
    count of zero by insertion and deletion, all leaving the vector alone;
    but [ZyanVectorSize] and [ZyanVectorCapacity] do not test the variable
    they write to and store through a null pointer. *)
Theorem null_arguments_besides_the_vector (v : ZyanVector) :
  (forall index,
     ZyanVectorGet (Some v) index None = Ok (ZYAN_STATUS_INVALID_ARGUMENT, None) /\
     ZyanVectorGetConst (Some v) index None = Ok (ZYAN_STATUS_INVALID_ARGUMENT, None) /\
     ZyanVectorAssign (Some v) index None = Ok (ZYAN_STATUS_INVALID_ARGUMENT, Some v) /\
     ZyanVectorInsert (Some v) index None = Ok (ZYAN_STATUS_INVALID_ARGUMENT, Some v)) /\
  ZyanVectorPush (Some v) None = Ok (ZYAN_STATUS_INVALID_ARGUMENT, Some v) /\
  (forall index elements count,
     elements = None \/ count = 0 ->
     ZyanVectorInsertElements (Some v) index elements count
     = Ok (ZYAN_STATUS_INVALID_ARGUMENT, Some v)) /\
  (forall index,
     ZyanVectorDeleteElements (Some v) index 0
     = Ok (ZYAN_STATUS_INVALID_ARGUMENT, Some v)) /\
  (forall element_size' capacity' growth_factor' shrink_threshold',
     ZyanVectorInitEx (Some v) element_size' capacity' None growth_factor' shrink_threshold'
     = Ok (ZYAN_STATUS_INVALID_ARGUMENT, Some v)) /\
  (forall element_size' capacity',
     ZyanVectorInitBuffer (Some v) element_size' None capacity'
     = Ok (ZYAN_STATUS_INVALID_ARGUMENT, Some v)) /\
  ZyanVectorSize (Some v) None = Undefined NullDereference /\
  ZyanVectorCapacity (Some v) None = Undefined NullDereference.
Proof.
  split; [intros index; repeat split |].
  split; [reflexivity |].
  split.
  { intros index elements count [-> | ->]; [reflexivity |].
    unfold ZyanVectorInsertElements. destruct elements; reflexivity. }
  repeat split.
Qed.
